(** * Praias Fluviais de Penacova: access scoping, audit trail, notifications
      and password-reset tokens

    A shallow embedding of the storage-facing logic of [src/app.py] and
    [src/models.py], and the properties of the record scope, the audit
    recorder, the notification fan-out and the reset-token lifecycle.

    Conventions of the embedding:
    - a table is the list of its rows in storage order ([.first()] and
      [.all()] read it front to back, an INSERT appends);
    - instants ([datetime]) are integers, [datetime.utcnow()] is the [now]
      field of the request environment;
    - the SQLAlchemy session is a working copy of the store: [commit]
      publishes it, [rollback] discards it;
    - a Python exception is the [Raised] outcome of a computation; storage
      accesses raise when the fault schedule of the world says so;
    - a [str] is the list of the bytes of its UTF-8 encoding;
    - the database is SQLite, the default of [src/config.py]: an integer
      bound to a statement has 64 bits, and a larger one raises when the
      statement runs. *)

From Stdlib Require Import ZArith List String Ascii Bool Lia DecimalString.
From Stdlib Require Import Permutation Sorted.
Import ListNotations.
Local Open Scope string_scope.
Local Open Scope list_scope.
Local Open Scope Z_scope.

Set Implicit Arguments.

(** ** Table helpers *)

Section Tables.
Variable A : Type.

(** The row a query object hands back is the first match; assigning to
    one of its attributes changes that row and no other. *)
Fixpoint update_first (p : A -> bool) (f : A -> A) (rows : list A) : list A :=
  match rows with
  | [] => []
  | r :: rest => if p r then f r :: rest else r :: update_first p f rest
  end.
End Tables.

(** ** models.py *)

Definition ROLE_NADADOR : string := "nadador".
Definition ROLE_SUPERVISOR : string := "supervisor".
Definition ROLE_PRESIDENTE : string := "presidente".

(** werkzeug's salted hash, kept symbolic: the hash of a password. *)
Inductive PasswordHash : Type :=
| HashOf (password : string).

Definition generate_password_hash (password : string) : PasswordHash :=
  HashOf password.

Definition check_password_hash (h : PasswordHash) (password : string) : bool :=
  match h with HashOf p => String.eqb p password end.

Module User.
Record t : Type := mk {
  id : Z;
  name : string;
  email : string;
  tax_number : option string;
  password_hash : PasswordHash;
  role : string;
  is_active : bool
}.

Definition set_password (self : t) (password : string) : t :=
  if String.eqb password "" then self
  else mk (id self) (name self) (email self) (tax_number self)
          (generate_password_hash password) (role self) (is_active self).

Definition check_password (self : t) (password : string) : bool :=
  if String.eqb password "" then false
  else check_password_hash (password_hash self) password.

Definition set_is_active (self : t) (b : bool) : t :=
  mk (id self) (name self) (email self) (tax_number self)
     (password_hash self) (role self) b.
End User.

(** Where a notification points: the result of [url_for] on a route. *)
Inductive Link : Type :=
| url_activities
| url_ocorrencias
| url_view_occurrence (id : Z)
| url_view_user (id : Z).

Module Notification.
Record t : Type := mk {
  id : Z;
  user_id : Z;
  title : string;
  message : string;
  type : string;
  created_at : Z;
  read : bool;
  link : option Link
}.

Definition set_read (self : t) (b : bool) : t :=
  mk (id self) (user_id self) (title self) (message self) (type self)
     (created_at self) b (link self).
End Notification.

Module PasswordResetToken.
Record t : Type := mk {
  id : Z;
  user_id : Z;
  token : string;
  created_at : Z;
  expires_at : Z;
  used : bool;
  used_at : option Z
}.

(** [not self.used and datetime.utcnow() < self.expires_at] *)
Definition is_valid (now : Z) (self : t) : bool :=
  negb (used self) && (now <? expires_at self).

Definition mark_used (now : Z) (self : t) : t :=
  mk (id self) (user_id self) (token self) (created_at self)
     (expires_at self) true (Some now).
End PasswordResetToken.

(** A value of the schema-less details map of an audit entry. *)
Inductive Value : Type :=
| VNone
| VBool (b : bool)
| VInt (z : Z)
| VStr (s : string).

Definition Details : Type := list (string * Value).

Module ActivityLog.
Record t : Type := mk {
  id : Z;
  user_id : Z;
  action : string;
  description : string;
  ip_address : option string;
  created_at : Z;
  details : option Details
}.
End ActivityLog.

Module Occurrence.
Record t : Type := mk {
  id : Z;
  date : Z;
  zone : string;
  type : string;
  description : option string;
  user_id : Z
}.
End Occurrence.

(** ** The store and the session *)

Record Store : Type := mkStore {
  user_rows : list User.t;
  occurrence_rows : list Occurrence.t;
  notification_rows : list Notification.t;
  activity_log_rows : list ActivityLog.t;
  reset_token_rows : list PasswordResetToken.t
}.

Definition with_users (f : list User.t -> list User.t) (s : Store) : Store :=
  mkStore (f (user_rows s)) (occurrence_rows s) (notification_rows s)
          (activity_log_rows s) (reset_token_rows s).

Definition with_occurrences (f : list Occurrence.t -> list Occurrence.t)
    (s : Store) : Store :=
  mkStore (user_rows s) (f (occurrence_rows s)) (notification_rows s)
          (activity_log_rows s) (reset_token_rows s).

Definition with_notifications (f : list Notification.t -> list Notification.t)
    (s : Store) : Store :=
  mkStore (user_rows s) (occurrence_rows s) (f (notification_rows s))
          (activity_log_rows s) (reset_token_rows s).

Definition with_activity_logs (f : list ActivityLog.t -> list ActivityLog.t)
    (s : Store) : Store :=
  mkStore (user_rows s) (occurrence_rows s) (notification_rows s)
          (f (activity_log_rows s)) (reset_token_rows s).

Definition with_reset_tokens
    (f : list PasswordResetToken.t -> list PasswordResetToken.t)
    (s : Store) : Store :=
  mkStore (user_rows s) (occurrence_rows s) (notification_rows s)
          (activity_log_rows s) (f (reset_token_rows s)).

(** Primary keys are handed out past the largest one in the table. *)
Definition next_id (A : Type) (key : A -> Z) (rows : list A) : Z :=
  1 + fold_right (fun r m => Z.max (key r) m) 0 rows.

(** [committed] is what every request sees; [session] is the working copy
    of the running request, with its pending inserts and updates. *)
Record World : Type := mkWorld {
  committed : Store;
  session : Store;
  faults : list bool
}.

Definition with_session (f : Store -> Store) (w : World) : World :=
  mkWorld (committed w) (f (session w)) (faults w).

(** ** Computations that touch the store and may raise *)

Inductive Outcome (A : Type) : Type :=
| Ok (a : A)
| Raised.
Arguments Raised {A}.

Definition M (A : Type) : Type := World -> Outcome A * World.

Definition ret (A : Type) (a : A) : M A := fun w => (Ok a, w).

Definition bind (A B : Type) (m : M A) (k : A -> M B) : M B :=
  fun w =>
    match m w with
    | (Ok a, w') => k a w'
    | (Raised, w') => (Raised, w')
    end.

Notation "x <- m ;; k" := (bind m (fun x => k))
  (at level 61, m at next level, right associativity).
Notation "m ;;; k" := (bind m (fun _ => k))
  (at level 61, right associativity).

(** [raise] *)
Definition raise (A : Type) : M A := fun w => (Raised, w).

(** [try: body except Exception: handler] *)
Definition try_except (A : Type) (body handler : M A) : M A :=
  fun w =>
    match body w with
    | (Ok a, w') => (Ok a, w')
    | (Raised, w') => handler w'
    end.

(** A storage access: the next entry of the fault schedule says whether it
    raises. An exhausted schedule means no further fault. *)
Definition fault_point : M unit :=
  fun w =>
    match faults w with
    | [] => (Ok tt, w)
    | false :: fs => (Ok tt, mkWorld (committed w) (session w) fs)
    | true :: fs => (Raised, mkWorld (committed w) (session w) fs)
    end.

(** A SELECT through the session. *)
Definition query (A : Type) (q : Store -> A) : M A :=
  fault_point ;;; (fun w => (Ok (q (session w)), w)).

(** An attribute assignment on a loaded row, or a pending insert: recorded
    in the session, written at the next commit. *)
Definition modify (f : Store -> Store) : M unit :=
  fun w => (Ok tt, with_session f w).

(** [db.session.add(row)] *)
Definition session_add (f : Store -> Store) : M unit :=
  fault_point ;;; modify f.

(** [db.session.commit()] *)
Definition commit : M unit :=
  fault_point ;;;
  (fun w => (Ok tt, mkWorld (session w) (session w) (faults w))).

(** [db.session.rollback()] *)
Definition rollback : M unit :=
  fun w => (Ok tt, mkWorld (committed w) (committed w) (faults w)).

(** [for x in xs: body(x)] *)
Fixpoint for_each (A : Type) (xs : list A) (body : A -> M unit) : M unit :=
  match xs with
  | [] => ret tt
  | x :: rest => body x ;;; for_each rest body
  end.

(** What a request knows besides the store. *)
Record Env : Type := mkEnv {
  now : Z;
  remote_addr : option string
}.

(** ** app.py: constants and lookups *)

Definition HIDDEN_USER_ID : Z := 12.

(** [User.query.get(uid)] *)
Definition get_user (s : Store) (uid : Z) : option User.t :=
  find (fun u => User.id u =? uid) (user_rows s).

(** The integers SQLite stores and binds, of 64 bits; the sqlite3 driver
    raises OverflowError on any other when the statement runs. *)
Definition sqlite_integer (z : Z) : bool :=
  (- 2 ^ 63 <=? z) && (z <? 2 ^ 63).

(** [PasswordResetToken.query.filter_by(token=token).first()] *)
Definition first_reset_token (s : Store) (token : string)
  : option PasswordResetToken.t :=
  find (fun r => String.eqb (PasswordResetToken.token r) token) (reset_token_rows s).

(** ** app.py: password-reset tokens *)

(** [generate_reset_token(user, expiration_hours)]; [secret] is the value
    drawn by [secrets.token_urlsafe(32)]. The token column is unique: the
    INSERT of the commit raises when the secret is already stored. *)
Definition generate_reset_token (env : Env) (user : User.t)
    (expiration_hours : Z) (secret : string) : M string :=
  let expires_at := now env + 3600 * expiration_hours in
  session_add (fun s =>
    with_reset_tokens (fun rows => rows ++
      [PasswordResetToken.mk (next_id PasswordResetToken.id rows)
         (User.id user) secret (now env) expires_at false None]) s) ;;;
  (fun w =>
     if existsb (fun r => String.eqb (PasswordResetToken.token r) secret)
                (reset_token_rows (committed w))
     then raise string w
     else (commit ;;; ret secret) w).

(** [verify_reset_token(token)], on the store the query reads. The result
    is [reset_token.user], the row of the users table the token points to. *)
Definition verify_reset_token (env : Env) (s : Store) (token : string)
  : option User.t :=
  match first_reset_token s token with
  | None => None
  | Some reset_token =>
      if negb (PasswordResetToken.is_valid (now env) reset_token) then None
      else get_user s (PasswordResetToken.user_id reset_token)
  end.

(** [mark_token_used(token)] *)
Definition mark_token_used (env : Env) (token : string) : M unit :=
  reset_token <- query (fun s => first_reset_token s token) ;;
  match reset_token with
  | Some _ =>
      modify (with_reset_tokens
        (update_first (fun r => String.eqb (PasswordResetToken.token r) token)
                      (PasswordResetToken.mark_used (now env)))) ;;;
      commit
  | None => ret tt
  end.

(** ** Python values *)

(** Truth value of a Python object, as [if x:] tests it. *)
Definition truthy (v : Value) : bool :=
  match v with
  | VNone => false
  | VBool b => b
  | VInt z => negb (z =? 0)
  | VStr s => negb (String.eqb s "")
  end.

(** [if details:] on a dict or [None]. *)
Definition details_truthy (details : option Details) : bool :=
  match details with
  | Some (_ :: _) => true
  | _ => false
  end.

(** [details.get(key, default)] *)
Definition dict_get (d : Details) (key : string) (default : Value) : Value :=
  match find (fun kv => String.eqb (fst kv) key) d with
  | Some kv => snd kv
  | None => default
  end.

(** A Python [str] is held as the bytes of its UTF-8 encoding. *)

(** The blanks of [str.strip()] below U+0080: U+0009 to U+000D, U+001C to
    U+001F and the space. *)
Definition is_space (c : ascii) : bool :=
  let n := Z.of_nat (nat_of_ascii c) in
  ((9 <=? n) && (n <=? 13)) || ((28 <=? n) && (n <=? 32)).

(** The blanks that [int()] skips below U+0080: U+0009 to U+000D and the
    space. *)
Definition is_int_space (c : ascii) : bool :=
  let n := Z.of_nat (nat_of_ascii c) in
  ((9 <=? n) && (n <=? 13)) || (n =? 32).

(** The blanks of two bytes: U+0085 and U+00A0. *)
Definition is_space2 (a b : ascii) : bool :=
  let x := Z.of_nat (nat_of_ascii a) in
  let y := Z.of_nat (nat_of_ascii b) in
  (x =? 194) && ((y =? 133) || (y =? 160)).

(** The blanks of three bytes: U+1680, U+2000 to U+200A, U+2028, U+2029,
    U+202F, U+205F and U+3000. *)
Definition is_space3 (a b c : ascii) : bool :=
  let x := Z.of_nat (nat_of_ascii a) in
  let y := Z.of_nat (nat_of_ascii b) in
  let z := Z.of_nat (nat_of_ascii c) in
  ((x =? 225) && (y =? 154) && (z =? 128))
  || ((x =? 226) && (y =? 128)
      && (((128 <=? z) && (z <=? 138)) || (z =? 168) || (z =? 169) || (z =? 175)))
  || ((x =? 226) && (y =? 129) && (z =? 159))
  || ((x =? 227) && (y =? 128) && (z =? 128)).

Definition digit_of (c : ascii) : option Z :=
  let n := Z.of_nat (nat_of_ascii c) in
  if (48 <=? n) && (n <=? 57) then Some (n - 48) else None.

(** The text after its leading blanks; [blank2] and [blank3] test the
    blanks of two and three bytes in the order in which the bytes are
    met. *)
Fixpoint lstrip_by (blank : ascii -> bool) (blank2 : ascii -> ascii -> bool)
    (blank3 : ascii -> ascii -> ascii -> bool) (l : list ascii) : list ascii :=
  match l with
  | [] => []
  | a :: rest =>
      if blank a then lstrip_by blank blank2 blank3 rest
      else
        match rest with
        | [] => l
        | b :: rest2 =>
            if blank2 a b then lstrip_by blank blank2 blank3 rest2
            else
              match rest2 with
              | [] => l
              | c :: rest3 =>
                  if blank3 a b c then lstrip_by blank blank2 blank3 rest3
                  else l
              end
        end
  end.

(** The text without its leading and trailing blanks; the trailing ones
    are met last byte first. *)
Definition strip_by (blank : ascii -> bool) (l : list ascii) : list ascii :=
  rev (lstrip_by blank (fun b a => is_space2 a b)
         (fun c b a => is_space3 a b c)
         (rev (lstrip_by blank is_space2 is_space3 l))).

(** [str.strip()] *)
Definition strip (l : list ascii) : list ascii :=
  strip_by is_space l.

(** Decimal digits, a single underscore allowed between two of them. *)
Fixpoint digits (acc : Z) (after_digit : bool) (l : list ascii) : option Z :=
  match l with
  | [] => if after_digit then Some acc else None
  | c :: rest =>
      match digit_of c with
      | Some d => digits (10 * acc + d) true rest
      | None =>
          if Ascii.eqb c "_"%char && after_digit then digits acc false rest
          else None
      end
  end.

(** [int(s)] for a text whose digits are the ASCII ones: surrounding
    blanks, an optional sign and a decimal literal; [None] stands for
    [ValueError]. *)
Definition py_int (s : string) : option Z :=
  match strip_by is_int_space (list_ascii_of_string s) with
  | "+"%char :: rest => digits 0 false rest
  | "-"%char :: rest => option_map Z.opp (digits 0 false rest)
  | l => digits 0 false l
  end.

(** The texts on which [py_int] is [int()] under every interpreter: ASCII
    characters only, as [int()] also reads the decimal digits of other
    scripts, and at most 640 of them, as CPython may refuse a longer
    literal. *)
Definition plain_text (s : string) : bool :=
  forallb (fun c => Z.of_nat (nat_of_ascii c) <? 128) (list_ascii_of_string s)
  && (Z.of_nat (String.length s) <=? 640).

(** [len(s)]: the bytes of the encoding that start a character. *)
Definition py_len (s : string) : Z :=
  Z.of_nat
    (List.length
       (filter (fun c => let n := Z.of_nat (nat_of_ascii c) in
                         (n <? 128) || (192 <=? n))
               (list_ascii_of_string s))).

(** [Length(min=6)], the validator of a new password in
    [ResetPasswordForm], [ChangePasswordForm] and [RegisterForm]. *)
Definition validated_password (password : string) : bool :=
  6 <=? py_len password.

(** [str.lower()] on ASCII text. *)
Definition ascii_lower (s : string) : string :=
  string_of_list_ascii
    (map (fun c => let n := nat_of_ascii c in
                   if (Nat.leb 65 n && Nat.leb n 90)%bool
                   then ascii_of_nat (n + 32)%nat else c)
         (list_ascii_of_string s)).

(** [str(n)] for an integer. *)
Definition py_str_int (z : Z) : string :=
  NilZero.string_of_int (Z.to_int z).

(** [str(v)], as an f-string formats a value. *)
Definition py_str (v : Value) : string :=
  match v with
  | VNone => "None"
  | VBool true => "True"
  | VBool false => "False"
  | VInt z => py_str_int z
  | VStr s => s
  end.

(** [int(v)], the conversion werkzeug's integer converter applies when
    [url_for] builds the path of a route with an [<int:id>] segment;
    [None] stands for the exception. *)
Definition int_of_value (v : Value) : option Z :=
  match v with
  | VNone => None
  | VBool b => Some (if b then 1 else 0)
  | VInt z => Some z
  | VStr s => py_int s
  end.

(** [x in xs] for strings. *)
Definition mem_string (x : string) (xs : list string) : bool :=
  existsb (String.eqb x) xs.

(** [x in xs] for integers, as [Column.in_(xs)] tests a row. *)
Definition mem_Z (x : Z) (xs : list Z) : bool :=
  existsb (Z.eqb x) xs.

(** [a or b] on optional strings. *)
Definition str_or (a b : option string) : option string :=
  match a with
  | Some s => if String.eqb s "" then b else a
  | None => b
  end.

(** ** app.py: the audit recorder *)

Definition notified_actions : list string :=
  ["login"; "create_occurrence"; "edit_occurrence"; "delete_occurrence";
   "toggle_user_status"].

(** Title and message of the notification of an action; [None] when no
    branch of the [if]/[elif] chain binds them. *)
Definition notification_text (action : string) (user : User.t)
    (details : option Details) : option (string * string) :=
  if String.eqb action "login" then
    Some ("Novo Login Detectado",
          String.append (User.name user) " acabou de entrar no sistema.")
  else if String.eqb action "create_occurrence" then
    Some ("Nova Ocorrência Registada",
          String.append (User.name user) " registou uma nova ocorrência.")
  else if String.eqb action "edit_occurrence" then
    Some ("Ocorrência Editada",
          String.append (User.name user) " editou uma ocorrência.")
  else if String.eqb action "delete_occurrence" then
    Some ("Ocorrência Removida",
          String.append (User.name user) " removeu uma ocorrência.")
  else if String.eqb action "toggle_user_status" then
    let is_active :=
      match details with
      | Some ((_ :: _) as d) => dict_get d "is_active" (VBool true)
      | _ => VBool true
      end in
    if truthy is_active then
      Some ("Utilizador Reativado",
            String.append "Utilizador foi reativado por "
              (String.append (User.name user) "."))
    else
      let suspension_reason :=
        match details with
        | Some ((_ :: _) as d) => dict_get d "suspension_reason" (VStr "")
        | _ => VStr ""
        end in
      if truthy suspension_reason then
        Some ("Utilizador Suspenso",
              String.append "Utilizador suspenso por "
                (String.append (User.name user)
                   (String.append ". Razão: " (py_str suspension_reason))))
      else
        Some ("Utilizador Suspenso",
              String.append "Utilizador foi suspenso por "
                (String.append (User.name user) "."))
  else None.

(** [url_for(route, id=v)] inside [try: ... except Exception:], with the
    activity feed as the fallback. *)
Definition url_for_or_default (route : Z -> Link) (v : Value)
    (default_link : Link) : Link :=
  match int_of_value v with
  | Some id => route id
  | None => default_link
  end.

(** The link a notification of [action] carries. *)
Definition notification_link (action : string) (details : option Details)
  : Link :=
  let occurrence_id :=
    match details with
    | Some ((_ :: _) as d) => dict_get d "occurrence_id" VNone
    | _ => VNone
    end in
  let target_user_id :=
    match details with
    | Some ((_ :: _) as d) => dict_get d "user_id" VNone
    | _ => VNone
    end in
  let default_link := url_activities in
  let notif_link :=
    if mem_string action ["create_occurrence"; "edit_occurrence"]
       && truthy occurrence_id
    then url_for_or_default url_view_occurrence occurrence_id default_link
    else if String.eqb action "delete_occurrence" then url_ocorrencias
    else default_link in
  if mem_string action ["create_user"; "edit_user"; "toggle_user_status"]
     && truthy target_user_id
  then url_for_or_default url_view_user target_user_id default_link
  else notif_link.

(** [User.role.in_(['supervisor', 'presidente']), User.id != HIDDEN_USER_ID] *)
Definition is_notified (u : User.t) : bool :=
  mem_string (User.role u) ["supervisor"; "presidente"]
  && negb (User.id u =? HIDDEN_USER_ID).

Definition add_activity (env : Env) (user_id : Z) (action description : string)
    (ip : option string) (details : option Details) : M unit :=
  session_add (with_activity_logs (fun rows => rows ++
    [ActivityLog.mk (next_id ActivityLog.id rows) user_id action description
       (str_or ip (remote_addr env)) (now env)
       (if details_truthy details then details else None)])).

Definition add_notification (env : Env) (user_id : Z) (title message : string)
    (link : Link) : M unit :=
  session_add (with_notifications (fun rows => rows ++
    [Notification.mk (next_id Notification.id rows) user_id title message
       "info" (now env) false (Some link)])).

(** [log_activity(user_id, action, description, details, ip,
    notify_supervisors)] *)
Definition log_activity (env : Env) (user_id : Z) (action description : string)
    (details : option Details) (ip : option string)
    (notify_supervisors : bool) : M unit :=
  try_except
    (add_activity env user_id action description ip details ;;;
     (if mem_string action notified_actions then
        user <- query (fun s => get_user s user_id) ;;
        match user with
        | Some user =>
            let text := notification_text action user details in
            let notif_link := notification_link action details in
            if notify_supervisors then
              supervisors <- query (fun s => filter is_notified (user_rows s)) ;;
              for_each supervisors (fun supervisor =>
                match text with
                | Some (title, message) =>
                    add_notification env (User.id supervisor) title message
                      notif_link
                | None => raise unit
                end)
            else ret tt
        | None => ret tt
        end
      else ret tt) ;;;
     commit)
    (rollback ;;; ret tt).

(** The call sites wrap the recorder once more:
    [try: log_activity(...) except Exception as e: print(...)]. *)
Definition guarded (m : M unit) : M unit :=
  try_except m (ret tt).

(** ** app.py: creating an occurrence *)

(** The validated form of [/ocorrencia/novo]; [form_datetime] is the result
    of [datetime.strptime] on the date and time fields, [None] when it
    raises [ValueError]. *)
Record OccurrenceForm : Type := mkOccurrenceForm {
  form_datetime : option Z;
  form_zone : string;
  form_type : string;
  form_description : option string
}.

Inductive NovaOcorrenciaResult : Type :=
| nova_redirect_ocorrencias
| nova_render_form.

(** The names held by the Zone and OccurrenceType tables, which the
    routes embedded here read and never write. *)
Record Catalogue : Type := mkCatalogue {
  zone_names : list string;
  type_names : list string
}.

(** The lookups of the zone and type choices at the head of
    [nova_ocorrencia()], outside any [try]: the two tables, then for an
    empty one the values found in the occurrences. The choices go to the
    template of the form. *)
Definition form_choices (catalogue : Catalogue) : M unit :=
  zone_objs <- query (fun _ => zone_names catalogue) ;;
  type_objs <- query (fun _ => type_names catalogue) ;;
  (match zone_objs with
   | [] => query (fun s => map Occurrence.zone (occurrence_rows s)) ;;; ret tt
   | _ :: _ => ret tt
   end) ;;;
  match type_objs with
  | [] => query (fun s => map Occurrence.type (occurrence_rows s)) ;;; ret tt
  | _ :: _ => ret tt
  end.

(** [nova_ocorrencia()], the POST of a validated form. *)
Definition nova_ocorrencia (env : Env) (catalogue : Catalogue)
    (current_user : User.t) (form : OccurrenceForm) : M NovaOcorrenciaResult :=
  form_choices catalogue ;;;
  try_except
    (match form_datetime form with
     | None => raise NovaOcorrenciaResult
     | Some occurrence_date =>
         occ_id <- (fun w =>
           (Ok (next_id Occurrence.id (occurrence_rows (session w))), w)) ;;
         session_add (with_occurrences (fun rows => rows ++
           [Occurrence.mk occ_id occurrence_date (form_zone form)
              (form_type form) (form_description form)
              (User.id current_user)])) ;;;
         commit ;;;
         guarded
           (log_activity env (User.id current_user) "create_occurrence"
              (String.append "Criou ocorrência #" (py_str_int occ_id))
              (Some [("occurrence_id", VInt occ_id);
                     ("zone", VStr (form_zone form));
                     ("type", VStr (form_type form))])
              None true) ;;;
         ret nova_redirect_ocorrencias
     end)
    (rollback ;;; ret nova_render_form).

(** ** app.py: marking a notification as read *)

Inductive MarkReadResult : Type :=
| mark_not_found      (* 404 *)
| mark_forbidden      (* 403, 'Não autorizado' *)
| mark_success        (* 200, success: true *)
| mark_server_error.  (* 500 *)

(** [Notification.query.get(id)] *)
Definition get_notification (s : Store) (id : Z) : option Notification.t :=
  find (fun n => Notification.id n =? id) (notification_rows s).

(** [mark_notification_read(id)] *)
Definition mark_notification_read (env : Env) (current_user : User.t)
    (id : Z) : M MarkReadResult :=
  notification <- query (fun s => get_notification s id) ;;
  match notification with
  | None => ret mark_not_found
  | Some notification =>
      if negb (Notification.user_id notification =? User.id current_user)
      then ret mark_forbidden
      else
        try_except
          (modify (with_notifications
             (update_first (fun n => Notification.id n =? id)
                           (fun n => Notification.set_read n true))) ;;;
           commit ;;;
           guarded
             (log_activity env (User.id current_user) "mark_notification_read"
                (String.append "Marcou notificação #"
                   (String.append (py_str_int id) " como lida"))
                (Some [("notification_id", VInt id)]) None false) ;;;
           ret mark_success)
          (rollback ;;; ret mark_server_error)
  end.

(** ** app.py: redeeming a reset token *)

Inductive ResetPasswordResult : Type :=
| reset_redirect_dashboard
| reset_redirect_forgot_password   (* 'Link inválido ou expirado' *)
| reset_redirect_login             (* 'Palavra-passe redefinida com sucesso!' *)
| reset_render_form.

(** The part of [reset_password] that runs once the token has been
    verified and the form validates. *)
Definition reset_password_submit (env : Env) (token : string) (user : User.t)
    (password : string) : M ResetPasswordResult :=
  try_except
    (modify (with_users
       (update_first (fun u => User.id u =? User.id user)
                     (fun u => User.set_password u password))) ;;;
     mark_token_used env token ;;;
     commit ;;;
     guarded
       (log_activity env (User.id user) "password_reset"
          "Palavra-passe redefinida via recuperação" None None false) ;;;
     ret reset_redirect_login)
    (rollback ;;; ret reset_render_form).

(** [reset_password(token)]; [form] is the password of a validated POST,
    [None] for a GET or a form that does not validate. *)
Definition reset_password (env : Env) (is_authenticated : bool)
    (token : string) (form : option string) : M ResetPasswordResult :=
  if is_authenticated then ret reset_redirect_dashboard
  else
    user <- query (fun s => verify_reset_token env s token) ;;
    match user with
    | None => ret reset_redirect_forgot_password
    | Some user =>
        match form with
        | Some password => reset_password_submit env token user password
        | None => ret reset_render_form
        end
    end.

(** ** app.py: sessions *)

(** [User.query.get(uid)] for a key that comes with the request, on the
    store the query reads: the row, [None], or OverflowError for a key that
    SQLite cannot bind. The keys of stored rows are INTEGER values, so it
    is a key finding no row that can be out of range. *)
Definition query_get_user (s : Store) (uid : Z) : Outcome (option User.t) :=
  match get_user s uid with
  | Some user => Ok (Some user)
  | None => if sqlite_integer uid then Ok None else Raised
  end.

(** [load_user(user_id)], on the store the query reads; the lookup is
    outside the [try]. *)
Definition load_user (s : Store) (user_id : string)
  : Outcome (option User.t) :=
  match py_int user_id with
  | None => Ok None
  | Some uid =>
      match query_get_user s uid with
      | Ok (Some user) => Ok (if User.is_active user then Some user else None)
      | Ok None => Ok None
      | Raised => Raised
      end
  end.

Inductive LoginResult : Type :=
| login_redirect_dashboard (user : User.t)
| login_render_form.       (* 'Credenciais inválidas' *)

(** [login()], the POST of a validated form; [email] is
    [form.email.data.lower()]. *)
Definition login (env : Env) (email password user_agent : string)
  : M LoginResult :=
  user <- query (fun s =>
    find (fun u => String.eqb (User.email u) email) (user_rows s)) ;;
  match user with
  | Some user =>
      if User.check_password user password then
        guarded
          (log_activity env (User.id user) "login" "Iniciou sessão"
             (Some [("user_agent", VStr user_agent)]) None false) ;;;
        ret (login_redirect_dashboard user)
      else ret login_render_form
  | None => ret login_render_form
  end.

Inductive ToggleResult : Type :=
| toggle_access_denied       (* swimmer: 'Acesso negado' *)
| toggle_not_found           (* 404 *)
| toggle_only_swimmers       (* supervisor on a non-swimmer *)
| toggle_own_account         (* 'Não é possível suspender seu próprio usuário' *)
| toggle_reason_required
| toggle_done
| toggle_failed.

(** [toggle_user_status(id)]; [suspension_reason] is the form field, the
    empty string when it is absent. The commit expires the loaded row:
    the read of [user.id] that follows, for the details of the audit
    entry, loads it again, inside the outer [try] only. *)
Definition toggle_user_status (env : Env) (current_user : User.t) (id : Z)
    (suspension_reason : string) : M ToggleResult :=
  if String.eqb (User.role current_user) ROLE_NADADOR then
    ret toggle_access_denied
  else
    user <- query (fun s => get_user s id) ;;
    match user with
    | None => ret toggle_not_found
    | Some user =>
        if String.eqb (User.role current_user) ROLE_SUPERVISOR
           && negb (String.eqb (User.role user) ROLE_NADADOR)
        then ret toggle_only_swimmers
        else if User.id user =? User.id current_user then
          ret toggle_own_account
        else
          let new_status := negb (User.is_active user) in
          let reason :=
            if negb new_status
            then string_of_list_ascii
                   (strip (list_ascii_of_string suspension_reason))
            else "" in
          if negb new_status && String.eqb reason "" then
            ret toggle_reason_required
          else
            try_except
              (modify (with_users
                 (update_first (fun u => User.id u =? id)
                               (fun u => User.set_is_active u new_status))) ;;;
               commit ;;;
               query (fun s => get_user s id) ;;;
               let status_text :=
                 if negb new_status
                 then String.append "suspenso - Razão: " reason
                 else "reativado" in
               let details :=
                 if negb new_status
                 then [("user_id", VInt (User.id user));
                       ("is_active", VBool false);
                       ("suspension_reason", VStr reason)]
                 else [("user_id", VInt (User.id user));
                       ("is_active", VBool true)] in
               guarded
                 (log_activity env (User.id current_user) "toggle_user_status"
                    (String.append status_text
                       (String.append " utilizador #"
                          (py_str_int (User.id user))))
                    (Some details) None false) ;;;
               ret toggle_done)
              (rollback ;;; ret toggle_failed)
    end.

(** ** app.py: listings *)

(** A date of the query string after [datetime.strptime(_, '%Y-%m-%d')]:
    absent or empty, rejected with [ValueError], or midnight of the day. *)
Inductive DateArg : Type :=
| date_absent
| date_invalid
| date_at (midnight : Z).

(** The query string of a listing. [arg_search] is the non-empty search
    text, as the test its pattern [%text%] makes under ILIKE. *)
Record ListingArgs : Type := mkListingArgs {
  arg_start_date : DateArg;
  arg_end_date : DateArg;
  arg_zone : option string;
  arg_type : option string;
  arg_user_id : option Z;
  arg_search : option (string -> bool)
}.

(** [if user_id:] on the integer of the query string. *)
Definition given_id (user_id : option Z) : option Z :=
  match user_id with
  | Some z => if z =? 0 then None else Some z
  | None => None
  end.

(** [if text:] on a string of the query string. *)
Definition given_text (text : option string) : option string :=
  match text with
  | Some t => if String.eqb t "" then None else Some t
  | None => None
  end.

(** [User.role == ROLE_NADADOR, User.id != HIDDEN_USER_ID] *)
Definition is_listed_nadador (u : User.t) : bool :=
  String.eqb (User.role u) ROLE_NADADOR && negb (User.id u =? HIDDEN_USER_ID).

(** The permission block of a listing: access denied, or the filter put on
    the occurrences and the users offered for selection. *)
Inductive Scope : Type :=
| scope_denied
| scope_overflow   (* OverflowError out of the lookup of the target *)
| scope_of (query : Occurrence.t -> bool) (all_users : option (list User.t)).

(** The permission block of [ocorrencias()]. *)
Definition ocorrencias_scope (s : Store) (current_user : User.t)
    (user_id : option Z) : Scope :=
  if String.eqb (User.role current_user) ROLE_NADADOR then
    scope_of (fun o => Occurrence.user_id o =? User.id current_user) None
  else if String.eqb (User.role current_user) ROLE_SUPERVISOR then
    let all_users := Some (filter is_listed_nadador (user_rows s)) in
    match given_id user_id with
    | Some uid =>
        match query_get_user s uid with
        | Raised => scope_overflow
        | Ok None => scope_denied
        | Ok (Some target) =>
            if negb (String.eqb (User.role target) ROLE_NADADOR)
            then scope_denied
            else scope_of (fun o => Occurrence.user_id o =? uid) all_users
        end
    | None =>
        let nadador_ids :=
          map User.id (filter is_listed_nadador (user_rows s)) in
        let nadador_ids_plus_self := nadador_ids ++ [User.id current_user] in
        scope_of (fun o => mem_Z (Occurrence.user_id o) nadador_ids_plus_self)
                 all_users
    end
  else
    let query :=
      match given_id user_id with
      | Some uid => fun o => Occurrence.user_id o =? uid
      | None => fun _ => true
      end in
    if User.id current_user =? HIDDEN_USER_ID then
      scope_of query
        (Some (filter (fun u => negb (User.id u =? User.id current_user))
                      (user_rows s)))
    else
      scope_of query
        (Some (filter (fun u => negb (User.id u =? User.id current_user)
                                && negb (User.id u =? HIDDEN_USER_ID))
                      (user_rows s))).

(** The date filters; [None] when a date is rejected. The end date covers
    its whole day ([replace(hour=23, minute=59, second=59)]). *)
Definition date_filter (args : ListingArgs) : option (Occurrence.t -> bool) :=
  match arg_start_date args, arg_end_date args with
  | date_invalid, _ => None
  | _, date_invalid => None
  | start_date, end_date =>
      Some (fun o =>
        match start_date with
        | date_at start_dt => start_dt <=? Occurrence.date o
        | _ => true
        end
        && match end_date with
           | date_at end_dt => Occurrence.date o <=? end_dt + 86399
           | _ => true
           end)
  end.

Definition zone_filter (args : ListingArgs) (o : Occurrence.t) : bool :=
  match given_text (arg_zone args) with
  | Some zone => String.eqb (Occurrence.zone o) zone
  | None => true
  end.

Definition type_filter (args : ListingArgs) (o : Occurrence.t) : bool :=
  match given_text (arg_type args) with
  | Some type => String.eqb (Occurrence.type o) type
  | None => true
  end.

(** The search by name or NIF: occurrences of the matching users, none
    when no user matches. *)
Definition search_filter (s : Store) (args : ListingArgs) (o : Occurrence.t)
  : bool :=
  match arg_search args with
  | Some ilike =>
      let matching_users :=
        filter (fun u => ilike (User.name u)
                         || match User.tax_number u with
                            | Some nif => ilike nif
                            | None => false
                            end)
               (user_rows s) in
      match matching_users with
      | [] => Occurrence.id o =? -1
      | _ => mem_Z (Occurrence.user_id o) (map User.id matching_users)
      end
  | None => true
  end.

(** [order_by(Occurrence.date.desc())] *)
Fixpoint insert_by_date (o : Occurrence.t) (sorted : list Occurrence.t)
  : list Occurrence.t :=
  match sorted with
  | [] => [o]
  | x :: rest =>
      if Occurrence.date x <? Occurrence.date o then o :: sorted
      else x :: insert_by_date o rest
  end.

Definition order_by_date_desc (rows : list Occurrence.t) : list Occurrence.t :=
  fold_right insert_by_date [] rows.

Inductive ListingResult : Type :=
| listing_access_denied   (* 'Acesso negado ao utilizador solicitado' *)
| listing_invalid_date    (* 'Formato de data inválido. Use YYYY-MM-DD.' *)
| listing_overflow        (* OverflowError out of the route *)
| listing_render (ocorrencias : list Occurrence.t)
                 (all_users : option (list User.t)).

(** Whether the statement that reads the occurrences can run: it binds
    the target named in the query string, unless the acting user is a
    swimmer, and runs at [.all()], after the dates have been parsed. *)
Definition statement_binds (current_user : User.t) (user_id : option Z)
  : bool :=
  if String.eqb (User.role current_user) ROLE_NADADOR then true
  else
    match given_id user_id with
    | Some uid => sqlite_integer uid
    | None => true
    end.

(** [ocorrencias()] *)
Definition ocorrencias (s : Store) (current_user : User.t) (args : ListingArgs)
  : ListingResult :=
  match ocorrencias_scope s current_user (arg_user_id args) with
  | scope_denied => listing_access_denied
  | scope_overflow => listing_overflow
  | scope_of query all_users =>
      match date_filter args with
      | None => listing_invalid_date
      | Some dates =>
          if statement_binds current_user (arg_user_id args) then
            listing_render
              (order_by_date_desc
                 (filter (fun o => query o && dates o && zone_filter args o
                                   && type_filter args o
                                   && search_filter s args o)
                         (occurrence_rows s)))
              all_users
          else listing_overflow
      end
  end.

(** The permission block of [export_csv()]. *)
Definition export_scope (s : Store) (current_user : User.t)
    (user_id : option Z) : Scope :=
  if String.eqb (User.role current_user) ROLE_NADADOR then
    scope_of (fun o => Occurrence.user_id o =? User.id current_user) None
  else if String.eqb (User.role current_user) ROLE_SUPERVISOR then
    match given_id user_id with
    | Some uid =>
        match query_get_user s uid with
        | Raised => scope_overflow
        | Ok None => scope_denied
        | Ok (Some target) =>
            if negb (String.eqb (User.role target) ROLE_NADADOR)
            then scope_denied
            else scope_of (fun o => Occurrence.user_id o =? uid) None
        end
    | None =>
        let nadador_ids :=
          map User.id (filter is_listed_nadador (user_rows s)) in
        let nadador_ids_plus_self := nadador_ids ++ [User.id current_user] in
        scope_of (fun o => mem_Z (Occurrence.user_id o) nadador_ids_plus_self)
                 None
    end
  else
    match given_id user_id with
    | Some uid => scope_of (fun o => Occurrence.user_id o =? uid) None
    | None => scope_of (fun _ => true) None
    end.

(** [export_csv()], up to the rows handed to the CSV writer. *)
Definition export_csv (s : Store) (current_user : User.t) (args : ListingArgs)
  : ListingResult :=
  match export_scope s current_user (arg_user_id args) with
  | scope_denied => listing_access_denied
  | scope_overflow => listing_overflow
  | scope_of query all_users =>
      match date_filter args with
      | None => listing_invalid_date
      | Some dates =>
          if statement_binds current_user (arg_user_id args) then
            listing_render
              (order_by_date_desc
                 (filter (fun o => query o && dates o && zone_filter args o
                                   && type_filter args o)
                         (occurrence_rows s)))
              all_users
          else listing_overflow
      end
  end.

Inductive UsersResult : Type :=
| users_access_denied
| users_render (users : list User.t).

(** [users()] *)
Definition users (s : Store) (current_user : User.t) : UsersResult :=
  if String.eqb (User.role current_user) ROLE_NADADOR then users_access_denied
  else if String.eqb (User.role current_user) ROLE_SUPERVISOR then
    users_render (filter is_listed_nadador (user_rows s))
  else if User.id current_user =? HIDDEN_USER_ID then
    users_render
      (filter (fun u => negb (User.id u =? User.id current_user)) (user_rows s))
  else
    users_render
      (filter (fun u => negb (User.id u =? User.id current_user)
                        && negb (User.id u =? HIDDEN_USER_ID))
              (user_rows s)).

(** The users [activities()] offers for selection. *)
Definition activities_all_users (s : Store) (current_user : User.t)
  : option (list User.t) :=
  if String.eqb (User.role current_user) ROLE_PRESIDENTE then
    if User.id current_user =? HIDDEN_USER_ID then
      Some (filter (fun u => negb (User.id u =? User.id current_user))
                   (user_rows s))
    else
      Some (filter (fun u => negb (User.id u =? User.id current_user)
                             && negb (User.id u =? HIDDEN_USER_ID))
                   (user_rows s))
  else None.

(** ** Requests over time *)

(** The requests of the application that write to the store. *)
Inductive Request : Type :=
| req_forgot_password (user : User.t) (secret : string)
| req_reset_password (is_authenticated : bool) (token : string)
                     (form : option string)
| req_login (email password user_agent : string)
| req_nova_ocorrencia (catalogue : Catalogue) (current_user : User.t)
                      (form : OccurrenceForm)
| req_mark_notification_read (current_user : User.t) (id : Z)
| req_toggle_user_status (current_user : User.t) (id : Z)
                         (suspension_reason : string)
| req_log_activity (user_id : Z) (action description : string)
                   (details : option Details) (ip : option string)
                   (notify_supervisors : bool).

Definition forget (A : Type) (m : M A) : M unit :=
  m ;;; ret tt.

Definition handle (env : Env) (r : Request) : M unit :=
  match r with
  | req_forgot_password user secret =>
      forget (generate_reset_token env user 1 secret)
  | req_reset_password is_authenticated token form =>
      forget (reset_password env is_authenticated token form)
  | req_login email password user_agent =>
      forget (login env email password user_agent)
  | req_nova_ocorrencia catalogue current_user form =>
      forget (nova_ocorrencia env catalogue current_user form)
  | req_mark_notification_read current_user id =>
      forget (mark_notification_read env current_user id)
  | req_toggle_user_status current_user id suspension_reason =>
      forget (toggle_user_status env current_user id suspension_reason)
  | req_log_activity user_id action description details ip notify =>
      log_activity env user_id action description details ip notify
  end.

(** A request starts on a fresh session over the committed store, at its
    own instant and with its own storage faults; what it leaves
    uncommitted is dropped when it ends. *)
Definition serve (w : World) (job : Env * list bool * Request) : World :=
  let '(env, fs, r) := job in
  let w0 := mkWorld (committed w) (committed w) fs in
  let w1 := snd (handle env r w0) in
  mkWorld (committed w1) (committed w1) [].

Definition serve_all (w : World) (jobs : list (Env * list bool * Request))
  : World :=
  fold_left serve jobs w.

(** ** Redemption attempts that overlap *)

(** Where a redemption attempt stands: [reset_password] reads the token
    ([verify_reset_token]) and, in a later statement, writes it
    ([mark_token_used]); another request may run between the two. *)
Inductive Attempt : Type :=
| attempt_start
| attempt_verified (user : User.t)
| attempt_done (result : ResetPasswordResult).

Definition attempt_step (env : Env) (token password : string) (a : Attempt)
  : M Attempt :=
  match a with
  | attempt_start =>
      user <- query (fun s => verify_reset_token env s token) ;;
      match user with
      | None => ret (attempt_done reset_redirect_forgot_password)
      | Some user => ret (attempt_verified user)
      end
  | attempt_verified user =>
      result <- reset_password_submit env token user password ;;
      ret (attempt_done result)
  | attempt_done result => ret (attempt_done result)
  end.

(** The attempt at position [i] takes its next step. *)
Fixpoint step_nth (env : Env) (token password : string) (i : nat)
    (pool : list Attempt) : M (list Attempt) :=
  match pool, i with
  | [], _ => ret []
  | a :: rest, O =>
      a' <- attempt_step env token password a ;;
      ret (a' :: rest)
  | a :: rest, S j =>
      rest' <- step_nth env token password j rest ;;
      ret (a :: rest')
  end.

(** The attempts step in the order the schedule names them. *)
Fixpoint run_schedule (env : Env) (token password : string)
    (schedule : list nat) (pool : list Attempt) : M (list Attempt) :=
  match schedule with
  | [] => ret pool
  | i :: later =>
      pool' <- step_nth env token password i pool ;;
      run_schedule env token password later pool'
  end.

(** One attempt after the other: 0, 0, 1, 1, ... *)
Definition serial_schedule (n : nat) : list nat :=
  flat_map (fun i => [i; i]) (seq 0 n).

(** All reads before any write: 0, 1, ..., n-1, 0, 1, ..., n-1. *)
Definition overlapped_schedule (n : nat) : list nat :=
  seq 0 n ++ seq 0 n.

Definition succeeded (a : Attempt) : bool :=
  match a with
  | attempt_done reset_redirect_login => true
  | _ => false
  end.

Definition was_invalid (a : Attempt) : bool :=
  match a with
  | attempt_done reset_redirect_forgot_password => true
  | _ => false
  end.

(** ** Vocabulary of the properties *)

(** A store property that holds of the committed store and of the session. *)
Definition both (P : Store -> Prop) (w : World) : Prop :=
  P (committed w) /\ P (session w).

(** The computation keeps [P] on both, whatever it returns or raises. *)
Definition preserves (P : Store -> Prop) (A : Type) (m : M A) : Prop :=
  forall w r w', both P w -> m w = (r, w') -> both P w'.

(** The row that queries by [secret] return has its [used] flag set. *)
Definition token_used (secret : string) (s : Store) : Prop :=
  exists r, first_reset_token s secret = Some r
            /\ PasswordResetToken.used r = true.

(** Running the storage primitives on an explicit world. *)
Ltac run_quiet :=
  cbv beta iota delta
    [bind ret raise try_except query modify session_add commit rollback
     fault_point guarded forget with_session faults session committed].

(** Of [n] attempts started together on one secret and stepped in the order
    of [schedule], one redeems the token and the others are turned away. *)
Definition one_redemption_wins (env : Env) (s : Store)
    (secret password : string) (n : nat) (schedule : list nat) : Prop :=
  exists pool w',
    run_schedule env secret password schedule (repeat attempt_start n)
      (mkWorld s s []) = (Ok pool, w')
    /\ List.length (filter succeeded pool) = 1%nat
    /\ List.length (filter was_invalid pool) = (n - 1)%nat.

Definition ana : User.t :=
  User.mk 1 "Ana" "ana@example.org" None (HashOf "antiga") ROLE_NADADOR true.

Definition one_token_store : Store :=
  mkStore [ana] [] [] []
    [PasswordResetToken.mk 1 1 "s3gredo" 0 3600 false None].

Definition at_100 : Env := mkEnv 100 None.

(** The stores hold the same users, occurrences and reset tokens: the
    primary records, as opposed to the audit trail and the notifications. *)
Definition same_records (s0 s : Store) : Prop :=
  user_rows s = user_rows s0
  /\ occurrence_rows s = occurrence_rows s0
  /\ reset_token_rows s = reset_token_rows s0.

(** The notifications table after one notification per recipient, in
    order, has been inserted. *)
Fixpoint notify_all (env : Env) (title message : string) (link : Link)
    (recipients : list User.t) (rows : list Notification.t)
  : list Notification.t :=
  match recipients with
  | [] => rows
  | u :: rest =>
      notify_all env title message link rest
        (rows ++ [Notification.mk (next_id Notification.id rows) (User.id u)
                    title message "info" (now env) false (Some link)])
  end.

(** The audit entry [log_activity] appends. *)
Definition activity_logged (env : Env) (user_id : Z)
    (action description : string) (ip : option string)
    (details : option Details) (s : Store) : Store :=
  with_activity_logs (fun rows => rows ++
    [ActivityLog.mk (next_id ActivityLog.id rows) user_id action description
       (str_or ip (remote_addr env)) (now env)
       (if details_truthy details then details else None)]) s.

(** The audience the fan-out is claimed to have: supervisors and
    presidents, without the hidden user and without the acting user. *)
Definition audience_without_actor (s : Store) (actor : Z) : list Z :=
  map User.id
    (filter (fun u => is_notified u && negb (User.id u =? actor)) (user_rows s)).

(** The rows a table gained. *)
Definition gained (A : Type) (before after : list A) : list A :=
  skipn (List.length before) after.

Definition rui : User.t :=
  User.mk 2 "Rui" "rui@example.org" None (HashOf "x") ROLE_SUPERVISOR true.

Definition eva : User.t :=
  User.mk 3 "Eva" "eva@example.org" None (HashOf "y") ROLE_PRESIDENTE true.

Definition staffed_store : Store :=
  mkStore [ana; rui; eva] [] [] [] [].

Definition two_user_store : Store :=
  mkStore [ana; rui] [] [] [] [].

Definition ze : User.t :=
  User.mk 12 "Zé" "ze@example.org" None (HashOf "z") ROLE_NADADOR true.

(** A supervisor account that is the hidden user. *)
Definition hidden_supervisor : User.t :=
  User.mk 12 "Zé" "ze@example.org" None (HashOf "z") ROLE_SUPERVISOR true.

Definition occ_of_ana : Occurrence.t :=
  Occurrence.mk 1 10 "Reconquinho" "Resgate" None 1.

Definition occ_of_ze : Occurrence.t :=
  Occurrence.mk 2 20 "Vimieiro" "Primeiros socorros" None 12.

Definition occ_of_rui : Occurrence.t :=
  Occurrence.mk 3 30 "Reconquinho" "Aviso" None 2.

Definition river_store : Store :=
  mkStore [ana; rui; eva; ze] [occ_of_ana; occ_of_ze; occ_of_rui] [] [] [].

Definition no_args : ListingArgs :=
  mkListingArgs date_absent date_absent None None None None.

Definition args_for (user_id : Z) : ListingArgs :=
  mkListingArgs date_absent date_absent None None (Some user_id) None.

(** The filters of the query string that narrow a listing, dates apart. *)
Definition narrowing (s : Store) (args : ListingArgs) (o : Occurrence.t) : bool :=
  zone_filter args o && type_filter args o && search_filter s args o.

Definition unread_for_rui : Notification.t :=
  Notification.mk 1 2 "Nova Ocorrência Registada"
    "Ana registou uma nova ocorrência." "info" 90 false
    (Some (url_view_occurrence 1)).

Definition inbox_store : Store :=
  mkStore [ana; rui; eva] [] [unread_for_rui] [] [].

(** ** app.py: viewing and deleting an occurrence *)

(** [Occurrence.query.get(id)] *)
Definition get_occurrence (s : Store) (id : Z) : option Occurrence.t :=
  find (fun o => Occurrence.id o =? id) (occurrence_rows s).

Inductive ViewOccurrenceResult : Type :=
| view_occ_not_found            (* 404 *)
| view_occ_access_denied        (* 'Acesso negado' *)
| view_occ_render (ocorrencia : Occurrence.t).

(** [view_occurrence(id)] *)
Definition view_occurrence (s : Store) (current_user : User.t) (id : Z)
  : ViewOccurrenceResult :=
  match get_occurrence s id with
  | None => view_occ_not_found
  | Some occ =>
      if String.eqb (User.role current_user) ROLE_NADADOR
         && negb (Occurrence.user_id occ =? User.id current_user)
      then view_occ_access_denied
      else view_occ_render occ
  end.

(** [db.session.delete(row)] takes out the row the query returned. *)
Fixpoint remove_first (A : Type) (p : A -> bool) (rows : list A) : list A :=
  match rows with
  | [] => []
  | r :: rest => if p r then rest else r :: remove_first p rest
  end.

Inductive DeleteOccurrenceResult : Type :=
| delete_occ_not_found          (* 404 *)
| delete_occ_access_denied      (* 'Acesso negado' *)
| delete_occ_done               (* 'Ocorrência removida com sucesso' *)
| delete_occ_failed.            (* 'Erro ao remover ocorrência' *)

(** [delete_occurrence(id)] *)
Definition delete_occurrence (env : Env) (current_user : User.t) (id : Z)
  : M DeleteOccurrenceResult :=
  occ <- query (fun s => get_occurrence s id) ;;
  match occ with
  | None => ret delete_occ_not_found
  | Some occ =>
      if String.eqb (User.role current_user) ROLE_NADADOR
         && negb (Occurrence.user_id occ =? User.id current_user)
      then ret delete_occ_access_denied
      else
        try_except
          (let occ_info :=
             [("occurrence_id", VInt (Occurrence.id occ));
              ("zone", VStr (Occurrence.zone occ));
              ("type", VStr (Occurrence.type occ))] in
           session_add (with_occurrences
             (remove_first (fun o => Occurrence.id o =? id))) ;;;
           commit ;;;
           guarded
             (log_activity env (User.id current_user) "delete_occurrence"
                (String.append "Eliminou ocorrência #"
                   (py_str (dict_get occ_info "occurrence_id" VNone)))
                (Some occ_info) None false) ;;;
           ret delete_occ_done)
          (rollback ;;; ret delete_occ_failed)
  end.

(** ** app.py: managing users *)

Inductive ViewUserResult : Type :=
| view_user_not_found           (* 404 *)
| view_user_access_denied       (* 'Acesso negado' *)
| view_user_render (user : User.t).

(** [view_user(id)] *)
Definition view_user (s : Store) (current_user : User.t) (id : Z)
  : ViewUserResult :=
  match get_user s id with
  | None => view_user_not_found
  | Some user =>
      if String.eqb (User.role current_user) ROLE_NADADOR
         && negb (User.id user =? User.id current_user)
      then view_user_access_denied
      else if String.eqb (User.role current_user) ROLE_SUPERVISOR
              && negb (String.eqb (User.role user) ROLE_NADADOR)
      then view_user_access_denied
      else view_user_render user
  end.

(** The validated [RegisterForm]; an empty [reg_tax_number] or
    [reg_password] is a field left blank. *)
Record RegisterForm : Type := mkRegisterForm {
  reg_name : string;
  reg_email : string;
  reg_tax_number : string;
  reg_password : string;
  reg_role : string
}.

(** [form.tax_number.data if form.tax_number.data else None] *)
Definition tax_number_of (form : RegisterForm) : option string :=
  if String.eqb (reg_tax_number form) "" then None
  else Some (reg_tax_number form).

(** [User.tax_number == value], false on a NULL column. *)
Definition has_tax_number (value : string) (u : User.t) : bool :=
  match User.tax_number u with
  | Some t => String.eqb t value
  | None => false
  end.

Inductive NewUserResult : Type :=
| new_user_access_denied        (* swimmer: 'Acesso negado' *)
| new_user_email_taken          (* 'Este email já está em uso' *)
| new_user_tax_taken            (* 'Este número de contribuinte já está em uso' *)
| new_user_only_swimmers        (* 'Supervisores só podem criar nadadores' *)
| new_user_invalid_role         (* 'Função inválida selecionada' *)
| new_user_created              (* 'Usuário criado com sucesso!' *)
| new_user_failed.              (* 'Erro ao criar usuário' *)

(** The checks of [new_user] that follow the email check, and the insert.
    [password_hash] is not nullable: without a password the INSERT of the
    commit raises. *)
Definition new_user_insert (env : Env) (current_user : User.t)
    (form : RegisterForm) : M NewUserResult :=
  if String.eqb (User.role current_user) ROLE_SUPERVISOR
     && negb (String.eqb (reg_role form) ROLE_NADADOR)
  then ret new_user_only_swimmers
  else if negb (mem_string (reg_role form)
                  [ROLE_NADADOR; ROLE_SUPERVISOR; ROLE_PRESIDENTE])
  then ret new_user_invalid_role
  else
    user_id <- (fun w => (Ok (next_id User.id (user_rows (session w))), w)) ;;
    session_add (with_users (fun rows => rows ++
      [User.mk user_id (reg_name form) (reg_email form) (tax_number_of form)
         (generate_password_hash (reg_password form)) (reg_role form) true])) ;;;
    (if String.eqb (reg_password form) "" then raise unit else commit) ;;;
    guarded
      (log_activity env (User.id current_user) "create_user"
         (String.append "Criou usuário #" (py_str_int user_id))
         (Some [("user_id", VInt user_id);
                ("email", VStr (reg_email form));
                ("role", VStr (reg_role form))])
         None false) ;;;
    ret new_user_created.

(** [new_user()], the POST of a validated form. *)
Definition new_user (env : Env) (current_user : User.t) (form : RegisterForm)
  : M NewUserResult :=
  if String.eqb (User.role current_user) ROLE_NADADOR
  then ret new_user_access_denied
  else
    try_except
      (existing_user <- query (fun s =>
         find (fun u => String.eqb (User.email u) (reg_email form))
              (user_rows s)) ;;
       match existing_user with
       | Some _ => ret new_user_email_taken
       | None =>
           if negb (String.eqb (reg_tax_number form) "") then
             existing_tax <- query (fun s =>
               find (has_tax_number (reg_tax_number form)) (user_rows s)) ;;
             match existing_tax with
             | Some _ => ret new_user_tax_taken
             | None => new_user_insert env current_user form
             end
           else new_user_insert env current_user form
       end)
      (rollback ;;; ret new_user_failed).

Inductive EditUserResult : Type :=
| edit_user_access_denied       (* 'Acesso negado' *)
| edit_user_not_found           (* 404 *)
| edit_user_email_taken         (* 'Este email já está em uso por outro usuário' *)
| edit_user_tax_taken
| edit_user_invalid_role        (* 'Função inválida selecionada' *)
| edit_user_saved               (* 'Usuário atualizado com sucesso!' *)
| edit_user_failed.             (* 'Erro ao atualizar usuário' *)

(** The assignments of [edit_user] to the loaded user. *)
Definition edited_user (current_user user : User.t) (form : RegisterForm)
  : User.t :=
  let role :=
    if (User.id user =? User.id current_user)
       && String.eqb (User.role user) ROLE_PRESIDENTE
    then ROLE_PRESIDENTE
    else reg_role form in
  let updated :=
    User.mk (User.id user) (reg_name form) (reg_email form)
      (tax_number_of form) (User.password_hash user) role
      (User.is_active user) in
  if negb (String.eqb (reg_password form) "")
  then User.set_password updated (reg_password form)
  else updated.

(** The checks of [edit_user] that follow the email check, and the update. *)
Definition edit_user_update (env : Env) (current_user user : User.t) (id : Z)
    (form : RegisterForm) : M EditUserResult :=
  if negb (mem_string (reg_role form)
             [ROLE_NADADOR; ROLE_SUPERVISOR; ROLE_PRESIDENTE])
  then ret edit_user_invalid_role
  else
    let updated := edited_user current_user user form in
    modify (with_users
      (update_first (fun u => User.id u =? id) (fun _ => updated))) ;;;
    commit ;;;
    guarded
      (log_activity env (User.id current_user) "edit_user"
         (String.append "Editou usuário #" (py_str_int (User.id updated)))
         (Some [("user_id", VInt (User.id updated));
                ("email", VStr (User.email updated));
                ("role", VStr (User.role updated))])
         None false) ;;;
    ret edit_user_saved.

(** [edit_user(id)], the POST of a validated form. *)
Definition edit_user (env : Env) (current_user : User.t) (id : Z)
    (form : RegisterForm) : M EditUserResult :=
  if negb (String.eqb (User.role current_user) ROLE_PRESIDENTE)
  then ret edit_user_access_denied
  else
    user <- query (fun s => get_user s id) ;;
    match user with
    | None => ret edit_user_not_found
    | Some user =>
        try_except
          (existing_user <- query (fun s =>
             find (fun u => String.eqb (User.email u) (reg_email form)
                            && negb (User.id u =? id))
                  (user_rows s)) ;;
           match existing_user with
           | Some _ => ret edit_user_email_taken
           | None =>
               if negb (String.eqb (reg_tax_number form) "") then
                 existing_tax <- query (fun s =>
                   find (fun u => has_tax_number (reg_tax_number form) u
                                  && negb (User.id u =? id))
                        (user_rows s)) ;;
                 match existing_tax with
                 | Some _ => ret edit_user_tax_taken
                 | None => edit_user_update env current_user user id form
                 end
               else edit_user_update env current_user user id form
           end)
          (rollback ;;; ret edit_user_failed)
    end.

(** ** app.py: changing the password *)

Inductive ChangePasswordResult : Type :=
| change_password_wrong_current  (* 'Palavra-passe atual incorreta' *)
| change_password_done           (* 'Palavra-passe alterada com sucesso!' *)
| change_password_failed.        (* 'Erro ao alterar a palavra-passe' *)

(** [change_password()], the POST of a validated form. *)
Definition change_password (env : Env) (current_user : User.t)
    (current_password new_password : string) : M ChangePasswordResult :=
  try_except
    (if negb (User.check_password current_user current_password)
     then ret change_password_wrong_current
     else
       modify (with_users
         (update_first (fun u => User.id u =? User.id current_user)
                       (fun u => User.set_password u new_password))) ;;;
       commit ;;;
       session_add (with_activity_logs (fun rows => rows ++
         [ActivityLog.mk (next_id ActivityLog.id rows) (User.id current_user)
            "change_password" "Palavra-passe alterada com sucesso"
            (remote_addr env) (now env) None])) ;;;
       commit ;;;
       ret change_password_done)
    (rollback ;;; ret change_password_failed).

(** ** app.py: notifications and activities of a user *)

(** [Notification.query.filter_by(user_id=..., read=False).count()] *)
Definition unread_count (s : Store) (user_id : Z) : nat :=
  List.length
    (filter (fun n => (Notification.user_id n =? user_id)
                      && negb (Notification.read n))
            (notification_rows s)).

(** [inject_unread_notification_count()]; [current_user] is [None] when
    nobody is authenticated. *)
Definition inject_unread_notification_count (current_user : option User.t)
  : M nat :=
  try_except
    (match current_user with
     | Some u => query (fun s => unread_count s (User.id u))
     | None => ret 0%nat
     end)
    (ret 0%nat).

(** [order_by(ActivityLog.created_at.desc())] *)
Fixpoint insert_by_created (a : ActivityLog.t) (sorted : list ActivityLog.t)
  : list ActivityLog.t :=
  match sorted with
  | [] => [a]
  | x :: rest =>
      if ActivityLog.created_at x <? ActivityLog.created_at a then a :: sorted
      else x :: insert_by_created a rest
  end.

Definition order_by_created_desc (rows : list ActivityLog.t)
  : list ActivityLog.t :=
  fold_right insert_by_created [] rows.

Inductive ActivitiesResult : Type :=
| activities_access_denied  (* 'Acesso negado às atividades desse usuário' *)
| activities_render (activities : list ActivityLog.t)
                    (all_users : option (list User.t))
                    (target_user_id : Z).

(** [activities()] *)
Definition activities (s : Store) (current_user : User.t) (user_id : option Z)
  : ActivitiesResult :=
  let target_user_id :=
    match given_id user_id with
    | Some z => z
    | None => User.id current_user
    end in
  if negb (target_user_id =? User.id current_user)
     && negb (String.eqb (User.role current_user) ROLE_PRESIDENTE)
  then activities_access_denied
  else
    activities_render
      (firstn 50
         (order_by_created_desc
            (filter (fun a => ActivityLog.user_id a =? target_user_id)
                    (activity_log_rows s))))
      (activities_all_users s current_user)
      target_user_id.

(** ** app.py: the months of the dashboard *)

(** [while mo <= 0: y -= 1; mo += 12], with enough turns for the loop to
    end: one for every twelve months below 1. *)
Fixpoint wrap_month_turns (turns : nat) (y mo : Z) : Z * Z :=
  match turns with
  | O => (y, mo)
  | S turns' =>
      if mo <=? 0 then wrap_month_turns turns' (y - 1) (mo + 12) else (y, mo)
  end.

Definition wrap_month (y mo : Z) : Z * Z :=
  wrap_month_turns (Z.to_nat (1 - mo)) y mo.

(** [range(11, -1, -1)] *)
Definition months_back : list Z := [11; 10; 9; 8; 7; 6; 5; 4; 3; 2; 1; 0].

(** The list [months] of [dashboard_stats()] for the year and month of
    [now]. *)
Definition dashboard_months (year month : Z) : list (Z * Z) :=
  map (fun i => wrap_month year (month - i)) months_back.

(** A run that returns under storage faults is the run without faults. *)
Definition fault_blind (A : Type) (m : M A) : Prop :=
  forall w a w',
    m w = (Ok a, w') ->
    m (mkWorld (committed w) (session w) []) =
      (Ok a, mkWorld (committed w') (session w') []).

(** The computation leaves the committed store alone. *)
Definition uncommitted (A : Type) (m : M A) : Prop :=
  forall w r w', m w = (r, w') -> committed w' = committed w.

(** ** app.py: the notification page and the activity API *)

(** [order_by(Notification.created_at.desc())] *)
Fixpoint insert_by_notified (n : Notification.t) (sorted : list Notification.t)
  : list Notification.t :=
  match sorted with
  | [] => [n]
  | x :: rest =>
      if Notification.created_at x <? Notification.created_at n then n :: sorted
      else x :: insert_by_notified n rest
  end.

Definition order_by_notified_desc (rows : list Notification.t)
  : list Notification.t :=
  fold_right insert_by_notified [] rows.

(** [notifications()]: the rows handed to the template. *)
Definition notifications (s : Store) (current_user : User.t)
  : list Notification.t :=
  order_by_notified_desc
    (filter (fun n => Notification.user_id n =? User.id current_user)
            (notification_rows s)).

Inductive UserActivitiesResult : Type :=
| user_activities_forbidden   (* 403, 'Não autorizado' *)
| user_activities_json (activities : list ActivityLog.t).

(** [get_user_activities(user_id)], up to the rows that are serialised. *)
Definition get_user_activities (s : Store) (current_user : User.t)
    (user_id : Z) : UserActivitiesResult :=
  if negb (String.eqb (User.role current_user) ROLE_PRESIDENTE)
     && negb (user_id =? User.id current_user)
  then user_activities_forbidden
  else
    user_activities_json
      (order_by_created_desc
         (filter (fun a => ActivityLog.user_id a =? user_id)
                 (activity_log_rows s))).

(** [n'] is the notification [n] marked as read: the flag is set and
    every other column is as it was. *)
Definition read_version (n n' : Notification.t) : Prop :=
  Notification.read n' = true
  /\ Notification.id n' = Notification.id n
  /\ Notification.user_id n' = Notification.user_id n
  /\ Notification.title n' = Notification.title n
  /\ Notification.message n' = Notification.message n
  /\ Notification.type n' = Notification.type n
  /\ Notification.created_at n' = Notification.created_at n
  /\ Notification.link n' = Notification.link n.

Unset Implicit Arguments.

(** * Properties *)

(** ** The embedding on sample inputs *)

Example py_int_samples :
  py_int "12" = Some 12 /\ py_int " -1_000 " = Some (-1000)
  /\ py_int "+7" = Some 7 /\ py_int "" = None /\ py_int "12a" = None
  /\ py_int "1__0" = None /\ py_int "_1" = None /\ py_int "1_" = None.
Proof. repeat split. Qed.

Example notification_link_samples :
  notification_link "create_occurrence" (Some [("occurrence_id", VInt 5)]) =
    url_view_occurrence 5
  /\ notification_link "edit_occurrence" (Some [("occurrence_id", VInt 0)]) =
       url_activities
  /\ notification_link "delete_occurrence" (Some [("occurrence_id", VInt 5)]) =
       url_ocorrencias
  /\ notification_link "toggle_user_status"
       (Some [("user_id", VInt 7); ("is_active", VBool false)]) = url_view_user 7
  /\ notification_link "create_occurrence" (Some [("occurrence_id", VStr "abc")]) =
       url_activities
  /\ notification_link "login" (Some [("user_agent", VStr "Firefox")]) =
       url_activities.
Proof. repeat split. Qed.

Example supervisor_listing_sample :
  ocorrencias river_store rui no_args =
    listing_render [occ_of_rui; occ_of_ana] (Some [ana])
  /\ ocorrencias river_store rui (args_for 3) = listing_access_denied
  /\ users river_store eva = users_render [ana; rui]
  /\ users river_store ana = users_access_denied.
Proof. repeat split. Qed.

(** A fault at the first insert of the fan-out: the recorder rolls back
    and returns. *)
Example log_activity_fault_sample :
  log_activity at_100 1 "create_occurrence" "Criou" None None true
    (mkWorld staffed_store staffed_store [false; false; false; true]) =
  (Ok tt, mkWorld staffed_store staffed_store []).
Proof. reflexivity. Qed.

(** A secret that is already stored violates the unique column. *)
Example generate_reset_token_duplicate_sample :
  fst (generate_reset_token at_100 ana 1 "s3gredo"
         (mkWorld one_token_store one_token_store [])) = Raised
  /\ fst (generate_reset_token at_100 ana 1 "outro"
            (mkWorld one_token_store one_token_store [])) = Ok "outro".
Proof. split; reflexivity. Qed.

Example mark_notification_read_samples :
  fst (mark_notification_read at_100 rui 7 (mkWorld inbox_store inbox_store [])) =
    Ok mark_not_found
  /\ fst (mark_notification_read at_100 eva 1 (mkWorld inbox_store inbox_store [])) =
       Ok mark_forbidden
  /\ fst (mark_notification_read at_100 rui 1
            (mkWorld inbox_store inbox_store [false; true])) =
       Ok mark_server_error.
Proof. repeat split. Qed.

(** ** Tables *)

Section TableFacts.
Variable A : Type.
Variables p q : A -> bool.
Variable f : A -> A.

Lemma find_app_some (l l' : list A) (x : A) :
  find p l = Some x -> find p (l ++ l') = Some x.
Proof.
  induction l as [|a l IH]; simpl; [discriminate|].
  destruct (p a); auto.
Qed.

Lemma find_app_none (l l' : list A) :
  find p l = None -> find p (l ++ l') = find p l'.
Proof.
  induction l as [|a l IH]; simpl; [reflexivity|].
  destruct (p a); [discriminate | auto].
Qed.

Lemma find_none_iff (l : list A) :
  find p l = None <-> forall x, In x l -> p x = false.
Proof.
  split.
  - intros H x Hx. exact (find_none p l H x Hx).
  - induction l as [|a l IH]; simpl; intros H; [reflexivity|].
    rewrite (H a (or_introl eq_refl)). apply IH. intros x Hx. apply H. now right.
Qed.

(** Updating the first [p]-row leaves the first [q]-row in place, possibly
    updated, when the update does not change what [q] tests. *)
Lemma find_update_first (l : list A) (x : A) :
  (forall r, q (f r) = q r) ->
  find q l = Some x ->
  find q (update_first p f l) = Some x \/ find q (update_first p f l) = Some (f x).
Proof.
  intros Hq. induction l as [|a l IH]; simpl; [discriminate|].
  destruct (p a) eqn:Ep; simpl.
  - rewrite Hq. destruct (q a); intros H; [injection H as <-; now right | now left].
  - destruct (q a); intros H; [now left | auto].
Qed.

Lemma find_update_first_same (l : list A) (x : A) :
  find p l = Some x -> p (f x) = true ->
  find p (update_first p f l) = Some (f x).
Proof.
  induction l as [|a l IH]; simpl; [discriminate|].
  destruct (p a) eqn:E.
  - intros [= ->] Hf. simpl. now rewrite Hf.
  - intros Hx Hf. simpl. rewrite E. auto.
Qed.

Lemma update_first_absent (l : list A) :
  find p l = None -> update_first p f l = l.
Proof.
  induction l as [|a l IH]; simpl; [reflexivity|].
  destruct (p a); [discriminate|]. intros H. now rewrite IH.
Qed.
End TableFacts.

(** ** Computations *)

Lemma fault_point_quiet (w : World) :
  faults w = [] -> fault_point w = (Ok tt, w).
Proof. unfold fault_point. now intros ->. Qed.

Lemma query_quiet (A : Type) (q : Store -> A) (w : World) :
  faults w = [] -> query q w = (Ok (q (session w)), w).
Proof. intros H. unfold query, bind. now rewrite fault_point_quiet. Qed.

Lemma session_add_quiet (f : Store -> Store) (w : World) :
  faults w = [] -> session_add f w = (Ok tt, with_session f w).
Proof. intros H. unfold session_add, bind, modify. now rewrite fault_point_quiet. Qed.

Lemma commit_quiet (w : World) :
  faults w = [] -> commit w = (Ok tt, mkWorld (session w) (session w) []).
Proof. intros H. unfold commit, bind. rewrite fault_point_quiet by assumption. now rewrite H. Qed.

Section Preservation.
Variable P : Store -> Prop.

Lemma preserves_ret (A : Type) (a : A) : preserves P (ret a).
Proof. intros w r w' H [= _ <-]. exact H. Qed.

Lemma preserves_raise (A : Type) : preserves P (raise A).
Proof. intros w r w' H [= _ <-]. exact H. Qed.

Lemma preserves_peek (A : Type) (g : World -> A) :
  preserves P (fun w => (Ok (g w), w)).
Proof. intros w r w' H [= _ <-]. exact H. Qed.

Lemma preserves_bind (A B : Type) (m : M A) (k : A -> M B) :
  preserves P m -> (forall a, preserves P (k a)) -> preserves P (bind m k).
Proof.
  intros Hm Hk w r w' H. unfold bind.
  destruct (m w) as [[a|] w1] eqn:E.
  - intros E'. exact (Hk a w1 r w' (Hm _ _ _ H E) E').
  - intros [= _ <-]. exact (Hm _ _ _ H E).
Qed.

Lemma preserves_try_except (A : Type) (body handler : M A) :
  preserves P body -> preserves P handler -> preserves P (try_except body handler).
Proof.
  intros Hb Hh w r w' H. unfold try_except.
  destruct (body w) as [[a|] w1] eqn:E.
  - intros [= _ <-]. exact (Hb _ _ _ H E).
  - intros E'. exact (Hh w1 r w' (Hb _ _ _ H E) E').
Qed.

Lemma preserves_fault_point : preserves P fault_point.
Proof.
  intros w r w' H. unfold fault_point.
  destruct (faults w) as [|[|] fs]; intros [= _ <-]; exact H.
Qed.

Lemma preserves_query (A : Type) (q : Store -> A) : preserves P (query q).
Proof.
  apply preserves_bind; [exact preserves_fault_point|].
  intros _. apply preserves_peek.
Qed.

Lemma preserves_modify (f : Store -> Store) :
  (forall s, P s -> P (f s)) -> preserves P (modify f).
Proof.
  intros Hf w r w' [Hc Hs] [= _ <-]. split; simpl; auto.
Qed.

Lemma preserves_session_add (f : Store -> Store) :
  (forall s, P s -> P (f s)) -> preserves P (session_add f).
Proof.
  intros Hf. apply preserves_bind; [exact preserves_fault_point|].
  intros _. now apply preserves_modify.
Qed.

Lemma preserves_commit : preserves P commit.
Proof.
  apply preserves_bind; [exact preserves_fault_point|].
  intros _ w r w' [Hc Hs] [= _ <-]. split; exact Hs.
Qed.

Lemma preserves_rollback : preserves P rollback.
Proof. intros w r w' [Hc Hs] [= _ <-]. split; exact Hc. Qed.

Lemma preserves_for_each (A : Type) (xs : list A) (body : A -> M unit) :
  (forall x, preserves P (body x)) -> preserves P (for_each xs body).
Proof.
  intros Hb. induction xs as [|x xs IH]; simpl.
  - apply preserves_ret.
  - apply preserves_bind; [apply Hb | intros _; exact IH].
Qed.

Lemma preserves_guarded (m : M unit) : preserves P m -> preserves P (guarded m).
Proof. intros H. apply preserves_try_except; [exact H | apply preserves_ret]. Qed.

Lemma preserves_forget (A : Type) (m : M A) : preserves P m -> preserves P (forget m).
Proof. intros H. apply preserves_bind; [exact H | intros _; apply preserves_ret]. Qed.

(** The audit recorder writes to the activity log and to the
    notifications, and to nothing else. *)
Hypothesis P_activity_logs : forall f s, P s -> P (with_activity_logs f s).
Hypothesis P_notifications : forall f s, P s -> P (with_notifications f s).

Lemma preserves_log_activity env user_id action description details ip notify :
  preserves P (log_activity env user_id action description details ip notify).
Proof.
  unfold log_activity, add_activity, add_notification.
  apply preserves_try_except.
  - apply preserves_bind; [apply preserves_session_add, P_activity_logs|]. intros _.
    apply preserves_bind; [|intros _; apply preserves_commit].
    destruct (mem_string action notified_actions); [|apply preserves_ret].
    apply preserves_bind; [apply preserves_query|]. intros [user|]; [|apply preserves_ret].
    destruct notify; [|apply preserves_ret].
    apply preserves_bind; [apply preserves_query|]. intros supervisors.
    apply preserves_for_each. intros supervisor.
    destruct (notification_text action user details) as [[title message]|].
    + apply preserves_session_add, P_notifications.
    + apply preserves_raise.
  - apply preserves_bind; [apply preserves_rollback | intros _; apply preserves_ret].
Qed.

(** The other handlers also write to users, occurrences and reset tokens. *)
Hypothesis P_users : forall f s, P s -> P (with_users f s).
Hypothesis P_occurrences : forall f s, P s -> P (with_occurrences f s).
Hypothesis P_token_insert :
  forall row s, P s -> P (with_reset_tokens (fun rows => rows ++ [row rows]) s).
Hypothesis P_token_used :
  forall now token s,
    P s ->
    P (with_reset_tokens
         (update_first (fun r => String.eqb (PasswordResetToken.token r) token)
                       (PasswordResetToken.mark_used now)) s).

Lemma preserves_mark_token_used env token :
  preserves P (mark_token_used env token).
Proof.
  unfold mark_token_used.
  apply preserves_bind; [apply preserves_query|]. intros [r|]; [|apply preserves_ret].
  apply preserves_bind; [|intros _; apply preserves_commit].
  apply preserves_modify. apply P_token_used.
Qed.

Lemma preserves_generate_reset_token env user hours secret :
  preserves P (generate_reset_token env user hours secret).
Proof.
  unfold generate_reset_token.
  apply preserves_bind.
  - apply preserves_session_add. intros s.
    apply (P_token_insert (fun rows =>
      PasswordResetToken.mk (next_id PasswordResetToken.id rows) (User.id user)
        secret (now env) (now env + 3600 * hours) false None)).
  - intros _ w r w' H.
    destruct (existsb _ _).
    + now apply preserves_raise.
    + revert H. apply preserves_bind; [apply preserves_commit|].
      intros _. apply preserves_ret.
Qed.

Lemma preserves_reset_password env is_authenticated token form :
  preserves P (reset_password env is_authenticated token form).
Proof.
  unfold reset_password. destruct is_authenticated; [apply preserves_ret|].
  apply preserves_bind; [apply preserves_query|]. intros [user|]; [|apply preserves_ret].
  destruct form as [password|]; [|apply preserves_ret].
  unfold reset_password_submit. apply preserves_try_except.
  - apply preserves_bind; [apply preserves_modify, P_users|]. intros _.
    apply preserves_bind; [apply preserves_mark_token_used|]. intros _.
    apply preserves_bind; [apply preserves_commit|]. intros _.
    apply preserves_bind; [apply preserves_guarded, preserves_log_activity|].
    intros _. apply preserves_ret.
  - apply preserves_bind; [apply preserves_rollback | intros _; apply preserves_ret].
Qed.

Lemma preserves_login env email password user_agent :
  preserves P (login env email password user_agent).
Proof.
  unfold login.
  apply preserves_bind; [apply preserves_query|]. intros [user|]; [|apply preserves_ret].
  destruct (User.check_password user password); [|apply preserves_ret].
  apply preserves_bind; [apply preserves_guarded, preserves_log_activity|].
  intros _. apply preserves_ret.
Qed.

Lemma preserves_form_choices catalogue : preserves P (form_choices catalogue).
Proof.
  unfold form_choices.
  apply preserves_bind; [apply preserves_query|]. intros zone_objs.
  apply preserves_bind; [apply preserves_query|]. intros type_objs.
  apply preserves_bind.
  - destruct zone_objs; [|apply preserves_ret].
    apply preserves_bind; [apply preserves_query | intros _; apply preserves_ret].
  - intros _. destruct type_objs; [|apply preserves_ret].
    apply preserves_bind; [apply preserves_query | intros _; apply preserves_ret].
Qed.

Lemma preserves_nova_ocorrencia env catalogue current_user form :
  preserves P (nova_ocorrencia env catalogue current_user form).
Proof.
  unfold nova_ocorrencia.
  apply preserves_bind; [apply preserves_form_choices|]. intros _.
  apply preserves_try_except.
  - destruct (form_datetime form) as [d|]; [|apply preserves_raise].
    apply preserves_bind; [apply preserves_peek|]. intros occ_id.
    apply preserves_bind; [apply preserves_session_add, P_occurrences|]. intros _.
    apply preserves_bind; [apply preserves_commit|]. intros _.
    apply preserves_bind; [apply preserves_guarded, preserves_log_activity|].
    intros _. apply preserves_ret.
  - apply preserves_bind; [apply preserves_rollback | intros _; apply preserves_ret].
Qed.

Lemma preserves_mark_notification_read env current_user id :
  preserves P (mark_notification_read env current_user id).
Proof.
  unfold mark_notification_read.
  apply preserves_bind; [apply preserves_query|]. intros [n|]; [|apply preserves_ret].
  destruct (negb _); [apply preserves_ret|].
  apply preserves_try_except.
  - apply preserves_bind; [apply preserves_modify, P_notifications|]. intros _.
    apply preserves_bind; [apply preserves_commit|]. intros _.
    apply preserves_bind; [apply preserves_guarded, preserves_log_activity|].
    intros _. apply preserves_ret.
  - apply preserves_bind; [apply preserves_rollback | intros _; apply preserves_ret].
Qed.

Lemma preserves_toggle_user_status env current_user id reason :
  preserves P (toggle_user_status env current_user id reason).
Proof.
  unfold toggle_user_status.
  destruct (String.eqb (User.role current_user) ROLE_NADADOR); [apply preserves_ret|].
  apply preserves_bind; [apply preserves_query|]. intros [user|]; [|apply preserves_ret].
  destruct (_ && _); [apply preserves_ret|].
  destruct (_ =? _); [apply preserves_ret|].
  destruct (_ && _); [apply preserves_ret|].
  apply preserves_try_except.
  - apply preserves_bind; [apply preserves_modify, P_users|]. intros _.
    apply preserves_bind; [apply preserves_commit|]. intros _.
    apply preserves_bind; [apply preserves_query|]. intros _.
    apply preserves_bind; [apply preserves_guarded, preserves_log_activity|].
    intros _. apply preserves_ret.
  - apply preserves_bind; [apply preserves_rollback | intros _; apply preserves_ret].
Qed.

Lemma preserves_handle env r : preserves P (handle env r).
Proof.
  destruct r; simpl.
  - apply preserves_forget, preserves_generate_reset_token.
  - apply preserves_forget, preserves_reset_password.
  - apply preserves_forget, preserves_login.
  - apply preserves_forget, preserves_nova_ocorrencia.
  - apply preserves_forget, preserves_mark_notification_read.
  - apply preserves_forget, preserves_toggle_user_status.
  - apply preserves_log_activity.
Qed.

Lemma serve_keeps w job : both P w -> both P (serve w job).
Proof.
  destruct job as [[env fs] r]. intros [Hc _]. unfold serve.
  destruct (handle env r (mkWorld (committed w) (committed w) fs)) as [res w1] eqn:E.
  simpl. assert (H1 : both P w1).
  { apply (@preserves_handle env r _ _ _) with (2 := E). split; exact Hc. }
  destruct H1 as [H1 _]. split; exact H1.
Qed.

Lemma serve_all_keeps jobs w : both P w -> both P (serve_all w jobs).
Proof.
  revert w. induction jobs as [|job jobs IH]; intros w H; simpl; [exact H|].
  apply IH, serve_keeps, H.
Qed.
End Preservation.

(** ** Reset tokens *)

Lemma fault_point_store (w w' : World) (r : Outcome unit) :
  fault_point w = (r, w') -> committed w' = committed w /\ session w' = session w.
Proof.
  unfold fault_point. destruct (faults w) as [|[|] fs]; intros [= _ <-]; auto.
Qed.

(** The lookups of the form's choices read and write nothing else. *)
Lemma form_choices_store catalogue (w w' : World) (r : Outcome unit) :
  form_choices catalogue w = (r, w') ->
  committed w' = committed w /\ session w' = session w.
Proof.
  assert (Hq : forall (A : Type) (q : Store -> A) w0 r0 w1,
             query q w0 = (r0, w1) ->
             committed w1 = committed w0 /\ session w1 = session w0).
  { intros A q w0 r0 w1. unfold query, bind.
    destruct (fault_point w0) as [[[]|] wa] eqn:Ea;
      apply fault_point_store in Ea; intros [= _ <-]; exact Ea. }
  unfold form_choices. unfold bind at 1.
  destruct (query (fun _ => zone_names catalogue) w) as [[zs|] w1] eqn:E1;
    apply Hq in E1; [|intros [= _ <-]; exact E1].
  unfold bind at 1.
  destruct (query (fun _ => type_names catalogue) w1) as [[ts|] w2] eqn:E2;
    apply Hq in E2; [|intros [= _ <-]; intuition congruence].
  assert (Hfall : forall (q : Store -> list string) w0 r0 w3,
             (query q ;;; ret tt) w0 = (r0, w3) ->
             committed w3 = committed w0 /\ session w3 = session w0).
  { intros q w0 r0 w3. unfold bind at 1.
    destruct (query q w0) as [[x|] wa] eqn:Ea; apply Hq in Ea;
      unfold ret; intros [= _ <-]; exact Ea. }
  unfold bind at 1.
  destruct zs as [|z zs].
  - destruct ((query (fun s => map Occurrence.zone (occurrence_rows s)) ;;; ret tt) w2)
      as [[[]|] w3] eqn:E3; apply Hfall in E3;
      [|intros [= _ <-]; intuition congruence].
    destruct ts as [|t ts].
    + intros E4. apply Hfall in E4. intuition congruence.
    + unfold ret. intros [= _ <-]. intuition congruence.
  - unfold ret at 1. destruct ts as [|t ts].
    + intros E4. apply Hfall in E4. intuition congruence.
    + unfold ret. intros [= _ <-]. intuition congruence.
Qed.

Lemma form_choices_quiet catalogue (w : World) :
  faults w = [] -> form_choices catalogue w = (Ok tt, w).
Proof.
  destruct w as [c s fs]. simpl. intros ->. unfold form_choices.
  cbv beta iota delta [bind ret query fault_point faults session committed].
  destruct (zone_names catalogue), (type_names catalogue); reflexivity.
Qed.

Lemma first_reset_token_unique (s : Store) (row : PasswordResetToken.t) :
  NoDup (map PasswordResetToken.token (reset_token_rows s)) ->
  In row (reset_token_rows s) ->
  first_reset_token s (PasswordResetToken.token row) = Some row.
Proof.
  unfold first_reset_token. induction (reset_token_rows s) as [|a l IH]; simpl.
  - intros _ [].
  - intros Hnd Hin. inversion Hnd as [|x l' Hnotin Hnd']; subst.
    destruct (String.eqb_spec (PasswordResetToken.token a) (PasswordResetToken.token row)) as [E|E].
    + destruct Hin as [->|Hin]; [reflexivity|].
      exfalso. apply Hnotin. rewrite E. now apply in_map.
    + destruct Hin as [->|Hin]; [congruence | auto].
Qed.

Lemma first_reset_token_absent (s : Store) (secret : string) :
  ~ In secret (map PasswordResetToken.token (reset_token_rows s)) ->
  first_reset_token s secret = None.
Proof.
  intros H. unfold first_reset_token. apply find_none_iff. intros x Hx.
  destruct (String.eqb_spec (PasswordResetToken.token x) secret) as [E|E]; [|reflexivity].
  exfalso. apply H. rewrite <- E. now apply in_map.
Qed.

Lemma first_reset_token_present (s : Store) (secret : string) :
  In secret (map PasswordResetToken.token (reset_token_rows s)) ->
  exists r, first_reset_token s secret = Some r.
Proof.
  intros H. apply in_map_iff in H as (x & Hx & Hin).
  unfold first_reset_token.
  destruct (find _ _) as [r|] eqn:E; [now exists r|].
  exfalso. pose proof (find_none _ _ E x Hin) as Hn. simpl in Hn.
  rewrite Hx, String.eqb_refl in Hn. discriminate.
Qed.

Lemma token_used_verify (env : Env) (s : Store) (secret : string) :
  token_used secret s -> verify_reset_token env s secret = None.
Proof.
  intros (r & Hr & Hu). unfold verify_reset_token, PasswordResetToken.is_valid.
  now rewrite Hr, Hu.
Qed.

Lemma token_used_insert secret row s :
  token_used secret s ->
  token_used secret (with_reset_tokens (fun rows => rows ++ [row rows]) s).
Proof.
  intros (r & Hr & Hu). exists r. split; [|exact Hu].
  unfold first_reset_token in *. simpl. now apply find_app_some.
Qed.

Lemma token_used_mark secret now token s :
  token_used secret s ->
  token_used secret
    (with_reset_tokens
       (update_first (fun r => String.eqb (PasswordResetToken.token r) token)
                     (PasswordResetToken.mark_used now)) s).
Proof.
  intros (r & Hr & Hu). unfold token_used, first_reset_token in *. simpl.
  destruct (find_update_first _
              (fun r => String.eqb (PasswordResetToken.token r) token)
              (fun r => String.eqb (PasswordResetToken.token r) secret)
              (PasswordResetToken.mark_used now)
              (reset_token_rows s) r (fun _ => eq_refl) Hr) as [H|H];
    rewrite H; eauto.
Qed.

(** Once set, the flag stays set through every later request. *)
Lemma token_used_forever secret w jobs :
  both (token_used secret) w -> both (token_used secret) (serve_all w jobs).
Proof.
  apply serve_all_keeps.
  - intros f s H. exact H.
  - intros f s H. exact H.
  - intros f s H. exact H.
  - intros f s H. exact H.
  - intros row s. apply token_used_insert.
  - intros now token s. apply token_used_mark.
Qed.

Lemma mark_token_used_sets env secret w w1 :
  In secret (map PasswordResetToken.token (reset_token_rows (session w))) ->
  mark_token_used env secret w = (Ok tt, w1) ->
  both (token_used secret) w1.
Proof.
  intros Hin. destruct (first_reset_token_present _ _ Hin) as (r0 & Hr0).
  unfold mark_token_used, query, bind.
  destruct (fault_point w) as [[[]|] wa] eqn:Ea; [|discriminate].
  apply fault_point_store in Ea as [Eac Eas]. rewrite Eas, Hr0.
  unfold modify, commit, bind.
  destruct (fault_point _) as [[[]|] wb] eqn:Eb; [|discriminate].
  apply fault_point_store in Eb as [Ebc Ebs]. intros [= <-].
  assert (H : token_used secret (session wb)).
  { rewrite Ebs. simpl. exists (PasswordResetToken.mark_used (now env) r0).
    split; [|reflexivity]. unfold first_reset_token in *. simpl. rewrite Eas.
    apply find_update_first_same; [exact Hr0|].
    simpl. apply find_some in Hr0. apply Hr0. }
  split; exact H.
Qed.

Lemma mark_token_used_quiet env secret w :
  faults w = [] -> exists w1, mark_token_used env secret w = (Ok tt, w1).
Proof.
  intros Hf. unfold mark_token_used, bind. rewrite query_quiet by exact Hf.
  destruct (first_reset_token (session w) secret); [|eexists; reflexivity].
  unfold modify. rewrite commit_quiet by exact Hf. eexists; reflexivity.
Qed.

Lemma reset_password_invalid env secret form s :
  verify_reset_token env s secret = None ->
  reset_password env false secret form (mkWorld s s []) =
    (Ok reset_redirect_forgot_password, mkWorld s s []).
Proof.
  intros H. unfold reset_password, bind. rewrite query_quiet by reflexivity.
  simpl. now rewrite H.
Qed.

Lemma verify_some_first env s secret u :
  verify_reset_token env s secret = Some u ->
  exists r, first_reset_token s secret = Some r
            /\ PasswordResetToken.is_valid (now env) r = true
            /\ get_user s (PasswordResetToken.user_id r) = Some u.
Proof.
  unfold verify_reset_token. destruct (first_reset_token s secret) as [r|]; [|discriminate].
  destruct (PasswordResetToken.is_valid (now env) r) eqn:E; simpl; [|discriminate].
  intros H. exists r. repeat split; auto.
Qed.

Lemma reset_password_valid env secret password s u :
  verify_reset_token env s secret = Some u ->
  exists s1,
    reset_password env false secret (Some password) (mkWorld s s []) =
      (Ok reset_redirect_login, mkWorld s1 s1 [])
    /\ token_used secret s1.
Proof.
  intros H. destruct (verify_some_first _ _ _ _ H) as (r & Hr & Hvalid & Hu).
  unfold reset_password, reset_password_submit, mark_token_used, log_activity, add_activity.
  run_quiet. rewrite H.
  replace (first_reset_token _ secret) with (Some r) by (symmetry; exact Hr).
  simpl.
  eexists. split; [reflexivity|].
  exists (PasswordResetToken.mark_used (now env) r). split; [|reflexivity].
  unfold first_reset_token in *. simpl.
  apply find_update_first_same; [exact Hr|]. simpl. apply find_some in Hr. apply Hr.
Qed.

(** A token just issued for a stored user verifies until its hour is up. *)
Lemma issued_token_verifies env user secret s stored :
  ~ In secret (map PasswordResetToken.token (reset_token_rows s)) ->
  get_user s (User.id user) = Some stored ->
  exists s1,
    generate_reset_token env user 1 secret (mkWorld s s []) =
      (Ok secret, mkWorld s1 s1 [])
    /\ forall env',
         verify_reset_token env' s1 secret = Some stored <->
         now env' < now env + 3600.
Proof.
  intros Hfresh Hu.
  pose proof (first_reset_token_absent s secret Hfresh) as Hnone.
  unfold generate_reset_token. run_quiet.
  replace (existsb _ (reset_token_rows s)) with false.
  - eexists. split; [reflexivity|]. intros env'.
    unfold verify_reset_token, first_reset_token in *. simpl.
    rewrite find_app_none by exact Hnone. simpl. rewrite String.eqb_refl.
    unfold PasswordResetToken.is_valid. simpl. unfold get_user in *. simpl.
    rewrite Hu. change (3600 * 1) with 3600.
    destruct (Z.ltb_spec (now env') (now env + 3600)); simpl; split;
      intros; try discriminate; try lia; reflexivity.
  - symmetry. apply not_true_is_false. intros Hex.
    apply existsb_exists in Hex as (x & Hx & Ex). apply Hfresh.
    apply String.eqb_eq in Ex. rewrite <- Ex. now apply in_map.
Qed.

(** C1. For a stored reset token, [verify_reset_token] returns the owner
    exactly when the token is unused and the current instant is strictly
    before [expires_at], and [None] otherwise or when no row holds the
    secret; once [mark_token_used] has run on the secret (as
    [reset_password] does on a successful redemption), the stored token is
    used through every later request, and every later verification or
    redemption attempt with that secret is turned away as invalid. *)
Theorem reset_token_single_use :
  forall (s : Store) (row : PasswordResetToken.t) (owner : User.t),
    NoDup (map PasswordResetToken.token (reset_token_rows s)) ->
    In row (reset_token_rows s) ->
    get_user s (PasswordResetToken.user_id row) = Some owner ->
    let secret := PasswordResetToken.token row in
    (forall env,
        verify_reset_token env s secret = Some owner <->
        PasswordResetToken.used row = false
        /\ now env < PasswordResetToken.expires_at row)
    /\ (forall env,
        verify_reset_token env s secret = None <->
        ~ (PasswordResetToken.used row = false
           /\ now env < PasswordResetToken.expires_at row))
    /\ (forall env absent,
        ~ In absent (map PasswordResetToken.token (reset_token_rows s)) ->
        verify_reset_token env s absent = None)
    /\ (forall env w, session w = s -> faults w = [] ->
        exists w1, mark_token_used env secret w = (Ok tt, w1))
    /\ (forall env w w1,
        session w = s ->
        mark_token_used env secret w = (Ok tt, w1) ->
        forall jobs env' form,
          let later := committed (serve_all w1 jobs) in
          token_used secret later
          /\ verify_reset_token env' later secret = None
          /\ reset_password env' false secret form (mkWorld later later []) =
               (Ok reset_redirect_forgot_password, mkWorld later later []))
    /\ (forall env password,
        verify_reset_token env s secret = Some owner ->
        exists s1,
          reset_password env false secret (Some password) (mkWorld s s []) =
            (Ok reset_redirect_login, mkWorld s1 s1 [])
          /\ forall jobs env' form,
               let later := committed (serve_all (mkWorld s1 s1 []) jobs) in
               reset_password env' false secret form (mkWorld later later []) =
                 (Ok reset_redirect_forgot_password, mkWorld later later [])).
Proof.
  intros s row owner Hnd Hin Hown secret.
  pose proof (first_reset_token_unique s row Hnd Hin) as Hfirst.
  assert (Hv : forall env, verify_reset_token env s secret =
     if PasswordResetToken.is_valid (now env) row then Some owner else None).
  { intros env. unfold verify_reset_token. fold secret in Hfirst. rewrite Hfirst.
    destruct (PasswordResetToken.is_valid (now env) row); simpl; [exact Hown | reflexivity]. }
  assert (Hvalid : forall env, PasswordResetToken.is_valid (now env) row = true <->
     PasswordResetToken.used row = false /\ now env < PasswordResetToken.expires_at row).
  { intros env. unfold PasswordResetToken.is_valid.
    rewrite andb_true_iff, negb_true_iff, Z.ltb_lt. reflexivity. }
  assert (Hlater : forall env w w1 jobs,
     session w = s -> mark_token_used env secret w = (Ok tt, w1) ->
     token_used secret (committed (serve_all w1 jobs))).
  { intros env w w1 jobs Hs Hm.
    apply (token_used_forever secret w1 jobs).
    apply (mark_token_used_sets env secret w w1); [|exact Hm].
    rewrite Hs. now apply in_map. }
  split; [|split; [|split; [|split; [|split]]]].
  - intros env. rewrite Hv. split.
    + destruct (PasswordResetToken.is_valid (now env) row) eqn:E;
        [intros _; now apply Hvalid | discriminate].
    + intros H. apply Hvalid in H. now rewrite H.
  - intros env. rewrite Hv. split.
    + intros H Hc. apply Hvalid in Hc. rewrite Hc in H. discriminate.
    + intros H. destruct (PasswordResetToken.is_valid (now env) row) eqn:E;
        [|reflexivity]. exfalso. now apply H, Hvalid.
  - intros env absent Habs. unfold verify_reset_token.
    now rewrite first_reset_token_absent.
  - intros env w _ Hf. now apply mark_token_used_quiet.
  - intros env w w1 Hs Hm jobs env' form later.
    pose proof (Hlater env w w1 jobs Hs Hm) as Hu. fold later in Hu.
    split; [exact Hu|]. split.
    + now apply token_used_verify.
    + now apply reset_password_invalid, token_used_verify.
  - intros env password Hvalid'.
    destruct (reset_password_valid env secret password s owner Hvalid')
      as (s1 & E1 & Hused).
    exists s1. split; [exact E1|]. intros jobs env' form later.
    apply reset_password_invalid, token_used_verify.
    apply (token_used_forever secret (mkWorld s1 s1 []) jobs). split; exact Hused.
Qed.

(** C1 on a store with one user and one valid token. *)
Lemma reset_token_single_use_witness :
  NoDup (map PasswordResetToken.token (reset_token_rows one_token_store))
  /\ verify_reset_token at_100 one_token_store "s3gredo" = Some ana.
Proof.
  assert (Hnd : NoDup (map PasswordResetToken.token
                           (reset_token_rows one_token_store))).
  { repeat constructor. simpl. intros []. }
  split; [exact Hnd|].
  destruct (reset_token_single_use one_token_store
              (PasswordResetToken.mk 1 1 "s3gredo" 0 3600 false None) ana Hnd)
    as [H _]; [simpl; left; reflexivity | reflexivity |].
  apply H. split; reflexivity.
Defined.

(** ** Redemption attempts, one after the other or overlapping *)

(** The redemption is the two steps of an attempt run back to back. *)
Lemma reset_password_two_steps env token password w :
  reset_password env false token (Some password) w =
  (a1 <- attempt_step env token password attempt_start ;;
   a2 <- attempt_step env token password a1 ;;
   match a2 with
   | attempt_done result => ret result
   | _ => ret reset_render_form
   end) w.
Proof.
  unfold reset_password, attempt_step, bind, ret.
  destruct (query _ w) as [[[user|]|] w1]; try reflexivity.
  destruct (reset_password_submit env token user password w1) as [[res|] w2];
    reflexivity.
Qed.

Lemma step_verify_valid env secret password s u :
  verify_reset_token env s secret = Some u ->
  attempt_step env secret password attempt_start (mkWorld s s []) =
    (Ok (attempt_verified u), mkWorld s s []).
Proof. intros H. simpl. run_quiet. now rewrite H. Qed.

Lemma step_verify_invalid env secret password s :
  verify_reset_token env s secret = None ->
  attempt_step env secret password attempt_start (mkWorld s s []) =
    (Ok (attempt_done reset_redirect_forgot_password), mkWorld s s []).
Proof. intros H. simpl. run_quiet. now rewrite H. Qed.

(** The write step does not look at the token again: it succeeds as soon
    as a row holds the secret. *)
Lemma step_submit env secret password s u r :
  first_reset_token s secret = Some r ->
  exists s1,
    attempt_step env secret password (attempt_verified u) (mkWorld s s []) =
      (Ok (attempt_done reset_redirect_login), mkWorld s1 s1 [])
    /\ token_used secret s1.
Proof.
  intros Hr. simpl.
  unfold reset_password_submit, mark_token_used, log_activity, add_activity.
  run_quiet.
  replace (first_reset_token _ secret) with (Some r) by (symmetry; exact Hr).
  simpl. eexists. split; [reflexivity|].
  exists (PasswordResetToken.mark_used (now env) r). split; [|reflexivity].
  unfold first_reset_token in *. simpl.
  apply find_update_first_same; [exact Hr|]. simpl. apply find_some in Hr. apply Hr.
Qed.

Lemma step_nth_at env token password pre a post w :
  step_nth env token password (List.length pre) (pre ++ a :: post) w =
  (a' <- attempt_step env token password a ;; ret (pre ++ a' :: post)) w.
Proof.
  revert w. induction pre as [|x pre IH]; intros w; simpl.
  - reflexivity.
  - unfold bind at 1. rewrite IH. unfold bind, ret.
    destruct (attempt_step env token password a w) as [[a'|] w1]; reflexivity.
Qed.

Lemma run_schedule_app env token password sched1 sched2 pool w :
  run_schedule env token password (sched1 ++ sched2) pool w =
  (pool' <- run_schedule env token password sched1 pool ;;
   run_schedule env token password sched2 pool') w.
Proof.
  revert pool w. induction sched1 as [|i sched1 IH]; intros pool w; simpl.
  - reflexivity.
  - unfold bind.
    destruct (step_nth env token password i pool w) as [[pool1|] w1]; [|reflexivity].
    exact (IH pool1 w1).
Qed.

(** Every attempt reads a valid token before any of them writes. *)
Lemma all_verify env secret password s u k pre :
  verify_reset_token env s secret = Some u ->
  run_schedule env secret password (seq (List.length pre) k)
    (pre ++ repeat attempt_start k) (mkWorld s s []) =
  (Ok (pre ++ repeat (attempt_verified u) k), mkWorld s s []).
Proof.
  intros Hv. revert pre. induction k as [|k IH]; intros pre; simpl.
  - reflexivity.
  - unfold bind. rewrite step_nth_at. unfold bind, ret.
    rewrite (step_verify_valid env secret password s u Hv).
    specialize (IH (pre ++ [attempt_verified u])).
    rewrite length_app, Nat.add_1_r, <- app_assoc in IH. simpl in IH.
    rewrite IH, <- app_assoc. reflexivity.
Qed.

(** Then every one of them writes, and succeeds. *)
Lemma all_submit env secret password u k : forall s pre r,
  first_reset_token s secret = Some r ->
  exists s1 r1,
    run_schedule env secret password (seq (List.length pre) k)
      (pre ++ repeat (attempt_verified u) k) (mkWorld s s []) =
    (Ok (pre ++ repeat (attempt_done reset_redirect_login) k), mkWorld s1 s1 [])
    /\ first_reset_token s1 secret = Some r1.
Proof.
  induction k as [|k IH]; intros s pre r Hr; simpl.
  - exists s, r. split; [reflexivity | exact Hr].
  - unfold bind. rewrite step_nth_at. unfold bind, ret.
    destruct (step_submit env secret password s u r Hr) as (s1 & E1 & (r1 & Hr1 & _)).
    rewrite E1.
    destruct (IH s1 (pre ++ [attempt_done reset_redirect_login]) r1 Hr1)
      as (s2 & r2 & E2 & Hr2).
    rewrite length_app, Nat.add_1_r, <- app_assoc in E2. simpl in E2.
    exists s2, r2. rewrite E2, <- app_assoc. split; [reflexivity | exact Hr2].
Qed.

(** After a redemption, the attempts that start are turned away. *)
Lemma all_late env secret password s k pre :
  verify_reset_token env s secret = None ->
  run_schedule env secret password
    (flat_map (fun i => [i; i]) (seq (List.length pre) k))
    (pre ++ repeat attempt_start k) (mkWorld s s []) =
  (Ok (pre ++ repeat (attempt_done reset_redirect_forgot_password) k),
   mkWorld s s []).
Proof.
  intros Hv. revert pre. induction k as [|k IH]; intros pre; simpl.
  - reflexivity.
  - unfold bind. rewrite step_nth_at. unfold bind, ret.
    rewrite (step_verify_invalid env secret password s Hv).
    rewrite step_nth_at. simpl. unfold bind, ret.
    specialize (IH (pre ++ [attempt_done reset_redirect_forgot_password])).
    rewrite length_app, Nat.add_1_r, <- app_assoc in IH. simpl in IH.
    rewrite IH, <- app_assoc. reflexivity.
Qed.

Lemma filter_repeat_all (A : Type) (p : A -> bool) (x : A) (n : nat) :
  p x = true -> filter p (repeat x n) = repeat x n.
Proof. intros H. induction n; simpl; [reflexivity|]. now rewrite H, IHn. Qed.

Lemma filter_repeat_none (A : Type) (p : A -> bool) (x : A) (n : nat) :
  p x = false -> filter p (repeat x n) = [].
Proof. intros H. induction n; simpl; [reflexivity|]. now rewrite H, IHn. Qed.

(** C2, as stated, fails: two attempts on a valid token whose reads both
    come before the first write both redeem it. *)
Lemma overlapping_redemptions_both_succeed :
  verify_reset_token at_100 one_token_store "s3gredo" = Some ana
  /\ validated_password "nova-senha" = true
  /\ ~ one_redemption_wins at_100 one_token_store "s3gredo" "nova-senha" 2
         (overlapped_schedule 2).
Proof.
  split; [reflexivity|]. split; [reflexivity|].
  intros (pool & w' & E & Hone & _).
  vm_compute in E. injection E as <- _. simpl in Hone. discriminate.
Qed.

(** C2, amended. On a valid token and with a password that the form
    validates, attempts that run one after the other are settled as the
    claim says: the first redeems the token and the others are turned
    away as invalid. The code reads the token
    ([verify_reset_token]) and writes it in a later, unconditional
    statement ([mark_token_used]): when the attempts overlap so that every
    read comes before the first write, each of them succeeds. *)
Theorem redemption_serial_once_overlapped_all :
  forall (env : Env) (s : Store) (secret password : string) (owner : User.t)
         (n : nat),
    verify_reset_token env s secret = Some owner ->
    validated_password password = true ->
    (exists s',
        run_schedule env secret password (serial_schedule (S n))
          (repeat attempt_start (S n)) (mkWorld s s []) =
        (Ok (attempt_done reset_redirect_login
             :: repeat (attempt_done reset_redirect_forgot_password) n),
         mkWorld s' s' [])
        /\ token_used secret s')
    /\ one_redemption_wins env s secret password (S n) (serial_schedule (S n))
    /\ (exists s',
        run_schedule env secret password (overlapped_schedule (S n))
          (repeat attempt_start (S n)) (mkWorld s s []) =
        (Ok (repeat (attempt_done reset_redirect_login) (S n)),
         mkWorld s' s' [])).
Proof.
  intros env s secret password owner n Hv _.
  destruct (verify_some_first _ _ _ _ Hv) as (r & Hr & _ & _).
  assert (Hserial : exists s',
        run_schedule env secret password (serial_schedule (S n))
          (repeat attempt_start (S n)) (mkWorld s s []) =
        (Ok (attempt_done reset_redirect_login
             :: repeat (attempt_done reset_redirect_forgot_password) n),
         mkWorld s' s' [])
        /\ token_used secret s').
  { destruct (step_submit env secret password s owner r Hr) as (s1 & E1 & Hused).
    exists s1. split; [|exact Hused].
    change (serial_schedule (S n)) with
      ([0; 0]%nat ++ flat_map (fun i => [i; i]) (seq 1 n)).
    rewrite run_schedule_app. unfold bind.
    change (repeat attempt_start (S n)) with (attempt_start :: repeat attempt_start n).
    cbn [run_schedule step_nth]. unfold bind, ret.
    rewrite (step_verify_valid env secret password s owner Hv). rewrite E1.
    exact (all_late env secret password s1 n [attempt_done reset_redirect_login]
             (token_used_verify env s1 secret Hused)). }
  split; [exact Hserial|]. split.
  - destruct Hserial as (s' & E & _).
    eexists _, _. split; [exact E|]. simpl.
    rewrite filter_repeat_none by reflexivity.
    rewrite filter_repeat_all by reflexivity.
    rewrite repeat_length. split; [reflexivity | lia].
  - unfold overlapped_schedule. 
    destruct (all_submit env secret password owner (S n) s [] r Hr)
      as (s1 & r1 & E1 & _).
    pose proof (all_verify env secret password s owner (S n) [] Hv) as E0.
    cbn [List.length app] in E0, E1.
    exists s1. rewrite run_schedule_app. unfold bind.
    rewrite E0. exact E1.
Qed.

(** C2, amended, for three attempts in turn on one valid token. *)
Lemma redemption_serial_once_overlapped_all_witness :
  verify_reset_token at_100 one_token_store "s3gredo" = Some ana
  /\ one_redemption_wins at_100 one_token_store "s3gredo" "nova-senha" 3
       (serial_schedule 3).
Proof.
  split; [reflexivity|].
  apply (redemption_serial_once_overlapped_all at_100 one_token_store
           "s3gredo" "nova-senha" ana 2); reflexivity.
Defined.

(** ** The audit recorder *)

(** A handler that cannot raise makes the whole [try] return. *)
Lemma try_except_returns (body handler : M unit) :
  (forall w, exists w', handler w = (Ok tt, w')) ->
  forall w, exists w', try_except body handler w = (Ok tt, w').
Proof.
  intros Hh w. unfold try_except. destruct (body w) as [[[]|] w1].
  - now exists w1.
  - apply Hh.
Qed.

Lemma log_activity_returns env user_id action description details ip notify w :
  exists w',
    log_activity env user_id action description details ip notify w = (Ok tt, w').
Proof.
  unfold log_activity. apply try_except_returns.
  intros w0. eexists. reflexivity.
Qed.

Lemma guarded_returns (m : M unit) (w : World) :
  exists w', guarded m w = (Ok tt, w').
Proof.
  unfold guarded. apply try_except_returns. intros w0. eexists. reflexivity.
Qed.

Lemma log_activity_keeps_records s0 env user_id action description details ip notify :
  preserves (same_records s0)
    (log_activity env user_id action description details ip notify).
Proof.
  apply preserves_log_activity; intros f s H; exact H.
Qed.

Lemma nova_ocorrencia_stores env catalogue current_user form date c s fs0 fs :
  form_datetime form = Some date ->
  form_choices catalogue (mkWorld c s fs0) =
    (Ok tt, mkWorld c s (false :: false :: fs)) ->
  exists c' s' fs',
    nova_ocorrencia env catalogue current_user form (mkWorld c s fs0) =
      (Ok nova_redirect_ocorrencias, mkWorld c' s' fs')
    /\ occurrence_rows c' =
         occurrence_rows s ++
         [Occurrence.mk (next_id Occurrence.id (occurrence_rows s)) date
            (form_zone form) (form_type form) (form_description form)
            (User.id current_user)]
    /\ occurrence_rows s' =
         occurrence_rows s ++
         [Occurrence.mk (next_id Occurrence.id (occurrence_rows s)) date
            (form_zone form) (form_type form) (form_description form)
            (User.id current_user)].
Proof.
  intros Hdate Hchoices. unfold nova_ocorrencia. unfold bind at 1.
  rewrite Hchoices, Hdate. run_quiet.
  match goal with
  | |- context [log_activity ?e ?u ?a ?d ?dt ?i ?n ?w1] =>
      destruct (log_activity_returns e u a d dt i n w1) as (w2 & E2);
      pose proof (log_activity_keeps_records (committed w1) e u a d dt i n
                    w1 (Ok tt) w2 (conj (conj eq_refl (conj eq_refl eq_refl))
                                        (conj eq_refl (conj eq_refl eq_refl)))
                    E2) as [(_ & Hc & _) (_ & Hs & _)];
      rewrite E2
  end.
  destruct w2 as [c' s' fs']. exists c', s', fs'.
  split; [reflexivity|]. split; [exact Hc | exact Hs].
Qed.

(** C3. Whatever its arguments and whichever of its storage accesses fail,
    [log_activity] returns to its caller without raising; users,
    occurrences and reset tokens that were committed when it was called are
    committed, and visible to the session, when it returns. In
    [nova_ocorrencia], once the choices of the form have been looked up
    and the insert of the occurrence is committed, the request answers
    with the redirect and the new occurrence is stored, whatever fails in
    the recorder. *)
Theorem log_activity_never_raises_keeps_records :
  forall (env : Env) (user_id : Z) (action description : string)
         (details : option Details) (ip : option string) (notify : bool)
         (w : World),
    (exists w',
        log_activity env user_id action description details ip notify w =
          (Ok tt, w')
        /\ (session w = committed w ->
            same_records (committed w) (committed w')
            /\ same_records (committed w) (session w')))
    /\ (forall (catalogue : Catalogue) (current_user : User.t)
               (form : OccurrenceForm) (date : Z) (w0 : World)
               (fs : list bool),
        form_datetime form = Some date ->
        form_choices catalogue w = (Ok tt, w0) ->
        faults w0 = false :: false :: fs ->
        let occ :=
          Occurrence.mk (next_id Occurrence.id (occurrence_rows (session w)))
            date (form_zone form) (form_type form) (form_description form)
            (User.id current_user) in
        exists w',
          nova_ocorrencia env catalogue current_user form w =
            (Ok nova_redirect_ocorrencias, w')
          /\ occurrence_rows (committed w') = occurrence_rows (session w) ++ [occ]
          /\ occurrence_rows (session w') = occurrence_rows (session w) ++ [occ]).
Proof.
  intros env user_id action description details ip notify w. split.
  - destruct (log_activity_returns env user_id action description details ip notify w)
      as (w' & E).
    exists w'. split; [exact E|]. intros Hs.
    apply (log_activity_keeps_records (committed w) env user_id action description
             details ip notify w (Ok tt) w'); [|exact E].
    split; [|rewrite Hs]; repeat split.
  - intros catalogue current_user form date w0 fs Hdate Hchoices Hfs occ.
    destruct (form_choices_store catalogue w w0 (Ok tt) Hchoices) as [Hc0 Hs0].
    destruct w as [c s fs0], w0 as [c0 s0 fs1]. simpl in *. subst c0 s0 fs1.
    destruct (nova_ocorrencia_stores env catalogue current_user form date
                c s fs0 fs Hdate Hchoices) as (c' & s' & fs' & E & Hc & Hs).
    exists (mkWorld c' s' fs'). rewrite E. repeat split; assumption.
Qed.

(** C3 with a fault at the lookup of the acting user. *)
Lemma log_activity_never_raises_keeps_records_witness :
  exists w',
    log_activity at_100 1 "create_occurrence" "Criou" None None true
      (mkWorld one_token_store one_token_store [false; true]) = (Ok tt, w')
    /\ same_records one_token_store (committed w').
Proof.
  destruct (log_activity_never_raises_keeps_records at_100 1 "create_occurrence"
              "Criou" None None true
              (mkWorld one_token_store one_token_store [false; true]))
    as [(w' & E & H) _].
  exists w'. split; [exact E|]. apply H. reflexivity.
Defined.

(** ** The notification fan-out *)

Lemma notified_action_has_text action user details :
  mem_string action notified_actions = true ->
  exists title message,
    notification_text action user details = Some (title, message).
Proof.
  unfold mem_string, notified_actions, notification_text. simpl.
  destruct (String.eqb action "login"); [eauto|].
  destruct (String.eqb action "create_occurrence"); [eauto|].
  destruct (String.eqb action "edit_occurrence"); [eauto|].
  destruct (String.eqb action "delete_occurrence"); [eauto|].
  destruct (String.eqb action "toggle_user_status"); [|discriminate].
  intros _.
  repeat match goal with
         | |- context [if ?b then _ else _] => destruct b
         end; eauto.
Qed.

Lemma fan_out_quiet env title message link recipients c s :
  for_each recipients (fun supervisor =>
      add_notification env (User.id supervisor) title message link)
    (mkWorld c s []) =
  (Ok tt,
   mkWorld c (with_notifications (notify_all env title message link recipients) s)
           []).
Proof.
  revert s. induction recipients as [|u rest IH]; intros s.
  - simpl. unfold ret. destruct s; reflexivity.
  - simpl. unfold add_notification at 1. run_quiet.
    fold (with_notifications
            (fun rows => rows ++
               [Notification.mk (next_id Notification.id rows) (User.id u)
                  title message "info" (now env) false (Some link)]) s).
    rewrite IH. reflexivity.
Qed.

Lemma notify_all_appends env title message link recipients :
  forall rows,
  exists news,
    notify_all env title message link recipients rows = rows ++ news
    /\ map Notification.user_id news = map User.id recipients
    /\ Forall (fun n => Notification.link n = Some link
                        /\ Notification.title n = title
                        /\ Notification.message n = message
                        /\ Notification.read n = false) news.
Proof.
  induction recipients as [|u rest IH]; intros rows; simpl.
  - exists []. rewrite app_nil_r. repeat split. constructor.
  - destruct (IH (rows ++ [Notification.mk (next_id Notification.id rows)
                             (User.id u) title message "info" (now env) false
                             (Some link)])) as (news & E & Hids & Hall).
    eexists (_ :: news). rewrite E, <- app_assoc. split; [reflexivity|].
    split; [simpl; now rewrite Hids|].
    constructor; [repeat split | exact Hall].
Qed.

(** The recorder on a store without faults, for an action of the notified
    kinds by a stored user. *)
Lemma log_activity_quiet_notified env user_id action description details ip
    (notify : bool) c s user title message :
  mem_string action notified_actions = true ->
  get_user s user_id = Some user ->
  notification_text action user details = Some (title, message) ->
  let logged := activity_logged env user_id action description ip details s in
  let s' :=
    if notify
    then with_notifications
           (notify_all env title message (notification_link action details)
              (filter is_notified (user_rows s)))
           logged
    else logged in
  log_activity env user_id action description details ip notify (mkWorld c s []) =
    (Ok tt, mkWorld s' s' []).
Proof.
  intros Hmem Huser Htext logged s'.
  unfold log_activity, add_activity. 
  unfold try_except, bind at 1 2. rewrite session_add_quiet by reflexivity.
  unfold with_session. cbn [session committed faults].
  rewrite Hmem. unfold bind at 1 2. rewrite query_quiet by reflexivity.
  cbn [session].
  change (get_user (with_activity_logs _ s) user_id) with (get_user s user_id).
  rewrite Huser, Htext. cbv beta iota. subst s'. destruct notify.
  - unfold bind at 1. rewrite query_quiet by reflexivity. cbn [session].
    change (user_rows (with_activity_logs _ s)) with (user_rows s).
    rewrite fan_out_quiet.
    rewrite commit_quiet by reflexivity. reflexivity.
  - unfold ret. rewrite commit_quiet by reflexivity. reflexivity.
Qed.

(** The recorder on a store without faults, for any other action. *)
Lemma log_activity_quiet_other env user_id action description details ip
    notify c s :
  mem_string action notified_actions = false ->
  let logged := activity_logged env user_id action description ip details s in
  log_activity env user_id action description details ip notify (mkWorld c s []) =
    (Ok tt, mkWorld logged logged []).
Proof.
  intros Hmem logged.
  unfold log_activity, add_activity.
  unfold try_except, bind at 1 2. rewrite session_add_quiet by reflexivity.
  unfold with_session. cbn [session committed faults].
  rewrite Hmem. unfold ret. rewrite commit_quiet by reflexivity. reflexivity.
Qed.

Lemma count_filtered_ids (p : User.t -> bool) (rows : list User.t) (u : User.t) :
  NoDup (map User.id rows) -> In u rows ->
  count_occ Z.eq_dec (map User.id (filter p rows)) (User.id u) =
    if p u then 1%nat else 0%nat.
Proof.
  assert (Hout : forall (l : list User.t) x,
             ~ In x (map User.id l) ->
             count_occ Z.eq_dec (map User.id (filter p l)) x = 0%nat).
  { intros l x Hx. apply count_occ_not_In. intros Hin. apply Hx.
    apply in_map_iff in Hin as (y & Hy & Hf). apply filter_In in Hf as [Hf _].
    apply in_map_iff. eauto. }
  induction rows as [|a l IH]; simpl; [intros _ []|].
  intros Hnd Hin. inversion Hnd as [|x l' Hnotin Hnd']; subst.
  destruct Hin as [->|Hin].
  - destruct (p u); simpl.
    + destruct (Z.eq_dec (User.id u) (User.id u)) as [_|Hne]; [|congruence].
      now rewrite Hout.
    + now apply Hout.
  - assert (Hne : User.id a <> User.id u).
    { intros E. apply Hnotin. rewrite E. now apply in_map. }
    destruct (p a); simpl.
    + destruct (Z.eq_dec (User.id a) (User.id u)); [contradiction | auto].
    + auto.
Qed.

Lemma is_notified_iff (u : User.t) :
  is_notified u = true <->
  (User.role u = "supervisor" \/ User.role u = "presidente")
  /\ User.id u <> HIDDEN_USER_ID.
Proof.
  unfold is_notified, mem_string. simpl.
  rewrite andb_true_iff, negb_true_iff, Z.eqb_neq, !orb_true_iff, !String.eqb_eq.
  intuition discriminate.
Qed.

(** What the fan-out of a notified action by a stored user leaves behind
    when no storage access fails. *)
Lemma fan_out_exact env user_id action description details ip c s user :
  mem_string action notified_actions = true ->
  get_user s user_id = Some user ->
  exists s' news,
    log_activity env user_id action description details ip true (mkWorld c s []) =
      (Ok tt, mkWorld s' s' [])
    /\ notification_rows s' = notification_rows s ++ news
    /\ map Notification.user_id news =
         map User.id (filter is_notified (user_rows s))
    /\ Forall (fun n => Notification.link n =
                          Some (notification_link action details)
                        /\ Notification.read n = false
                        /\ notification_text action user details =
                             Some (Notification.title n, Notification.message n))
              news.
Proof.
  intros Hmem Huser.
  destruct (notified_action_has_text action user details Hmem)
    as (title & message & Htext).
  destruct (notify_all_appends env title message
              (notification_link action details)
              (filter is_notified (user_rows s)) (notification_rows s))
    as (news & E & Hids & Hall).
  eexists _, news. split.
  - exact (log_activity_quiet_notified env user_id action description details ip
             true c s user title message Hmem Huser Htext).
  - cbv beta iota zeta. simpl. split; [exact E|]. split; [exact Hids|].
    eapply Forall_impl; [|exact Hall]. intros n (Hl & Ht & Hm & Hr).
    rewrite Ht, Hm. repeat split; assumption.
Qed.

Lemma next_id_positive (A : Type) (key : A -> Z) (rows : list A) :
  1 <= next_id key rows.
Proof.
  unfold next_id.
  assert (0 <= fold_right (fun r m => Z.max (key r) m) 0 rows); [|lia].
  induction rows; simpl; lia.
Qed.

(** [nova_ocorrencia] without faults: the insert, then the recorder. *)
Lemma nova_ocorrencia_quiet env catalogue current_user form date s w2 :
  form_datetime form = Some date ->
  (let occ_id := next_id Occurrence.id (occurrence_rows s) in
   let s1 := with_occurrences (fun rows => rows ++
       [Occurrence.mk occ_id date (form_zone form) (form_type form)
          (form_description form) (User.id current_user)]) s in
   log_activity env (User.id current_user) "create_occurrence"
     (String.append "Criou ocorrência #" (py_str_int occ_id))
     (Some [("occurrence_id", VInt occ_id);
            ("zone", VStr (form_zone form));
            ("type", VStr (form_type form))])
     None true (mkWorld s1 s1 []) = (Ok tt, w2)) ->
  nova_ocorrencia env catalogue current_user form (mkWorld s s []) =
    (Ok nova_redirect_ocorrencias, w2).
Proof.
  intros Hdate E. cbv zeta in E.
  unfold nova_ocorrencia. unfold bind at 1.
  rewrite form_choices_quiet by reflexivity. rewrite Hdate. run_quiet.
  match goal with
  | |- context [log_activity ?e ?u ?a ?d ?dt ?i ?n ?w1] =>
      replace (log_activity e u a d dt i n w1) with (Ok tt, w2)
        by (symmetry; exact E)
  end.
  reflexivity.
Qed.

(** C7, as stated, fails: a supervisor who records an occurrence is
    notified of it like every other supervisor and president, also when
    no other supervisor or president is stored; the acting user is not
    taken out of the audience. *)
Lemma acting_supervisor_is_notified :
  (let w' :=
     snd (log_activity at_100 2 "create_occurrence" "Criou ocorrência #1"
            (Some [("occurrence_id", VInt 1)]) None true
            (mkWorld staffed_store staffed_store [])) in
   let recipients :=
     map Notification.user_id
       (gained (notification_rows staffed_store)
               (notification_rows (committed w'))) in
   recipients = [2; 3]
   /\ audience_without_actor staffed_store 2 = [3])
  /\ (let w' :=
        snd (log_activity at_100 2 "create_occurrence" "Criou ocorrência #1"
               (Some [("occurrence_id", VInt 1)]) None true
               (mkWorld two_user_store two_user_store [])) in
      let recipients :=
        map Notification.user_id
          (gained (notification_rows two_user_store)
                  (notification_rows (committed w'))) in
      recipients = [2]
      /\ audience_without_actor two_user_store 2 = []
      /\ recipients <> audience_without_actor two_user_store 2).
Proof.
  vm_compute. repeat split. discriminate.
Qed.

(** C7, amended. When no storage access fails and the acting user is
    stored, recording [create_occurrence] with [notify_supervisors] set
    inserts one notification, unread and carrying the computed link, for
    each stored user whose role is supervisor or president and whose id is
    not [HIDDEN_USER_ID], the acting user included, and no other; with
    unique user ids that is exactly one row per such user. In
    [nova_ocorrencia] the link is the view of the new occurrence. *)
Theorem create_occurrence_fan_out :
  forall (env : Env) (c s : Store) (user : User.t),
    get_user s (User.id user) = Some user ->
    (forall description details ip,
        exists s' news,
          log_activity env (User.id user) "create_occurrence" description
            details ip true (mkWorld c s []) = (Ok tt, mkWorld s' s' [])
          /\ notification_rows s' = notification_rows s ++ news
          /\ map Notification.user_id news =
               map User.id (filter is_notified (user_rows s))
          /\ Forall (fun n => Notification.link n =
                                Some (notification_link "create_occurrence" details)
                              /\ Notification.read n = false) news
          /\ (NoDup (map User.id (user_rows s)) ->
              forall u, In u (user_rows s) ->
                count_occ Z.eq_dec (map Notification.user_id news) (User.id u) =
                  if is_notified u then 1%nat else 0%nat))
    /\ (forall u, is_notified u = true <->
          (User.role u = "supervisor" \/ User.role u = "presidente")
          /\ User.id u <> HIDDEN_USER_ID)
    /\ (forall catalogue form date,
        form_datetime form = Some date ->
        exists s' news,
          nova_ocorrencia env catalogue user form (mkWorld s s []) =
            (Ok nova_redirect_ocorrencias, mkWorld s' s' [])
          /\ notification_rows s' = notification_rows s ++ news
          /\ map Notification.user_id news =
               map User.id (filter is_notified (user_rows s))
          /\ Forall (fun n => Notification.link n =
                                Some (url_view_occurrence
                                        (next_id Occurrence.id (occurrence_rows s)))
                              /\ Notification.read n = false) news).
Proof.
  intros env c s user Huser. split; [|split].
  - intros description details ip.
    destruct (fan_out_exact env (User.id user) "create_occurrence" description
                details ip c s user eq_refl Huser)
      as (s' & news & E & Hrows & Hids & Hall).
    exists s', news. split; [exact E|]. split; [exact Hrows|].
    split; [exact Hids|]. split.
    + eapply Forall_impl; [|exact Hall]. intros n (Hl & Hr & _). now split.
    + intros Hnd u Hu. rewrite Hids. now apply count_filtered_ids.
  - exact is_notified_iff.
  - intros catalogue form date Hdate.
    set (occ_id := next_id Occurrence.id (occurrence_rows s)).
    set (s1 := with_occurrences (fun rows => rows ++
           [Occurrence.mk occ_id date (form_zone form) (form_type form)
              (form_description form) (User.id user)]) s).
    destruct (fan_out_exact env (User.id user) "create_occurrence"
                (String.append "Criou ocorrência #" (py_str_int occ_id))
                (Some [("occurrence_id", VInt occ_id);
                       ("zone", VStr (form_zone form));
                       ("type", VStr (form_type form))])
                None s1 s1 user eq_refl Huser)
      as (s' & news & E & Hrows & Hids & Hall).
    exists s', news. split; [|split; [exact Hrows | split; [exact Hids|]]].
    + apply (nova_ocorrencia_quiet env catalogue user form date s _ Hdate).
      exact E.
    + eapply Forall_impl; [|exact Hall]. intros n (Hl & Hr & _). split; [|exact Hr].
      rewrite Hl.
      pose proof (next_id_positive _ Occurrence.id (occurrence_rows s)) as Hpos.
      fold occ_id in Hpos. clear - Hpos. clearbody occ_id.
      destruct occ_id; [lia | vm_compute; reflexivity | lia].
Qed.

(** C7, amended, for a supervisor who records an occurrence. *)
Lemma create_occurrence_fan_out_witness :
  exists s' news,
    nova_ocorrencia at_100 (mkCatalogue ["Reconquinho"; "Vimieiro"] [])
      rui (mkOccurrenceForm (Some 50) "Reconquinho" "Resgate" None)
      (mkWorld staffed_store staffed_store []) =
      (Ok nova_redirect_ocorrencias, mkWorld s' s' [])
    /\ notification_rows s' = notification_rows staffed_store ++ news
    /\ map Notification.user_id news = [2; 3].
Proof.
  destruct (create_occurrence_fan_out at_100 staffed_store staffed_store rui
              eq_refl) as (_ & _ & H).
  destruct (H (mkCatalogue ["Reconquinho"; "Vimieiro"] [])
              (mkOccurrenceForm (Some 50) "Reconquinho" "Resgate" None) 50 eq_refl)
    as (s' & news & E & Hrows & Hids & _).
  exists s', news. split; [exact E|]. split; [exact Hrows | exact Hids].
Defined.

(** Without the flag the recorder writes the audit entry and nothing else. *)
Lemma log_activity_quiet_unnotified env user_id action description details ip c s :
  log_activity env user_id action description details ip false (mkWorld c s []) =
    (Ok tt,
     mkWorld (activity_logged env user_id action description ip details s)
             (activity_logged env user_id action description ip details s) []).
Proof.
  unfold log_activity, add_activity.
  unfold try_except, bind at 1 2. rewrite session_add_quiet by reflexivity.
  unfold with_session. cbn [session committed faults].
  destruct (mem_string action notified_actions).
  - unfold bind at 1 2. rewrite query_quiet by reflexivity. cbn [session].
    destruct (get_user _ user_id); unfold ret;
      rewrite commit_quiet by reflexivity; reflexivity.
  - unfold ret. rewrite commit_quiet by reflexivity. reflexivity.
Qed.

(** C8, as stated, fails: the login route records the login without the
    flag, and no notification is created although a supervisor and a
    president are stored. *)
Lemma login_notifies_nobody :
  filter is_notified (user_rows staffed_store) = [rui; eva]
  /\ (let w' :=
        snd (log_activity at_100 1 "login" "Iniciou sessão"
               (Some [("user_agent", VStr "Firefox")]) None false
               (mkWorld staffed_store staffed_store [])) in
      notification_rows (committed w') = []
      /\ List.length (activity_log_rows (committed w')) = 1%nat)
  /\ (let '(result, w') :=
        login at_100 "ana@example.org" "antiga" "Firefox"
          (mkWorld staffed_store staffed_store []) in
      result = Ok (login_redirect_dashboard ana)
      /\ notification_rows (committed w') = []).
Proof. vm_compute. repeat split. Qed.

(** C8, amended. For the action [login] by a stored user, when no storage
    access fails: with [notify_supervisors] set, one notification titled
    'Novo Login Detectado' and linked to the activity feed is inserted for
    each supervisor and president other than the hidden user; without it,
    the audit entry is written and the notifications are left as they
    were. The login route calls the recorder without the flag, so a login
    creates no notification. *)
Theorem login_notification_follows_flag :
  forall (env : Env) (c s : Store) (user : User.t),
    get_user s (User.id user) = Some user ->
    (forall description details ip,
        exists s' news,
          log_activity env (User.id user) "login" description details ip true
            (mkWorld c s []) = (Ok tt, mkWorld s' s' [])
          /\ notification_rows s' = notification_rows s ++ news
          /\ map Notification.user_id news =
               map User.id (filter is_notified (user_rows s))
          /\ Forall (fun n => Notification.title n = "Novo Login Detectado"
                              /\ Notification.link n = Some url_activities) news)
    /\ (forall description details ip,
        exists s',
          log_activity env (User.id user) "login" description details ip false
            (mkWorld c s []) = (Ok tt, mkWorld s' s' [])
          /\ notification_rows s' = notification_rows s
          /\ List.length (activity_log_rows s') =
               S (List.length (activity_log_rows s)))
    /\ (forall email password user_agent,
        find (fun u => String.eqb (User.email u) email) (user_rows s) = Some user ->
        User.check_password user password = true ->
        exists s',
          login env email password user_agent (mkWorld c s []) =
            (Ok (login_redirect_dashboard user), mkWorld s' s' [])
          /\ notification_rows s' = notification_rows s).
Proof.
  intros env c s user Huser. split; [|split].
  - intros description details ip.
    destruct (fan_out_exact env (User.id user) "login" description details ip
                c s user eq_refl Huser)
      as (s' & news & E & Hrows & Hids & Hall).
    exists s', news. repeat (split; [assumption|]).
    eapply Forall_impl; [|exact Hall]. intros n (Hl & _ & Ht).
    split.
    + unfold notification_text in Ht. simpl in Ht. now injection Ht as <- _.
    + rewrite Hl. reflexivity.
  - intros description details ip. eexists. split.
    + apply log_activity_quiet_unnotified.
    + split; [reflexivity|]. simpl. rewrite length_app. simpl. lia.
  - intros email password user_agent Hfind Hpw. eexists. split.
    + unfold login. unfold bind at 1. rewrite query_quiet by reflexivity.
      cbn [session]. rewrite Hfind, Hpw. unfold guarded, try_except, bind.
      rewrite log_activity_quiet_unnotified. reflexivity.
    + reflexivity.
Qed.

(** C8, amended, for a supervisor who logs in. *)
Lemma login_notification_follows_flag_witness :
  exists s',
    login at_100 "rui@example.org" "x" "Firefox"
      (mkWorld staffed_store staffed_store []) =
      (Ok (login_redirect_dashboard rui), mkWorld s' s' [])
    /\ notification_rows s' = notification_rows staffed_store.
Proof.
  destruct (login_notification_follows_flag at_100 staffed_store staffed_store
              rui eq_refl) as (_ & _ & H).
  exact (H "rui@example.org" "x" "Firefox" eq_refl eq_refl).
Defined.

(** ** Marking a notification as read *)

Lemma update_first_fixed (A : Type) (p : A -> bool) (f : A -> A) (l : list A) (x : A) :
  find p l = Some x -> f x = x -> update_first p f l = l.
Proof.
  induction l as [|a l IH]; simpl; [discriminate|].
  destruct (p a).
  - intros [= ->] Hf. now rewrite Hf.
  - intros Hx Hf. now rewrite IH.
Qed.

(** The store after a recipient has marked notification [id] as read. *)
Lemma mark_read_quiet env current_user id c s n :
  get_notification s id = Some n ->
  Notification.user_id n = User.id current_user ->
  mark_notification_read env current_user id (mkWorld c s []) =
    (Ok mark_success,
     let s1 :=
       activity_logged env (User.id current_user) "mark_notification_read"
         (String.append "Marcou notificação #"
            (String.append (py_str_int id) " como lida"))
         None (Some [("notification_id", VInt id)])
         (with_notifications
            (update_first (fun n => Notification.id n =? id)
                          (fun n => Notification.set_read n true)) s) in
     mkWorld s1 s1 []).
Proof.
  intros Hget Hrcp. unfold mark_notification_read.
  unfold bind at 1. rewrite query_quiet by reflexivity. cbn [session].
  rewrite Hget, Hrcp, Z.eqb_refl. cbn [negb].
  unfold try_except, modify, bind at 1 2. unfold with_session.
  cbn [session committed faults]. unfold bind at 1.
  rewrite commit_quiet by reflexivity. cbn [session].
  unfold guarded, try_except, bind.
  rewrite log_activity_quiet_unnotified. reflexivity.
Qed.

Lemma mark_read_forbidden env current_user id c s n :
  get_notification s id = Some n ->
  Notification.user_id n <> User.id current_user ->
  mark_notification_read env current_user id (mkWorld c s []) =
    (Ok mark_forbidden, mkWorld c s []).
Proof.
  intros Hget Hrcp. unfold mark_notification_read.
  unfold bind at 1. rewrite query_quiet by reflexivity. cbn [session].
  rewrite Hget. apply Z.eqb_neq in Hrcp. rewrite Hrcp. reflexivity.
Qed.

(** The row an update reaches is the one the lookup by the same test
    returned. *)
Lemma update_first_found (A : Type) (p : A -> bool) (f : A -> A) (l : list A)
    (x : A) :
  find p l = Some x -> update_first p f l = update_first p (fun _ => f x) l.
Proof.
  induction l as [|a l IH]; simpl; [discriminate|].
  destruct (p a); [now intros [= ->]|]. intros H. now rewrite IH.
Qed.

Lemma set_read_version (n : Notification.t) :
  read_version n (Notification.set_read n true).
Proof. repeat split. Qed.

(** C9, as stated, fails: a second call on the same notification does
    not leave the store as the first call left it; the notifications are
    as they were, and a second audit entry has been written. *)
Lemma mark_read_again_adds_audit_entry :
  exists s1 s2,
    mark_notification_read at_100 rui 1 (mkWorld inbox_store inbox_store []) =
      (Ok mark_success, mkWorld s1 s1 [])
    /\ mark_notification_read at_100 rui 1 (mkWorld s1 s1 []) =
         (Ok mark_success, mkWorld s2 s2 [])
    /\ notification_rows s2 = notification_rows s1
    /\ map ActivityLog.action (activity_log_rows s1) = ["mark_notification_read"]
    /\ map ActivityLog.action (activity_log_rows s2) =
         ["mark_notification_read"; "mark_notification_read"]
    /\ s2 <> s1.
Proof.
  eexists _, _. split; [vm_compute; reflexivity|].
  split; [vm_compute; reflexivity|].
  split; [reflexivity|]. split; [reflexivity|]. split; [reflexivity|].
  discriminate.
Qed.

(** C9, amended. For a stored notification and a requesting user, when no
    storage access fails, [mark_notification_read] succeeds exactly when
    the notification belongs to the requesting user. After a success the
    stored notification has its read flag set and every other column as
    before, and no other notification row has changed; users,
    occurrences and reset tokens are as before. A second call succeeds
    again and leaves the notifications, with the flag still set, and the
    users, occurrences and reset tokens as the first call left them; like
    the first, it adds one entry to the audit trail. A call by another
    user is answered 403 and changes nothing. *)
Theorem mark_read_recipient_only_idempotent :
  forall (env env2 : Env) (current_user : User.t) (id : Z) (c s : Store)
         (n : Notification.t),
    get_notification s id = Some n ->
    (fst (mark_notification_read env current_user id (mkWorld c s [])) =
       Ok mark_success
     <-> Notification.user_id n = User.id current_user)
    /\ (Notification.user_id n = User.id current_user ->
        exists s1 s2 n1,
          mark_notification_read env current_user id (mkWorld c s []) =
            (Ok mark_success, mkWorld s1 s1 [])
          /\ get_notification s1 id = Some n1
          /\ read_version n n1
          /\ notification_rows s1 =
               update_first (fun x => Notification.id x =? id) (fun _ => n1)
                 (notification_rows s)
          /\ same_records s s1
          /\ List.length (activity_log_rows s1) =
               S (List.length (activity_log_rows s))
          /\ mark_notification_read env2 current_user id (mkWorld s1 s1 []) =
               (Ok mark_success, mkWorld s2 s2 [])
          /\ get_notification s2 id = Some n1
          /\ notification_rows s2 = notification_rows s1
          /\ same_records s1 s2
          /\ List.length (activity_log_rows s2) =
               S (List.length (activity_log_rows s1)))
    /\ (Notification.user_id n <> User.id current_user ->
        mark_notification_read env current_user id (mkWorld c s []) =
          (Ok mark_forbidden, mkWorld c s [])).
Proof.
  intros env env2 current_user id c s n Hget.
  assert (Hid : (Notification.id n =? id) = true).
  { unfold get_notification in Hget. apply find_some in Hget. apply Hget. }
  split; [|split].
  - destruct (Z.eq_dec (Notification.user_id n) (User.id current_user)) as [E|E].
    + rewrite (mark_read_quiet env current_user id c s n Hget E). simpl. tauto.
    + rewrite (mark_read_forbidden env current_user id c s n Hget E). simpl.
      split; [discriminate | contradiction].
  - intros Hrcp.
    pose proof (mark_read_quiet env current_user id c s n Hget Hrcp) as E1.
    cbv zeta in E1.
    match type of E1 with
    | _ = (_, mkWorld ?x _ _) => set (s1 := x) in *
    end.
    assert (Hget1 : get_notification s1 id = Some (Notification.set_read n true)).
    { unfold get_notification, s1. simpl.
      apply (find_update_first_same _ (fun n => Notification.id n =? id)
               (fun n => Notification.set_read n true) (notification_rows s) n);
        [exact Hget | exact Hid]. }
    pose proof (mark_read_quiet env2 current_user id s1 s1 _ Hget1 Hrcp) as E2.
    cbv zeta in E2.
    match type of E2 with
    | _ = (_, mkWorld ?x _ _) => set (s2 := x) in *
    end.
    assert (Hrows2 : notification_rows s2 = notification_rows s1).
    { unfold s2. simpl.
      apply (update_first_fixed _ _ _ _ (Notification.set_read n true));
        [exact Hget1 | reflexivity]. }
    exists s1, s2, (Notification.set_read n true).
    split; [exact E1|]. split; [exact Hget1|].
    split; [apply set_read_version|]. split.
    { unfold s1. simpl.
      apply (update_first_found _ (fun x => Notification.id x =? id)
               (fun x => Notification.set_read x true) (notification_rows s) n).
      exact Hget. }
    split; [unfold s1; repeat split|]. split.
    { unfold s1. simpl. rewrite length_app. simpl. lia. }
    split; [exact E2|]. split.
    { unfold get_notification in *. now rewrite Hrows2. }
    split; [exact Hrows2|]. split; [unfold s2; repeat split|].
    unfold s2. simpl. rewrite length_app. simpl. lia.
  - intros Hrcp. now apply (mark_read_forbidden env current_user id c s n).
Qed.

(** C9, amended, for the recipient marking the same notification twice. *)
Lemma mark_read_recipient_only_idempotent_witness :
  exists s1 s2 n1,
    mark_notification_read at_100 rui 1 (mkWorld inbox_store inbox_store []) =
      (Ok mark_success, mkWorld s1 s1 [])
    /\ get_notification s1 1 = Some n1
    /\ Notification.read n1 = true
    /\ mark_notification_read at_100 rui 1 (mkWorld s1 s1 []) =
         (Ok mark_success, mkWorld s2 s2 [])
    /\ notification_rows s2 = notification_rows s1.
Proof.
  destruct (mark_read_recipient_only_idempotent at_100 at_100 rui 1
              inbox_store inbox_store unread_for_rui eq_refl) as (_ & H & _).
  destruct (H eq_refl)
    as (s1 & s2 & n1 & E1 & Hg & Hv & _ & _ & _ & E2 & _ & Hn & _).
  exists s1, s2, n1. split; [exact E1|]. split; [exact Hg|].
  split; [apply Hv|]. split; [exact E2 | exact Hn].
Defined.

(** ** Sessions *)





(** ** Listings *)

Lemma insert_by_date_In (o x : Occurrence.t) (l : list Occurrence.t) :
  In x (insert_by_date o l) <-> x = o \/ In x l.
Proof.
  induction l as [|a l IH]; simpl.
  - intuition.
  - destruct (Occurrence.date a <? Occurrence.date o); simpl.
    + intuition.
    + rewrite IH. intuition.
Qed.

Lemma order_by_date_desc_In (x : Occurrence.t) (l : list Occurrence.t) :
  In x (order_by_date_desc l) <-> In x l.
Proof.
  unfold order_by_date_desc. induction l as [|a l IH]; simpl.
  - reflexivity.
  - rewrite insert_by_date_In, IH. intuition.
Qed.

(** What a rendered listing of [ocorrencias] holds. *)
Lemma ocorrencias_listed s current_user args occs us :
  ocorrencias s current_user args = listing_render occs us ->
  exists query dates,
    ocorrencias_scope s current_user (arg_user_id args) = scope_of query us
    /\ date_filter args = Some dates
    /\ forall o, In o occs <->
         In o (occurrence_rows s) /\ query o = true /\ dates o = true
         /\ narrowing s args o = true.
Proof.
  unfold ocorrencias.
  destruct (ocorrencias_scope s current_user (arg_user_id args))
    as [| |query all_users]; [discriminate | discriminate|].
  destruct (date_filter args) as [dates|]; [|discriminate].
  destruct (statement_binds current_user (arg_user_id args)); [|discriminate].
  intros [= <- <-]. exists query, dates. repeat split; try reflexivity.
  - apply order_by_date_desc_In, filter_In in H. apply H.
  - apply order_by_date_desc_In, filter_In in H as [_ H].
    unfold narrowing. rewrite !andb_true_iff in *. tauto.
  - apply order_by_date_desc_In, filter_In in H as [_ H].
    unfold narrowing. rewrite !andb_true_iff in *. tauto.
  - apply order_by_date_desc_In, filter_In in H as [_ H].
    unfold narrowing. rewrite !andb_true_iff in *. tauto.
  - intros (Hin & Hq & Hd & Hn). apply order_by_date_desc_In, filter_In.
    split; [exact Hin|]. unfold narrowing in Hn.
    rewrite !andb_true_iff in *. tauto.
Qed.

(** What a rendered export holds. *)
Lemma export_csv_listed s current_user args occs us :
  export_csv s current_user args = listing_render occs us ->
  exists query dates,
    export_scope s current_user (arg_user_id args) = scope_of query us
    /\ date_filter args = Some dates
    /\ forall o, In o occs <->
         In o (occurrence_rows s) /\ query o = true /\ dates o = true
         /\ zone_filter args o = true /\ type_filter args o = true.
Proof.
  unfold export_csv.
  destruct (export_scope s current_user (arg_user_id args))
    as [| |query all_users]; [discriminate | discriminate|].
  destruct (date_filter args) as [dates|]; [|discriminate].
  destruct (statement_binds current_user (arg_user_id args)); [|discriminate].
  intros [= <- <-]. exists query, dates. split; [reflexivity|]. split; [reflexivity|].
  intros o. rewrite order_by_date_desc_In, filter_In, !andb_true_iff. tauto.
Qed.

Lemma mem_Z_In (x : Z) (xs : list Z) : mem_Z x xs = true <-> In x xs.
Proof.
  unfold mem_Z. rewrite existsb_exists. split.
  - intros (y & Hy & E). apply Z.eqb_eq in E. now subst.
  - intros H. exists x. split; [exact H | apply Z.eqb_refl].
Qed.

Lemma listed_nadador_not_hidden (u : User.t) (rows : list User.t) :
  In u (filter is_listed_nadador rows) ->
  User.role u = ROLE_NADADOR /\ User.id u <> HIDDEN_USER_ID.
Proof.
  intros H. apply filter_In in H as [_ H]. unfold is_listed_nadador in H.
  apply andb_true_iff in H as [Hr Hh]. apply String.eqb_eq in Hr.
  apply negb_true_iff, Z.eqb_neq in Hh. now split.
Qed.

(** Without a target in the query string the statement binds no integer
    of the request. *)
Lemma statement_binds_default (current_user : User.t) (user_id : option Z) :
  given_id user_id = None -> statement_binds current_user user_id = true.
Proof.
  intros H. unfold statement_binds. rewrite H.
  now destruct (String.eqb (User.role current_user) ROLE_NADADOR).
Qed.

(** The scope of a swimmer, whatever target the query string names. *)
Lemma nadador_scope s current_user user_id :
  User.role current_user = ROLE_NADADOR ->
  ocorrencias_scope s current_user user_id =
    scope_of (fun o => Occurrence.user_id o =? User.id current_user) None
  /\ export_scope s current_user user_id =
       scope_of (fun o => Occurrence.user_id o =? User.id current_user) None.
Proof.
  intros Hrole. unfold ocorrencias_scope, export_scope. rewrite Hrole.
  now split.
Qed.

(** The scope of a supervisor when the query string names no target. *)
Lemma supervisor_default_scope s current_user user_id :
  User.role current_user = ROLE_SUPERVISOR ->
  given_id user_id = None ->
  let query := fun o =>
    mem_Z (Occurrence.user_id o)
      (map User.id (filter is_listed_nadador (user_rows s))
       ++ [User.id current_user]) in
  ocorrencias_scope s current_user user_id =
    scope_of query (Some (filter is_listed_nadador (user_rows s)))
  /\ export_scope s current_user user_id = scope_of query None.
Proof.
  intros Hrole Hid. unfold ocorrencias_scope, export_scope.
  rewrite Hrole, Hid. now split.
Qed.

Lemma supervisor_default_scope_ids s current_user (o : Occurrence.t) :
  mem_Z (Occurrence.user_id o)
    (map User.id (filter is_listed_nadador (user_rows s))
     ++ [User.id current_user]) = true <->
  Occurrence.user_id o = User.id current_user
  \/ exists u, In u (user_rows s) /\ User.id u = Occurrence.user_id o
               /\ User.role u = ROLE_NADADOR /\ User.id u <> HIDDEN_USER_ID.
Proof.
  rewrite mem_Z_In, in_app_iff, in_map_iff. simpl. split.
  - intros [(u & E & Hu)|[E|[]]]; [right | left; congruence].
    exists u. pose proof (listed_nadador_not_hidden u _ Hu) as [Hr Hh].
    apply filter_In in Hu as [Hu _]. auto.
  - intros [E|(u & Hu & E & Hr & Hh)]; [right; left; congruence | left].
    exists u. split; [exact E|]. apply filter_In. split; [exact Hu|].
    unfold is_listed_nadador. rewrite Hr. simpl.
    apply negb_true_iff, Z.eqb_neq. exact Hh.
Qed.

(** The scope of a supervisor when the query string names a target. *)
Lemma supervisor_target_denied s current_user user_id uid :
  User.role current_user = ROLE_SUPERVISOR ->
  given_id user_id = Some uid ->
  ((get_user s uid = None /\ sqlite_integer uid = true)
   \/ exists target, get_user s uid = Some target
                     /\ User.role target <> ROLE_NADADOR) ->
  ocorrencias_scope s current_user user_id = scope_denied
  /\ export_scope s current_user user_id = scope_denied.
Proof.
  intros Hrole Hid Ht. unfold ocorrencias_scope, export_scope, query_get_user.
  rewrite Hrole, Hid. simpl.
  destruct Ht as [[-> ->]|(target & -> & Hr)]; [now split|].
  apply String.eqb_neq in Hr. rewrite Hr. now split.
Qed.

Lemma supervisor_target_overflow s current_user user_id uid :
  User.role current_user = ROLE_SUPERVISOR ->
  given_id user_id = Some uid ->
  get_user s uid = None -> sqlite_integer uid = false ->
  ocorrencias_scope s current_user user_id = scope_overflow
  /\ export_scope s current_user user_id = scope_overflow.
Proof.
  intros Hrole Hid Hget Hout. unfold ocorrencias_scope, export_scope, query_get_user.
  rewrite Hrole, Hid, Hget, Hout. now split.
Qed.

(** C5, as stated, fails: a swimmer who names another user as the target
    is not turned away; the target is ignored and the swimmer's own
    occurrences are listed. *)
Lemma swimmer_foreign_target_not_rejected :
  User.role ana = ROLE_NADADOR
  /\ 3 <> User.id ana
  /\ ocorrencias river_store ana (args_for 3) = listing_render [occ_of_ana] None
  /\ export_csv river_store ana (args_for 3) = listing_render [occ_of_ana] None
  /\ ocorrencias river_store ana (args_for 3) <> listing_access_denied.
Proof.
  repeat split; try reflexivity; vm_compute; discriminate.
Qed.

(** C5, amended. For a user with role 'nadador' the scope of a listing is
    exactly the user's own id: [ocorrencias] and [export_csv] list the
    occurrences of the store that this user recorded and that pass the
    filters of the request. A target id in the query string, the user's own
    or not, is ignored: the request is never answered with access denied. *)
Theorem swimmer_scope_is_self :
  forall (s : Store) (current_user : User.t) (args : ListingArgs),
    User.role current_user = ROLE_NADADOR ->
    (exists query,
        ocorrencias_scope s current_user (arg_user_id args) = scope_of query None
        /\ export_scope s current_user (arg_user_id args) = scope_of query None
        /\ forall o, query o = true <->
                     Occurrence.user_id o = User.id current_user)
    /\ ocorrencias s current_user args <> listing_access_denied
    /\ export_csv s current_user args <> listing_access_denied
    /\ (forall dates, date_filter args = Some dates ->
        exists occs exported,
          ocorrencias s current_user args = listing_render occs None
          /\ export_csv s current_user args = listing_render exported None
          /\ (forall o, In o occs <->
                In o (occurrence_rows s)
                /\ Occurrence.user_id o = User.id current_user
                /\ dates o = true /\ narrowing s args o = true)
          /\ (forall o, In o exported <->
                In o (occurrence_rows s)
                /\ Occurrence.user_id o = User.id current_user
                /\ dates o = true
                /\ zone_filter args o = true /\ type_filter args o = true)).
Proof.
  intros s current_user args Hrole.
  destruct (nadador_scope s current_user (arg_user_id args) Hrole) as [Ho He].
  assert (Hb : statement_binds current_user (arg_user_id args) = true)
    by (unfold statement_binds; now rewrite Hrole).
  split; [|split; [|split]].
  - eexists. split; [exact Ho|]. split; [exact He|].
    intros o. apply Z.eqb_eq.
  - unfold ocorrencias. rewrite Ho, Hb. destruct (date_filter args); discriminate.
  - unfold export_csv. rewrite He, Hb. destruct (date_filter args); discriminate.
  - intros dates Hd. eexists _, _.
    split; [unfold ocorrencias; rewrite Ho, Hd, Hb; reflexivity|].
    split; [unfold export_csv; rewrite He, Hd, Hb; reflexivity|].
    split; intros o; rewrite order_by_date_desc_In, filter_In;
      unfold narrowing; rewrite !andb_true_iff, Z.eqb_eq; tauto.
Qed.

(** C5, amended, for a swimmer who names the hidden user as target. *)
Lemma swimmer_scope_is_self_witness :
  exists occs,
    ocorrencias river_store ana (args_for 12) = listing_render occs None
    /\ forall o, In o occs -> Occurrence.user_id o = 1.
Proof.
  destruct (swimmer_scope_is_self river_store ana (args_for 12) eq_refl)
    as (_ & _ & _ & H).
  destruct (H _ eq_refl) as (occs & _ & E & _ & Hin & _).
  exists occs. split; [exact E|]. intros o Ho. apply Hin in Ho. apply Ho.
Defined.

(** C6, as stated, fails. A supervisor who names the hidden user as the
    target gets that user's occurrences when the hidden user is a swimmer;
    a supervisor account that is itself the hidden user has its own id in
    its scope; and the target 0, which no user has, is read as no target
    and is not turned away. *)
Lemma supervisor_scope_reaches_hidden :
  (User.role rui = ROLE_SUPERVISOR
   /\ ocorrencias river_store rui (args_for HIDDEN_USER_ID) =
        listing_render [occ_of_ze] (Some [ana])
   /\ Occurrence.user_id occ_of_ze = HIDDEN_USER_ID)
  /\ (let s := mkStore [ana; hidden_supervisor] [occ_of_ana; occ_of_ze] [] [] [] in
      ocorrencias s hidden_supervisor no_args =
        listing_render [occ_of_ze; occ_of_ana] (Some [ana]))
  /\ (get_user river_store 0 = None
      /\ ocorrencias river_store rui (args_for 0) =
           listing_render [occ_of_rui; occ_of_ana] (Some [ana])).
Proof. repeat split. Qed.

(** C6, amended. For a supervisor other than the hidden user:
    the users a listing offers ([users()], [all_users] of [ocorrencias])
    are swimmers and never the hidden user; when the query string names no
    target (none, or 0), the scope is the supervisor's own id and the ids
    of the swimmers other than the hidden user, so no listed occurrence
    belongs to the hidden user; a target other than 0 that SQLite can
    bind and that is no stored user, or that is a user whose role is not
    'nadador', is answered with access denied; a target that SQLite
    cannot bind raises out of the lookup. *)
Theorem supervisor_scope_default_excludes_hidden :
  forall (s : Store) (current_user : User.t) (args : ListingArgs),
    User.role current_user = ROLE_SUPERVISOR ->
    User.id current_user <> HIDDEN_USER_ID ->
    (exists us,
        users s current_user = users_render us
        /\ forall u, In u us ->
             User.role u = ROLE_NADADOR /\ User.id u <> HIDDEN_USER_ID)
    /\ (forall occs us u,
        ocorrencias s current_user args = listing_render occs (Some us) ->
        In u us -> User.role u = ROLE_NADADOR /\ User.id u <> HIDDEN_USER_ID)
    /\ (given_id (arg_user_id args) = None ->
        (exists query us,
            ocorrencias_scope s current_user (arg_user_id args) =
              scope_of query us
            /\ export_scope s current_user (arg_user_id args) =
                 scope_of query None
            /\ forall o, query o = true <->
                 Occurrence.user_id o = User.id current_user
                 \/ exists u, In u (user_rows s)
                              /\ User.id u = Occurrence.user_id o
                              /\ User.role u = ROLE_NADADOR
                              /\ User.id u <> HIDDEN_USER_ID)
        /\ (forall occs us o,
            ocorrencias s current_user args = listing_render occs us ->
            In o occs -> Occurrence.user_id o <> HIDDEN_USER_ID)
        /\ (forall occs us o,
            export_csv s current_user args = listing_render occs us ->
            In o occs -> Occurrence.user_id o <> HIDDEN_USER_ID))
    /\ (forall uid,
        given_id (arg_user_id args) = Some uid ->
        (((get_user s uid = None /\ sqlite_integer uid = true)
          \/ exists target, get_user s uid = Some target
                            /\ User.role target <> ROLE_NADADOR) ->
         ocorrencias s current_user args = listing_access_denied
         /\ export_csv s current_user args = listing_access_denied)
        /\ (get_user s uid = None -> sqlite_integer uid = false ->
            ocorrencias s current_user args = listing_overflow
            /\ export_csv s current_user args = listing_overflow)).
Proof.
  intros s current_user args Hrole Hnot.
  assert (Hhid : forall o,
     mem_Z (Occurrence.user_id o)
       (map User.id (filter is_listed_nadador (user_rows s))
        ++ [User.id current_user]) = true ->
     Occurrence.user_id o <> HIDDEN_USER_ID).
  { intros o Ho. apply supervisor_default_scope_ids in Ho.
    destruct Ho as [E|(u & _ & E & _ & Hh)]; congruence. }
  split; [|split; [|split]].
  - exists (filter is_listed_nadador (user_rows s)). split.
    + unfold users. rewrite Hrole. reflexivity.
    + intros u. apply listed_nadador_not_hidden.
  - intros occs us u E Hu. apply ocorrencias_listed in E as (q & d & Hs & _).
    unfold ocorrencias_scope, query_get_user in Hs.
    rewrite Hrole in Hs. simpl in Hs.
    destruct (given_id (arg_user_id args)) as [uid|].
    + destruct (get_user s uid) as [t|];
        [|destruct (sqlite_integer uid); discriminate].
      destruct (negb _); [discriminate|]. injection Hs as _ <-.
      now apply listed_nadador_not_hidden in Hu.
    + injection Hs as _ <-. now apply listed_nadador_not_hidden in Hu.
  - intros Hid.
    destruct (supervisor_default_scope s current_user (arg_user_id args) Hrole Hid)
      as [Ho He].
    split; [|split].
    + eexists _, _. split; [exact Ho|]. split; [exact He|].
      intros o. apply supervisor_default_scope_ids.
    + intros occs us o E Hin. apply ocorrencias_listed in E as (q & d & Hs & _ & Hl).
      rewrite Ho in Hs. injection Hs as <- _. apply Hl in Hin. now apply Hhid.
    + intros occs us o E Hin. apply export_csv_listed in E as (q & d & Hs & _ & Hl).
      rewrite He in Hs. injection Hs as <- _. apply Hl in Hin. now apply Hhid.
  - intros uid Hid. split.
    + intros Ht.
      destruct (supervisor_target_denied s current_user (arg_user_id args) uid
                  Hrole Hid Ht) as [Ho He].
      unfold ocorrencias, export_csv. now rewrite Ho, He.
    + intros Hget Hout.
      destruct (supervisor_target_overflow s current_user (arg_user_id args) uid
                  Hrole Hid Hget Hout) as [Ho He].
      unfold ocorrencias, export_csv. now rewrite Ho, He.
Qed.

(** C6, amended, for a supervisor who names a president, and one who names nobody. *)
Lemma supervisor_scope_default_excludes_hidden_witness :
  ocorrencias river_store rui (args_for 3) = listing_access_denied
  /\ forall occs us o,
       ocorrencias river_store rui no_args = listing_render occs us ->
       In o occs -> Occurrence.user_id o <> HIDDEN_USER_ID.
Proof.
  split.
  - destruct (supervisor_scope_default_excludes_hidden river_store rui
                (args_for 3) eq_refl) as (_ & _ & _ & H); [discriminate|].
    apply (H 3 eq_refl). right. exists eva. split; [reflexivity | discriminate].
  - destruct (supervisor_scope_default_excludes_hidden river_store rui
                no_args eq_refl) as (_ & _ & H & _); [discriminate|].
    destruct (H eq_refl) as (_ & Hl & _). exact Hl.
Defined.

(** The scope of every other role, the president's. *)
Lemma presidente_scope s current_user user_id :
  User.role current_user <> ROLE_NADADOR ->
  User.role current_user <> ROLE_SUPERVISOR ->
  exists us,
    ocorrencias_scope s current_user user_id =
      scope_of (match given_id user_id with
                | Some uid => fun o => Occurrence.user_id o =? uid
                | None => fun _ => true
                end) (Some us)
    /\ (User.id current_user <> HIDDEN_USER_ID ->
        forall u, In u us -> User.id u <> HIDDEN_USER_ID)
    /\ export_scope s current_user user_id =
         scope_of (match given_id user_id with
                   | Some uid => fun o => Occurrence.user_id o =? uid
                   | None => fun _ => true
                   end) None.
Proof.
  intros Hn Hs. apply String.eqb_neq in Hn, Hs.
  unfold ocorrencias_scope, export_scope. rewrite Hn, Hs.
  destruct (Z.eqb_spec (User.id current_user) HIDDEN_USER_ID) as [E|E].
  - eexists. split; [reflexivity|]. split; [contradiction|].
    destruct (given_id user_id); reflexivity.
  - eexists. split; [reflexivity|]. split.
    + intros _ u Hu. apply filter_In in Hu as [_ Hu].
      apply andb_true_iff in Hu as [_ Hu]. now apply negb_true_iff, Z.eqb_neq in Hu.
    + destruct (given_id user_id); reflexivity.
Qed.

Lemma role_cases (r : string) :
  r = ROLE_NADADOR \/ r = ROLE_SUPERVISOR
  \/ (r <> ROLE_NADADOR /\ r <> ROLE_SUPERVISOR).
Proof.
  destruct (String.eqb_spec r ROLE_NADADOR); [now left|].
  destruct (String.eqb_spec r ROLE_SUPERVISOR); [now right; left|].
  now right; right.
Qed.

(** C4, as stated, fails: a president who is not the hidden user lists
    and exports the hidden user's occurrences with everybody else's; only
    the users offered for selection leave the hidden user out. *)
Lemma president_lists_hidden_records :
  User.role eva = ROLE_PRESIDENTE
  /\ User.id eva <> HIDDEN_USER_ID
  /\ Occurrence.user_id occ_of_ze = HIDDEN_USER_ID
  /\ ocorrencias river_store eva no_args =
       listing_render [occ_of_rui; occ_of_ze; occ_of_ana] (Some [ana; rui])
  /\ export_csv river_store eva no_args =
       listing_render [occ_of_rui; occ_of_ze; occ_of_ana] None
  /\ ~ (forall occs us o,
          ocorrencias river_store eva no_args = listing_render occs us ->
          In o occs -> Occurrence.user_id o <> HIDDEN_USER_ID).
Proof.
  repeat split; try reflexivity; try (vm_compute; discriminate).
  intros H.
  apply (H [occ_of_rui; occ_of_ze; occ_of_ana] (Some [ana; rui]) occ_of_ze);
    [reflexivity | simpl; auto | reflexivity].
Qed.

(** C4, amended. For an acting user other than the hidden user: the users
    a listing offers ([all_users] of [ocorrencias] and of [activities],
    [users()]) never include the hidden user; the occurrences listed or
    exported for a swimmer, and for a supervisor who names no target,
    never belong to the hidden user; the listing of any other role (the
    president) is not filtered by owner when no target is named, so it
    holds every stored occurrence that passes the filters of the request,
    the hidden user's too. When the acting user is the hidden user and
    names no target, its own occurrences that pass the filters are
    listed. *)
Theorem hidden_user_left_out_of_user_lists :
  forall (s : Store) (current_user : User.t) (args : ListingArgs),
    (User.id current_user <> HIDDEN_USER_ID ->
       (forall occs us u,
           ocorrencias s current_user args = listing_render occs (Some us) ->
           In u us -> User.id u <> HIDDEN_USER_ID)
       /\ (forall us u,
           users s current_user = users_render us ->
           In u us -> User.id u <> HIDDEN_USER_ID)
       /\ (forall us u,
           activities_all_users s current_user = Some us ->
           In u us -> User.id u <> HIDDEN_USER_ID)
       /\ (User.role current_user = ROLE_NADADOR
           \/ (User.role current_user = ROLE_SUPERVISOR
               /\ given_id (arg_user_id args) = None) ->
           forall occs us o,
             (ocorrencias s current_user args = listing_render occs us
              \/ export_csv s current_user args = listing_render occs us) ->
             In o occs -> Occurrence.user_id o <> HIDDEN_USER_ID)
       /\ (User.role current_user <> ROLE_NADADOR ->
           User.role current_user <> ROLE_SUPERVISOR ->
           given_id (arg_user_id args) = None ->
           forall dates, date_filter args = Some dates ->
             exists occs us,
               ocorrencias s current_user args = listing_render occs us
               /\ forall o, In o occs <->
                    In o (occurrence_rows s)
                    /\ dates o = true /\ narrowing s args o = true))
    /\ (User.id current_user = HIDDEN_USER_ID ->
        given_id (arg_user_id args) = None ->
        forall dates, date_filter args = Some dates ->
          exists occs us,
            ocorrencias s current_user args = listing_render occs us
            /\ forall o,
                 In o (occurrence_rows s) ->
                 Occurrence.user_id o = User.id current_user ->
                 dates o = true -> narrowing s args o = true ->
                 In o occs).
Proof.
  intros s current_user args. split.
  - intros Hnot. split; [|split; [|split; [|split]]].
    + intros occs us u E Hu. apply ocorrencias_listed in E as (q & d & Hs & _).
      destruct (role_cases (User.role current_user)) as [Hr|[Hr|[Hn Hsup]]].
      * destruct (nadador_scope s current_user (arg_user_id args) Hr) as [Ho _].
        rewrite Ho in Hs. discriminate.
      * unfold ocorrencias_scope, query_get_user in Hs.
        rewrite Hr in Hs. simpl in Hs.
        destruct (given_id (arg_user_id args)) as [uid|].
        -- destruct (get_user s uid) as [t|];
             [|destruct (sqlite_integer uid); discriminate].
           destruct (negb _); [discriminate|]. injection Hs as _ <-.
           now apply listed_nadador_not_hidden in Hu.
        -- injection Hs as _ <-. now apply listed_nadador_not_hidden in Hu.
      * destruct (presidente_scope s current_user (arg_user_id args) Hn Hsup)
          as (us' & Ho & Hus & _).
        rewrite Ho in Hs. injection Hs as _ <-. now apply Hus.
    + intros us u. unfold users.
      destruct (String.eqb (User.role current_user) ROLE_NADADOR); [discriminate|].
      destruct (String.eqb (User.role current_user) ROLE_SUPERVISOR).
      * intros [= <-] Hu. now apply listed_nadador_not_hidden in Hu.
      * apply Z.eqb_neq in Hnot. rewrite Hnot. intros [= <-] Hu.
        apply filter_In in Hu as [_ Hu]. apply andb_true_iff in Hu as [_ Hu].
        now apply negb_true_iff, Z.eqb_neq in Hu.
    + intros us u. unfold activities_all_users.
      destruct (String.eqb (User.role current_user) ROLE_PRESIDENTE); [|discriminate].
      apply Z.eqb_neq in Hnot. rewrite Hnot. intros [= <-] Hu.
      apply filter_In in Hu as [_ Hu]. apply andb_true_iff in Hu as [_ Hu].
      now apply negb_true_iff, Z.eqb_neq in Hu.
    + intros Hrole occs us o E Hin.
      assert (Hq : exists q,
                 (ocorrencias_scope s current_user (arg_user_id args) = scope_of q us
                  \/ export_scope s current_user (arg_user_id args) = scope_of q us)
                 /\ q o = true).
      { destruct E as [E|E].
        - apply ocorrencias_listed in E as (q & d & Hs & _ & Hl).
          exists q. split; [now left | now apply Hl].
        - apply export_csv_listed in E as (q & d & Hs & _ & Hl).
          exists q. split; [now right | now apply Hl]. }
      destruct Hq as (q & Hs & Hqo).
      destruct Hrole as [Hr|[Hr Hid]].
      * destruct (nadador_scope s current_user (arg_user_id args) Hr) as [Ho He].
        rewrite Ho, He in Hs.
        assert (Eq : q = fun o => Occurrence.user_id o =? User.id current_user)
          by (destruct Hs as [Hs|Hs]; now injection Hs).
        rewrite Eq in Hqo. apply Z.eqb_eq in Hqo. congruence.
      * destruct (supervisor_default_scope s current_user (arg_user_id args) Hr Hid)
          as [Ho He].
        rewrite Ho, He in Hs.
        assert (Eq : q = fun o =>
                   mem_Z (Occurrence.user_id o)
                     (map User.id (filter is_listed_nadador (user_rows s))
                      ++ [User.id current_user]))
          by (destruct Hs as [Hs|Hs]; now injection Hs).
        rewrite Eq in Hqo. apply supervisor_default_scope_ids in Hqo.
        destruct Hqo as [E'|(u & _ & E' & _ & Hh)]; congruence.
    + intros Hn Hsup Hid dates Hd.
      destruct (presidente_scope s current_user (arg_user_id args) Hn Hsup)
        as (us & Ho & _ & _).
      rewrite Hid in Ho. eexists _, _. split.
      * unfold ocorrencias.
        rewrite Ho, Hd, (statement_binds_default current_user _ Hid).
        reflexivity.
      * intros o. rewrite order_by_date_desc_In, filter_In. unfold narrowing.
        rewrite !andb_true_iff. tauto.
  - intros Hhid Hid dates Hd.
    destruct (role_cases (User.role current_user)) as [Hr|[Hr|[Hn Hsup]]].
    + destruct (nadador_scope s current_user (arg_user_id args) Hr) as [Ho _].
      eexists _, _. split; [unfold ocorrencias;
         rewrite Ho, Hd, (statement_binds_default current_user _ Hid);
         reflexivity|].
      intros o Hin Hown Hdo Hno. apply order_by_date_desc_In, filter_In.
      split; [exact Hin|]. unfold narrowing in Hno.
      apply Z.eqb_eq in Hown. rewrite !andb_true_iff in *. tauto.
    + destruct (supervisor_default_scope s current_user (arg_user_id args) Hr Hid)
        as [Ho _].
      eexists _, _. split; [unfold ocorrencias;
         rewrite Ho, Hd, (statement_binds_default current_user _ Hid);
         reflexivity|].
      intros o Hin Hown Hdo Hno. apply order_by_date_desc_In, filter_In.
      split; [exact Hin|]. unfold narrowing in Hno.
      assert (Hq : mem_Z (Occurrence.user_id o)
                     (map User.id (filter is_listed_nadador (user_rows s))
                      ++ [User.id current_user]) = true)
        by (apply supervisor_default_scope_ids; now left).
      rewrite !andb_true_iff in *. tauto.
    + destruct (presidente_scope s current_user (arg_user_id args) Hn Hsup)
        as (us & Ho & _ & _).
      rewrite Hid in Ho.
      eexists _, _. split; [unfold ocorrencias;
         rewrite Ho, Hd, (statement_binds_default current_user _ Hid);
         reflexivity|].
      intros o Hin Hown Hdo Hno. apply order_by_date_desc_In, filter_In.
      split; [exact Hin|]. unfold narrowing in Hno.
      rewrite !andb_true_iff in *. tauto.
Qed.

(** C4, amended, for a president and for the hidden user itself. *)
Lemma hidden_user_left_out_of_user_lists_witness :
  (forall us u,
      users river_store eva = users_render us ->
      In u us -> User.id u <> HIDDEN_USER_ID)
  /\ exists occs us,
       ocorrencias river_store ze no_args = listing_render occs us
       /\ In occ_of_ze occs.
Proof.
  destruct (hidden_user_left_out_of_user_lists river_store eva no_args)
    as [H _].
  destruct H as (_ & Hu & _); [discriminate|].
  split; [exact Hu|].
  destruct (hidden_user_left_out_of_user_lists river_store ze no_args)
    as [_ H].
  destruct (H eq_refl eq_refl _ eq_refl) as (occs & us & E & Hin).
  exists occs, us. split; [exact E|].
  apply Hin; [simpl; auto | reflexivity | reflexivity | reflexivity].
Defined.

(** * Further properties of the code *)

(** ** Stepping through storage faults *)

Lemma fault_point_cases (c s : Store) (fs : list bool) :
  exists fs',
    fault_point (mkWorld c s fs) = (Ok tt, mkWorld c s fs')
    \/ fault_point (mkWorld c s fs) = (Raised, mkWorld c s fs').
Proof.
  unfold fault_point. simpl. destruct fs as [|[|] fs]; eexists; eauto.
Qed.

Ltac unfold_run :=
  cbv beta iota delta
    [bind ret raise try_except query modify session_add commit rollback
     guarded forget with_session];
  cbn [committed session faults].

Ltac step_fault :=
  match goal with
  | |- context [fault_point (mkWorld ?c ?s ?fs)] =>
      let fs' := fresh "fs" in
      let E := fresh "E" in
      destruct (fault_point_cases c s fs) as (fs' & [E|E]);
      rewrite E; clear E; cbv beta iota; cbn [committed session faults]
  end.

(** Whatever fails, the recorder ends on a session without pending
    changes; users, occurrences and reset tokens are as before, and so are
    the notifications when the flag is not set. *)
Lemma preserves_log_activity_unflagged (P : Store -> Prop)
    env user_id action description details ip :
  (forall f s, P s -> P (with_activity_logs f s)) ->
  preserves P (log_activity env user_id action description details ip false).
Proof.
  intros HP. unfold log_activity, add_activity.
  apply preserves_try_except.
  - apply preserves_bind; [apply preserves_session_add, HP|]. intros _.
    apply preserves_bind; [|intros _; apply preserves_commit].
    destruct (mem_string action notified_actions); [|apply preserves_ret].
    apply preserves_bind; [apply preserves_query|].
    intros [user|]; apply preserves_ret.
  - apply preserves_bind; [apply preserves_rollback | intros _; apply preserves_ret].
Qed.

Lemma log_activity_settles env user_id action description details ip notify w w' :
  log_activity env user_id action description details ip notify w = (Ok tt, w') ->
  session w' = committed w'.
Proof.
  unfold log_activity, try_except.
  match goal with
  | |- (let (_, _) := bind ?a (fun _ => bind ?b (fun _ => commit)) w in _) = _ -> _ =>
      unfold bind at 1; destruct (a w) as [[[]|] w1];
      [unfold bind at 1; destruct (b w1) as [[[]|] w2]|]
  end.
  - unfold commit, bind. destruct (fault_point w2) as [[[]|] w3].
    + intros [= <-]. reflexivity.
    + unfold rollback. simpl. intros [= <-]. reflexivity.
  - unfold rollback, bind, ret. intros [= <-]. reflexivity.
  - unfold rollback, bind, ret. intros [= <-]. reflexivity.
Qed.

Lemma log_activity_effect env user_id action description details ip notify s fs :
  exists s2 fs2,
    log_activity env user_id action description details ip notify (mkWorld s s fs) =
      (Ok tt, mkWorld s2 s2 fs2)
    /\ same_records s s2
    /\ (notify = false -> notification_rows s2 = notification_rows s).
Proof.
  destruct (log_activity_returns env user_id action description details ip notify
              (mkWorld s s fs)) as (w' & E).
  pose proof (log_activity_settles _ _ _ _ _ _ _ _ _ E) as Hs.
  pose proof (log_activity_keeps_records s env user_id action description details
                ip notify (mkWorld s s fs) (Ok tt) w'
                (conj (conj eq_refl (conj eq_refl eq_refl))
                      (conj eq_refl (conj eq_refl eq_refl))) E)
    as [Hc _].
  destruct w' as [c2 s2 fs2]. simpl in *. subst s2.
  exists c2, fs2. split; [exact E|]. split; [exact Hc|].
  intros ->.
  pose proof (preserves_log_activity_unflagged
                (fun s' => notification_rows s' = notification_rows s)
                env user_id action description details ip
                (fun f s' H => H) (mkWorld s s fs) (Ok tt)
                (mkWorld c2 c2 fs2) (conj eq_refl eq_refl) E) as [Hn _].
  exact Hn.
Qed.

Ltac step_log :=
  match goal with
  | |- context [log_activity ?e ?u ?a ?d ?dt ?i ?n (mkWorld ?s ?s ?fs)] =>
      let s2 := fresh "s" in
      let fs2 := fresh "fs" in
      let E := fresh "E" in
      let Hrec := fresh "Hrec" in
      let Hnot := fresh "Hnot" in
      destruct (log_activity_effect e u a d dt i n s fs)
        as (s2 & fs2 & E & Hrec & Hnot);
      rewrite E; clear E; cbv beta iota; cbn [committed session faults]
  end.

(** ** Deleting an occurrence *)

Lemma remove_first_In (A : Type) (p : A -> bool) (l : list A) (x : A) :
  In x (remove_first p l) -> In x l.
Proof.
  induction l as [|a l IH]; simpl; [tauto|].
  destruct (p a); simpl; tauto.
Qed.

Lemma remove_first_keeps (A : Type) (p : A -> bool) (l : list A) (x : A) :
  p x = false -> In x l -> In x (remove_first p l).
Proof.
  intros Hx. induction l as [|a l IH]; simpl; [tauto|].
  destruct (p a) eqn:E; simpl.
  - intros [->|H]; [congruence | exact H].
  - intros [->|H]; [now left | right; auto].
Qed.

Lemma remove_first_unique_gone (l : list Occurrence.t) (id : Z) :
  NoDup (map Occurrence.id l) ->
  find (fun o => Occurrence.id o =? id)
       (remove_first (fun o => Occurrence.id o =? id) l) = None.
Proof.
  induction l as [|a l IH]; simpl; [reflexivity|].
  intros Hnd. inversion Hnd as [|x l' Hnotin Hnd']; subst.
  destruct (Z.eqb_spec (Occurrence.id a) id) as [E|E].
  - apply find_none_iff. intros o Ho. apply Z.eqb_neq. intros Eo.
    apply Hnotin. rewrite E, <- Eo. now apply in_map.
  - simpl. apply Z.eqb_neq in E. rewrite E. auto.
Qed.

(** The outcomes of [delete_occurrence], fault by fault. *)
Lemma delete_occurrence_cases :
  forall (env : Env) (current_user : User.t) (id : Z) (s : Store)
         (fs : list bool),
  exists r s' fs',
    delete_occurrence env current_user id (mkWorld s s fs) =
      (r, mkWorld s' s' fs')
    /\ ((r = Ok delete_occ_done
         /\ occurrence_rows s' =
              remove_first (fun o => Occurrence.id o =? id) (occurrence_rows s)
         /\ user_rows s' = user_rows s
         /\ reset_token_rows s' = reset_token_rows s
         /\ notification_rows s' = notification_rows s
         /\ exists occ,
              get_occurrence s id = Some occ
              /\ (User.role current_user = ROLE_NADADOR ->
                  Occurrence.user_id occ = User.id current_user))
        \/ (r <> Ok delete_occ_done /\ s' = s)).
Proof.
  intros env current_user id s fs.
  unfold delete_occurrence. unfold_run. step_fault.
  2: { eexists _, _, _. split; [reflexivity|]. right. split; [discriminate | reflexivity]. }
  destruct (get_occurrence s id) as [occ|] eqn:Hocc.
  2: { eexists _, _, _. split; [reflexivity|]. right. split; [discriminate | reflexivity]. }
  destruct (String.eqb (User.role current_user) ROLE_NADADOR
            && negb (Occurrence.user_id occ =? User.id current_user)) eqn:Hperm.
  { eexists _, _, _. split; [reflexivity|]. right. split; [discriminate | reflexivity]. }
  step_fault.
  2: { eexists _, _, _. split; [reflexivity|]. right. split; [discriminate | reflexivity]. }
  step_fault.
  2: { eexists _, _, _. split; [reflexivity|]. right. split; [discriminate | reflexivity]. }
  step_log.
  eexists _, _, _. split; [reflexivity|]. left.
  destruct Hrec as (Hu & Ho & Ht). simpl in Hu, Ho, Ht.
  split; [reflexivity|]. split; [exact Ho|]. split; [exact Hu|].
  split; [exact Ht|]. split; [now apply Hnot|].
  exists occ. split; [reflexivity|]. intros Hrole.
  rewrite Hrole in Hperm. simpl in Hperm.
  apply negb_false_iff, Z.eqb_eq in Hperm. exact Hperm.
Qed.

(** X1. Whatever storage access fails, [delete_occurrence] on a fresh
    session either answers that the occurrence was removed, and then
    exactly the row the lookup returned is gone, every user, reset token
    and notification is as before, and the acting user is not a swimmer
    or owns the occurrence; or it answers otherwise (or raises at the
    lookup) and the store is as before. *)
Theorem delete_occurrence_all_or_nothing :
  forall (env : Env) (current_user : User.t) (id : Z) (s : Store)
         (fs : list bool),
  exists r s' fs',
    delete_occurrence env current_user id (mkWorld s s fs) =
      (r, mkWorld s' s' fs')
    /\ ((r = Ok delete_occ_done
         /\ occurrence_rows s' =
              remove_first (fun o => Occurrence.id o =? id) (occurrence_rows s)
         /\ user_rows s' = user_rows s
         /\ reset_token_rows s' = reset_token_rows s
         /\ notification_rows s' = notification_rows s
         /\ exists occ,
              get_occurrence s id = Some occ
              /\ (User.role current_user = ROLE_NADADOR ->
                  Occurrence.user_id occ = User.id current_user))
        \/ (r <> Ok delete_occ_done /\ s' = s)).
Proof.
  intros env current_user id s fs.
  exact (delete_occurrence_cases env current_user id s fs).
Qed.

(** X2. After a deletion that went through, with occurrence ids unique,
    the deleted id is no longer found and every listing holds what it
    held before except that occurrence. *)
Theorem deleted_occurrence_leaves_listings :
  forall (env : Env) (actor current_user : User.t) (id : Z) (s s' : Store)
         (fs fs' : list bool) (args : ListingArgs),
    NoDup (map Occurrence.id (occurrence_rows s)) ->
    delete_occurrence env actor id (mkWorld s s fs) =
      (Ok delete_occ_done, mkWorld s' s' fs') ->
    view_occurrence s' current_user id = view_occ_not_found
    /\ (ocorrencias s current_user args = listing_access_denied ->
        ocorrencias s' current_user args = listing_access_denied)
    /\ (ocorrencias s current_user args = listing_invalid_date ->
        ocorrencias s' current_user args = listing_invalid_date)
    /\ (forall occs us,
        ocorrencias s current_user args = listing_render occs us ->
        exists occs',
          ocorrencias s' current_user args = listing_render occs' us
          /\ forall o, In o occs' <-> In o occs /\ Occurrence.id o <> id).
Proof.
  intros env actor current_user id s s' fs fs' args Hnd E.
  destruct (delete_occurrence_cases env actor id s fs)
    as (r & s1 & fs1 & E1 & H).
  rewrite E in E1.
  assert (Er : r = Ok delete_occ_done) by congruence.
  assert (Es : s1 = s') by congruence. subst r s1. clear E1.
  destruct H as [(_ & Ho & Hu & _ & _ & _)|[Hne _]]; [|congruence].
  assert (Hgone : get_occurrence s' id = None).
  { unfold get_occurrence. rewrite Ho. now apply remove_first_unique_gone. }
  assert (Hscope : ocorrencias_scope s' current_user (arg_user_id args) =
                   ocorrencias_scope s current_user (arg_user_id args)).
  { unfold ocorrencias_scope, query_get_user, get_user. now rewrite Hu. }
  assert (Hsearch : forall o, search_filter s' args o = search_filter s args o).
  { intros o. unfold search_filter. now rewrite Hu. }
  assert (Hin : forall o, In o (occurrence_rows s') <->
                          In o (occurrence_rows s) /\ Occurrence.id o <> id).
  { intros o. rewrite Ho. split.
    - intros H. split; [now apply remove_first_In in H|].
      intros Eid. pose proof Hgone as Hg. unfold get_occurrence in Hg.
      rewrite Ho in Hg. rewrite find_none_iff in Hg.
      specialize (Hg o H). simpl in Hg. apply Z.eqb_neq in Hg. contradiction.
    - intros [H Hne]. apply remove_first_keeps; [now apply Z.eqb_neq | exact H]. }
  split; [|split; [|split]].
  - unfold view_occurrence. now rewrite Hgone.
  - unfold ocorrencias. rewrite Hscope.
    destruct (ocorrencias_scope s current_user (arg_user_id args));
      [reflexivity | discriminate|].
    destruct (date_filter args); [|discriminate].
    destruct (statement_binds current_user (arg_user_id args)); discriminate.
  - unfold ocorrencias. rewrite Hscope.
    destruct (ocorrencias_scope s current_user (arg_user_id args));
      [discriminate | discriminate|].
    destruct (date_filter args); [|reflexivity].
    destruct (statement_binds current_user (arg_user_id args)); discriminate.
  - intros occs us. unfold ocorrencias. rewrite Hscope.
    destruct (ocorrencias_scope s current_user (arg_user_id args)) as [| |q us'];
      [discriminate | discriminate|].
    destruct (date_filter args) as [dates|]; [|discriminate].
    destruct (statement_binds current_user (arg_user_id args)); [|discriminate].
    intros [= <- <-]. eexists. split; [reflexivity|].
    intros o. rewrite !order_by_date_desc_In, !filter_In, Hin, Hsearch. tauto.
Qed.

Lemma delete_occurrence_all_or_nothing_witness :
  exists s' fs',
    delete_occurrence at_100 ana 2 (mkWorld river_store river_store [false; true]) =
      (Ok delete_occ_access_denied, mkWorld s' s' fs')
    /\ s' = river_store.
Proof.
  destruct (delete_occurrence_all_or_nothing at_100 ana 2 river_store [false; true])
    as (r & s' & fs' & E & H).
  exists s', fs'.
  assert (Er : r = Ok delete_occ_access_denied).
  { vm_compute in E. congruence. }
  subst r. split; [exact E|].
  destruct H as [(Hr & _)|(_ & Hs)]; [discriminate | exact Hs].
Defined.

Lemma deleted_occurrence_leaves_listings_witness :
  let s' := committed (snd (delete_occurrence at_100 rui 2
                              (mkWorld river_store river_store []))) in
  view_occurrence s' eva 2 = view_occ_not_found
  /\ exists occs',
       ocorrencias s' eva no_args = listing_render occs' (Some [ana; rui])
       /\ forall o, In o occs' <->
            In o [occ_of_rui; occ_of_ze; occ_of_ana] /\ Occurrence.id o <> 2.
Proof.
  intros s'.
  assert (Hnd : NoDup (map Occurrence.id (occurrence_rows river_store))).
  { repeat constructor; simpl; intuition discriminate. }
  destruct (deleted_occurrence_leaves_listings at_100 rui eva 2 river_store s'
              [] [] no_args Hnd eq_refl) as (Hv & _ & _ & Hl).
  split; [exact Hv|]. exact (Hl _ _ eq_refl).
Defined.

(** ** Creating an occurrence, whatever fails *)

Lemma form_choices_cases catalogue (c s : Store) (fs : list bool) :
  exists fs',
    form_choices catalogue (mkWorld c s fs) = (Ok tt, mkWorld c s fs')
    \/ form_choices catalogue (mkWorld c s fs) = (Raised, mkWorld c s fs').
Proof.
  destruct (form_choices catalogue (mkWorld c s fs)) as [r [c1 s1 fs1]] eqn:E.
  destruct (form_choices_store catalogue _ _ r E) as [Hc Hs].
  simpl in Hc, Hs. subst c1 s1. exists fs1.
  destruct r as [[]|]; [now left | now right].
Qed.

(** X3. Whatever storage access fails and whatever the form holds,
    [nova_ocorrencia] on a fresh session raises exactly when one of the
    lookups of the form's choices, which come before the [try], fails,
    and the store is then as before; otherwise it redirects to the
    listing, and then the occurrences are the stored ones followed by one
    new row, owned by the acting user and carrying the form's values,
    with users and reset tokens as before; or it shows the form again and
    the store is as before. *)
Theorem nova_ocorrencia_all_or_nothing :
  forall (env : Env) (catalogue : Catalogue) (current_user : User.t)
         (form : OccurrenceForm) (s : Store) (fs : list bool),
  exists r s' fs',
    nova_ocorrencia env catalogue current_user form (mkWorld s s fs) =
      (r, mkWorld s' s' fs')
    /\ (r = Raised <-> fst (form_choices catalogue (mkWorld s s fs)) = Raised)
    /\ ((r = Ok nova_redirect_ocorrencias
         /\ exists date,
              form_datetime form = Some date
              /\ occurrence_rows s' =
                   occurrence_rows s ++
                   [Occurrence.mk (next_id Occurrence.id (occurrence_rows s))
                      date (form_zone form) (form_type form)
                      (form_description form) (User.id current_user)]
              /\ user_rows s' = user_rows s
              /\ reset_token_rows s' = reset_token_rows s)
        \/ (r = Ok nova_render_form /\ s' = s)
        \/ (r = Raised /\ s' = s)).
Proof.
  intros env catalogue current_user form s fs.
  unfold nova_ocorrencia. unfold bind at 1.
  destruct (form_choices_cases catalogue s s fs) as (fs0 & [E|E]); rewrite E.
  2: { eexists _, _, _. split; [reflexivity|]. split; [tauto|].
       right. right. now split. }
  cbn [fst].
  destruct (form_datetime form) as [date|].
  2: { unfold_run. eexists _, _, _. split; [reflexivity|].
       split; [split; discriminate|]. right. left. now split. }
  unfold_run. step_fault.
  2: { eexists _, _, _. split; [reflexivity|].
       split; [split; discriminate|]. right. left. now split. }
  step_fault.
  2: { eexists _, _, _. split; [reflexivity|].
       split; [split; discriminate|]. right. left. now split. }
  step_log.
  eexists _, _, _. split; [reflexivity|]. split; [split; discriminate|].
  left. split; [reflexivity|].
  exists date. destruct Hrec as (Hu & Ho & Ht). simpl in Hu, Ho, Ht.
  repeat split; assumption.
Qed.

(** ** Marking a notification as read, whatever fails *)

(** The outcomes of [mark_notification_read], fault by fault. *)
Lemma mark_notification_read_cases :
  forall (env : Env) (current_user : User.t) (id : Z) (s : Store)
         (fs : list bool),
  exists r s' fs',
    mark_notification_read env current_user id (mkWorld s s fs) =
      (r, mkWorld s' s' fs')
    /\ ((r = Ok mark_success
         /\ same_records s s'
         /\ exists n n',
              get_notification s id = Some n
              /\ Notification.user_id n = User.id current_user
              /\ read_version n n'
              /\ get_notification s' id = Some n'
              /\ notification_rows s' =
                   update_first (fun x => Notification.id x =? id)
                                (fun _ => n') (notification_rows s))
        \/ (r <> Ok mark_success /\ s' = s)).
Proof.
  intros env current_user id s fs.
  unfold mark_notification_read. unfold_run. step_fault.
  2: { eexists _, _, _. split; [reflexivity|]. right. split; [discriminate | reflexivity]. }
  destruct (get_notification s id) as [n|] eqn:Hn.
  2: { eexists _, _, _. split; [reflexivity|]. right. split; [discriminate | reflexivity]. }
  destruct (Z.eqb_spec (Notification.user_id n) (User.id current_user)) as [Hrcp|Hrcp];
    cbn [negb].
  2: { eexists _, _, _. split; [reflexivity|]. right. split; [discriminate | reflexivity]. }
  step_fault.
  2: { eexists _, _, _. split; [reflexivity|]. right. split; [discriminate | reflexivity]. }
  step_log.
  eexists _, _, _. split; [reflexivity|]. left. split; [reflexivity|].
  split; [exact Hrec|].
  exists n, (Notification.set_read n true).
  split; [reflexivity|]. split; [exact Hrcp|].
  split; [apply set_read_version|].
  assert (Hrows : notification_rows s0 =
                  update_first (fun x => Notification.id x =? id)
                    (fun _ => Notification.set_read n true)
                    (notification_rows s)).
  { rewrite (Hnot eq_refl). simpl.
    apply (update_first_found _ (fun x => Notification.id x =? id)
             (fun x => Notification.set_read x true) (notification_rows s) n).
    exact Hn. }
  split; [|exact Hrows].
  unfold get_notification in *. rewrite Hrows.
  apply (find_update_first_same _ (fun x => Notification.id x =? id)
           (fun _ => Notification.set_read n true) (notification_rows s) n Hn).
  simpl. apply find_some in Hn. apply Hn.
Qed.

(** X4. Whatever storage access fails, [mark_notification_read] on a
    fresh session either succeeds, and then the notification the lookup
    returned belongs to the requesting user, that row has its read flag
    set and every other column as before, no other notification row
    changed, and users, occurrences and reset tokens are as before; or it
    does not succeed and the store is as before. *)
Theorem mark_read_all_or_nothing :
  forall (env : Env) (current_user : User.t) (id : Z) (s : Store)
         (fs : list bool),
  exists r s' fs',
    mark_notification_read env current_user id (mkWorld s s fs) =
      (r, mkWorld s' s' fs')
    /\ ((r = Ok mark_success
         /\ same_records s s'
         /\ exists n n',
              get_notification s id = Some n
              /\ Notification.user_id n = User.id current_user
              /\ read_version n n'
              /\ get_notification s' id = Some n'
              /\ notification_rows s' =
                   update_first (fun x => Notification.id x =? id)
                                (fun _ => n') (notification_rows s))
        \/ (r <> Ok mark_success /\ s' = s)).
Proof.
  intros env current_user id s fs.
  exact (mark_notification_read_cases env current_user id s fs).
Qed.

Lemma mark_read_all_or_nothing_witness :
  exists s' fs',
    mark_notification_read at_100 rui 1
      (mkWorld inbox_store inbox_store [false; true]) =
      (Ok mark_server_error, mkWorld s' s' fs')
    /\ s' = inbox_store.
Proof.
  destruct (mark_read_all_or_nothing at_100 rui 1 inbox_store [false; true])
    as (r & s' & fs' & E & H).
  exists s', fs'.
  assert (Er : r = Ok mark_server_error).
  { vm_compute in E. congruence. }
  subst r. split; [exact E|].
  destruct H as [(Hr & _)|(_ & Hs)]; [discriminate | exact Hs].
Defined.

(** ** The unread counter *)

Lemma unread_after_mark (rows : list Notification.t) (id uid : Z)
    (n n' : Notification.t) :
  find (fun n => Notification.id n =? id) rows = Some n ->
  Notification.read n' = true ->
  List.length
    (filter (fun m => (Notification.user_id m =? uid) && negb (Notification.read m))
       (update_first (fun n => Notification.id n =? id)
                     (fun _ => n') rows)) =
  Nat.sub
    (List.length
       (filter (fun m => (Notification.user_id m =? uid) && negb (Notification.read m))
          rows))
    (if (Notification.user_id n =? uid) && negb (Notification.read n)
     then 1%nat else 0%nat).
Proof.
  induction rows as [|a rows IH]; simpl; [discriminate|].
  destruct (Notification.id a =? id) eqn:Eid.
  - intros [= ->] Hread. simpl. rewrite Hread. simpl. rewrite andb_false_r.
    destruct ((Notification.user_id n =? uid) && negb (Notification.read n));
      simpl; lia.
  - intros Hn Hread. simpl. specialize (IH Hn Hread).
    destruct ((Notification.user_id a =? uid) && negb (Notification.read a)); simpl.
    + rewrite IH.
      assert (Hpos : Nat.le
                       (if (Notification.user_id n =? uid) && negb (Notification.read n)
                        then 1%nat else 0%nat)
                       (List.length
                          (filter (fun m => (Notification.user_id m =? uid)
                                            && negb (Notification.read m)) rows))).
      { destruct ((Notification.user_id n =? uid) && negb (Notification.read n)) eqn:En;
          [|lia].
        apply find_some in Hn as [Hin _].
        assert (Hf : In n (filter (fun m => (Notification.user_id m =? uid)
                                            && negb (Notification.read m)) rows))
          by (apply filter_In; now split).
        destruct (filter _ rows); [destruct Hf | simpl; lia]. }
      destruct ((Notification.user_id n =? uid) && negb (Notification.read n));
        simpl in *; lia.
    + exact IH.
Qed.

(** X5. The unread counter of the page header never raises: it is the
    number of unread notifications of the user, or 0 when the count
    query fails or nobody is authenticated. A successful
    [mark_notification_read] lowers the requesting user's counter by one
    when the notification was unread, leaves it when it was already read,
    and never changes another user's counter. *)
Theorem unread_counter_follows_mark_read :
  forall (env : Env) (current_user : User.t) (id : Z) (s s' : Store)
         (fs fs' : list bool) (n : Notification.t),
    get_notification s id = Some n ->
    mark_notification_read env current_user id (mkWorld s s fs) =
      (Ok mark_success, mkWorld s' s' fs') ->
    unread_count s' (User.id current_user) =
      Nat.sub (unread_count s (User.id current_user))
              (if Notification.read n then 0%nat else 1%nat)
    /\ (forall other, other <> User.id current_user ->
        unread_count s' other = unread_count s other)
    /\ inject_unread_notification_count (Some current_user) (mkWorld s' s' []) =
         (Ok (unread_count s' (User.id current_user)), mkWorld s' s' [])
    /\ (forall c fs0, exists k w',
          inject_unread_notification_count (Some current_user) (mkWorld c s' fs0) =
            (Ok k, w')
          /\ (k = unread_count s' (User.id current_user) \/ k = 0%nat))
    /\ (forall w, inject_unread_notification_count None w = (Ok 0%nat, w)).
Proof.
  intros env current_user id s s' fs fs' n Hn E.
  destruct (mark_notification_read_cases env current_user id s fs)
    as (r & s1 & fs1 & E1 & H).
  rewrite E in E1.
  assert (Er : r = Ok mark_success) by congruence.
  assert (Es : s1 = s') by congruence. subst r s1. clear E1.
  destruct H as [(_ & _ & n0 & n' & Hn0 & Hrcp & Hversion & _ & Hrows)|[Hne _]];
    [|congruence].
  rewrite Hn in Hn0. injection Hn0 as <-.
  destruct Hversion as (Hread & _).
  split; [|split; [|split; [|split]]].
  - unfold unread_count. rewrite Hrows.
    rewrite (unread_after_mark _ id (User.id current_user) n n' Hn Hread).
    rewrite Hrcp, Z.eqb_refl. simpl. now destruct (Notification.read n).
  - intros other Hother. unfold unread_count. rewrite Hrows.
    rewrite (unread_after_mark _ id other n n' Hn Hread).
    rewrite Hrcp. apply not_eq_sym, Z.eqb_neq in Hother. rewrite Hother.
    simpl. lia.
  - reflexivity.
  - intros c fs0. unfold inject_unread_notification_count. unfold_run.
    step_fault; eexists _, _; (split; [reflexivity|]); [now left | now right].
  - intros w. reflexivity.
Qed.

Lemma unread_counter_follows_mark_read_witness :
  let s' := committed (snd (mark_notification_read at_100 rui 1
                              (mkWorld inbox_store inbox_store []))) in
  unread_count inbox_store 2 = 1%nat /\ unread_count s' 2 = 0%nat.
Proof.
  intros s'. split; [reflexivity|].
  destruct (unread_counter_follows_mark_read at_100 rui 1 inbox_store s' [] []
              unread_for_rui eq_refl eq_refl) as (H & _).
  exact H.
Defined.

(** ** The audit recorder writes all or nothing *)

Section FaultBlind.

Lemma fault_blind_ret (A : Type) (a : A) : fault_blind (ret a).
Proof. intros w a' w' [= <- <-]. reflexivity. Qed.

Lemma fault_blind_raise (A : Type) : fault_blind (raise A).
Proof. intros w a w'. discriminate. Qed.

Lemma fault_blind_fault_point : fault_blind fault_point.
Proof.
  intros w a w'. unfold fault_point.
  destruct (faults w) as [|[|] fs]; simpl; intros E; try discriminate;
    injection E as <- <-; reflexivity.
Qed.

Lemma fault_blind_bind (A B : Type) (m : M A) (k : A -> M B) :
  fault_blind m -> (forall a, fault_blind (k a)) -> fault_blind (bind m k).
Proof.
  intros Hm Hk w b w'. unfold bind.
  destruct (m w) as [[a|] w1] eqn:E; [|discriminate].
  intros Ek. rewrite (Hm _ _ _ E). exact (Hk a _ _ _ Ek).
Qed.

Lemma fault_blind_query (A : Type) (q : Store -> A) : fault_blind (query q).
Proof.
  apply fault_blind_bind; [exact fault_blind_fault_point|].
  intros _ w a w' [= <- <-]. reflexivity.
Qed.

Lemma fault_blind_modify (f : Store -> Store) : fault_blind (modify f).
Proof. intros w a w' [= <- <-]. reflexivity. Qed.

Lemma fault_blind_session_add (f : Store -> Store) : fault_blind (session_add f).
Proof.
  apply fault_blind_bind; [exact fault_blind_fault_point|].
  intros _. apply fault_blind_modify.
Qed.

Lemma fault_blind_commit : fault_blind commit.
Proof.
  apply fault_blind_bind; [exact fault_blind_fault_point|].
  intros _ w a w' [= <- <-]. reflexivity.
Qed.

Lemma fault_blind_for_each (A : Type) (xs : list A) (body : A -> M unit) :
  (forall x, fault_blind (body x)) -> fault_blind (for_each xs body).
Proof.
  intros Hb. induction xs as [|x xs IH]; simpl.
  - apply fault_blind_ret.
  - apply fault_blind_bind; [apply Hb | intros _; exact IH].
Qed.

Lemma uncommitted_ret (A : Type) (a : A) : uncommitted (ret a).
Proof. intros w r w' [= _ <-]. reflexivity. Qed.

Lemma uncommitted_raise (A : Type) : uncommitted (raise A).
Proof. intros w r w' [= _ <-]. reflexivity. Qed.

Lemma uncommitted_fault_point : uncommitted fault_point.
Proof. intros w r w' E. now apply fault_point_store in E. Qed.

Lemma uncommitted_bind (A B : Type) (m : M A) (k : A -> M B) :
  uncommitted m -> (forall a, uncommitted (k a)) -> uncommitted (bind m k).
Proof.
  intros Hm Hk w r w'. unfold bind.
  destruct (m w) as [[a|] w1] eqn:E.
  - intros Ek. rewrite (Hk a _ _ _ Ek). exact (Hm _ _ _ E).
  - intros [= _ <-]. exact (Hm _ _ _ E).
Qed.

Lemma uncommitted_query (A : Type) (q : Store -> A) : uncommitted (query q).
Proof.
  apply uncommitted_bind; [exact uncommitted_fault_point|].
  intros _ w r w' [= _ <-]. reflexivity.
Qed.

Lemma uncommitted_session_add (f : Store -> Store) : uncommitted (session_add f).
Proof.
  apply uncommitted_bind; [exact uncommitted_fault_point|].
  intros _ w r w' [= _ <-]. reflexivity.
Qed.

Lemma uncommitted_for_each (A : Type) (xs : list A) (body : A -> M unit) :
  (forall x, uncommitted (body x)) -> uncommitted (for_each xs body).
Proof.
  intros Hb. induction xs as [|x xs IH]; simpl.
  - apply uncommitted_ret.
  - apply uncommitted_bind; [apply Hb | intros _; exact IH].
Qed.

End FaultBlind.

(** What [log_activity] does between its insert of the audit entry and
    its commit. *)
Lemma log_activity_fan_out_part env user_id action details notify :
  let part :=
    (if mem_string action notified_actions then
       user <- query (fun s => get_user s user_id) ;;
       match user with
       | Some user =>
           let text := notification_text action user details in
           let notif_link := notification_link action details in
           if (notify : bool) then
             supervisors <- query (fun s => filter is_notified (user_rows s)) ;;
             for_each supervisors (fun supervisor =>
               match text with
               | Some (title, message) =>
                   add_notification env (User.id supervisor) title message
                     notif_link
               | None => raise unit
               end)
           else ret tt
       | None => ret tt
       end
     else ret tt) in
  fault_blind part /\ uncommitted part.
Proof.
  intros part. subst part. split.
  - destruct (mem_string action notified_actions); [|apply fault_blind_ret].
    apply fault_blind_bind; [apply fault_blind_query|].
    intros [user|]; [|apply fault_blind_ret].
    destruct notify; [|apply fault_blind_ret].
    apply fault_blind_bind; [apply fault_blind_query|]. intros supervisors.
    apply fault_blind_for_each. intros supervisor.
    destruct (notification_text action user details) as [[title message]|].
    + apply fault_blind_session_add.
    + apply fault_blind_raise.
  - destruct (mem_string action notified_actions); [|apply uncommitted_ret].
    apply uncommitted_bind; [apply uncommitted_query|].
    intros [user|]; [|apply uncommitted_ret].
    destruct notify; [|apply uncommitted_ret].
    apply uncommitted_bind; [apply uncommitted_query|]. intros supervisors.
    apply uncommitted_for_each. intros supervisor.
    destruct (notification_text action user details) as [[title message]|].
    + apply uncommitted_session_add.
    + apply uncommitted_raise.
Qed.

(** X6. Whatever storage access fails, [log_activity] on a fresh session
    leaves either the store as it was, or exactly the store a run without
    faults leaves: the audit entry and every notification of the fan-out
    are written together or not at all. *)
Theorem log_activity_all_or_nothing :
  forall (env : Env) (user_id : Z) (action description : string)
         (details : option Details) (ip : option string) (notify : bool)
         (s : Store) (fs : list bool),
  exists s' fs',
    log_activity env user_id action description details ip notify
      (mkWorld s s fs) = (Ok tt, mkWorld s' s' fs')
    /\ (s' = s
        \/ log_activity env user_id action description details ip notify
             (mkWorld s s []) = (Ok tt, mkWorld s' s' [])).
Proof.
  intros env user_id action description details ip notify s fs.
  destruct (log_activity_fan_out_part env user_id action details notify)
    as [Hblind Hunc].
  cbv zeta in Hblind, Hunc.
  unfold log_activity, try_except.
  match goal with
  | |- context [bind ?a (fun _ => bind ?b (fun _ => commit))] =>
      set (first := a); set (part := b) in *
  end.
  assert (Hbody : fault_blind (bind first (fun _ => bind part (fun _ => commit)))).
  { apply fault_blind_bind; [apply fault_blind_session_add|]. intros _.
    apply fault_blind_bind; [exact Hblind|]. intros _. apply fault_blind_commit. }
  destruct (bind first (fun _ => bind part (fun _ => commit)) (mkWorld s s fs))
    as [[[]|] w1] eqn:Eb.
  - pose proof (Hbody _ _ _ Eb) as Eq. cbn [committed session] in Eq.
    assert (Hs : session w1 = committed w1).
    { revert Eb. unfold bind at 1.
      destruct (first (mkWorld s s fs)) as [[[]|] wa]; [|discriminate].
      unfold bind at 1. destruct (part wa) as [[[]|] wb]; [|discriminate].
      unfold commit, bind. destruct (fault_point wb) as [[[]|] wc]; [|discriminate].
      intros [= <-]. reflexivity. }
    destruct w1 as [c1 s1 fs1]. simpl in Hs. subst s1.
    exists c1, fs1. split; [reflexivity|]. right.
    fold first. rewrite Eq. reflexivity.
  - assert (Hc : committed w1 = s).
    { revert Eb. unfold bind at 1.
      destruct (first (mkWorld s s fs)) as [[[]|] wa] eqn:Ea.
      - assert (Hca : committed wa = s)
          by (exact (uncommitted_session_add _ _ _ _ Ea)).
        unfold bind at 1. destruct (part wa) as [[[]|] wb] eqn:Ep.
        + assert (Hcb : committed wb = s)
            by (rewrite (Hunc _ _ _ Ep); exact Hca).
          unfold commit, bind.
          destruct (fault_point wb) as [[[]|] wc] eqn:Ef; [discriminate|].
          intros [= <-]. apply fault_point_store in Ef as [Ef _]. congruence.
        + intros [= <-]. rewrite (Hunc _ _ _ Ep). exact Hca.
      - intros [= <-]. exact (uncommitted_session_add _ _ _ _ Ea). }
    unfold rollback, bind, ret. exists s, (faults w1). rewrite Hc.
    split; [reflexivity | now left].
Qed.

(** ** Suspending and reactivating users *)

(** The reason of a suspension, as [toggle_user_status] reads it. *)
Lemma set_is_active_back (u : User.t) :
  User.set_is_active (User.set_is_active u (negb (User.is_active u)))
                     (User.is_active u) = u.
Proof. destruct u. reflexivity. Qed.

Lemma update_first_twice (A : Type) (p : A -> bool) (f g : A -> A)
    (l : list A) (x : A) :
  find p l = Some x -> p (f x) = true -> g (f x) = x ->
  update_first p g (update_first p f l) = l.
Proof.
  induction l as [|a l IH]; simpl; [discriminate|].
  destruct (p a) eqn:E.
  - intros [= ->] Hp Hg. simpl. now rewrite Hp, Hg.
  - intros Hx Hp Hg. simpl. rewrite E. now rewrite IH.
Qed.

(** The handler stops here and nothing was written. *)
Ltac stop_here :=
  eexists _, _, _; split; [reflexivity|]; right;
  split; [discriminate | reflexivity].

(** X7. Whatever storage access fails, [toggle_user_status] on a fresh
    session either flips the flag or leaves the store as it was. When
    the flag is flipped, only the [is_active] flag of the row the lookup
    returned changed, that row is not the acting user's, the acting user
    is not a swimmer, a supervisor acted on a swimmer, a suspension came
    with a reason that [strip()] does not empty, and occurrences, reset
    tokens and notifications are as before; the request reports the
    change, or, when the row cannot be read again after the commit, a
    failure, with the flag committed all the same and no audit entry.
    In every other case the report is not the one of a change and the
    store is as before. *)
Theorem toggle_user_status_all_or_nothing :
  forall (env : Env) (current_user : User.t) (id : Z) (reason : string)
         (s : Store) (fs : list bool),
  exists r s' fs',
    toggle_user_status env current_user id reason (mkWorld s s fs) =
      (r, mkWorld s' s' fs')
    /\ ((exists target,
            get_user s id = Some target
            /\ (r = Ok toggle_done
                \/ (r = Ok toggle_failed
                    /\ activity_log_rows s' = activity_log_rows s))
            /\ user_rows s' =
                 update_first (fun u => User.id u =? id)
                   (fun u => User.set_is_active u (negb (User.is_active target)))
                   (user_rows s)
            /\ User.id target <> User.id current_user
            /\ User.role current_user <> ROLE_NADADOR
            /\ (User.role current_user = ROLE_SUPERVISOR ->
                User.role target = ROLE_NADADOR)
            /\ (User.is_active target = true ->
                string_of_list_ascii (strip (list_ascii_of_string reason)) <> "")
            /\ occurrence_rows s' = occurrence_rows s
            /\ reset_token_rows s' = reset_token_rows s
            /\ notification_rows s' = notification_rows s)
        \/ (r <> Ok toggle_done /\ s' = s)).
Proof.
  intros env current_user id reason s fs.
  unfold toggle_user_status.
  destruct (String.eqb_spec (User.role current_user) ROLE_NADADOR) as [Hn|Hn].
  { unfold_run. stop_here. }
  unfold_run. step_fault.
  2: { eexists _, _, _. split; [reflexivity|]. right. split; [discriminate | reflexivity]. }
  destruct (get_user s id) as [target|] eqn:Hget.
  2: { stop_here. }
  destruct (String.eqb (User.role current_user) ROLE_SUPERVISOR
            && negb (String.eqb (User.role target) ROLE_NADADOR)) eqn:Hsup.
  { stop_here. }
  destruct (Z.eqb_spec (User.id target) (User.id current_user)) as [Hself|Hself].
  { stop_here. }
  destruct (negb (negb (User.is_active target))
            && String.eqb
                 (if negb (negb (User.is_active target))
                  then string_of_list_ascii (strip (list_ascii_of_string reason))
                  else "") "") eqn:Hreason.
  { stop_here. }
  assert (Hsupervisor : User.role current_user = ROLE_SUPERVISOR ->
                        User.role target = ROLE_NADADOR).
  { intros Hrole. rewrite Hrole in Hsup. simpl in Hsup.
    now apply negb_false_iff, String.eqb_eq in Hsup. }
  assert (Hblank : User.is_active target = true ->
                   string_of_list_ascii (strip (list_ascii_of_string reason)) <> "").
  { intros Hact Hb. rewrite Hact in Hreason. simpl in Hreason.
    rewrite Hb in Hreason. discriminate. }
  step_fault.
  2: { stop_here. }
  step_fault.
  2: { eexists _, _, _. split; [reflexivity|]. left. exists target.
       split; [reflexivity|]. split; [right; now split|].
       repeat (split; [first [assumption | reflexivity]|]). reflexivity. }
  step_log.
  eexists _, _, _. split; [reflexivity|]. left.
  exists target. destruct Hrec as (Hu & Ho & Ht). simpl in Hu, Ho, Ht.
  split; [reflexivity|]. split; [now left|]. split; [exact Hu|].
  split; [exact Hself|]. split; [exact Hn|]. split; [exact Hsupervisor|].
  split; [exact Hblank|]. split; [exact Ho|]. split; [exact Ht|].
  now apply Hnot.
Qed.

(** X7 when the row cannot be read again after the commit. *)
Lemma toggle_user_status_all_or_nothing_witness :
  exists s' fs',
    toggle_user_status at_100 eva 1 "falta"
      (mkWorld staffed_store staffed_store [false; false; true]) =
      (Ok toggle_failed, mkWorld s' s' fs')
    /\ get_user s' 1 = Some (User.set_is_active ana false)
    /\ activity_log_rows s' = activity_log_rows staffed_store.
Proof.
  destruct (toggle_user_status_all_or_nothing at_100 eva 1 "falta"
              staffed_store [false; false; true]) as (r & s' & fs' & E & H).
  exists s', fs'.
  assert (Er : r = Ok toggle_failed /\ user_rows s' <> user_rows staffed_store).
  { vm_compute in E. injection E as <- <- _. split; [reflexivity | discriminate]. }
  destruct Er as [-> Hchanged]. split; [exact E|].
  destruct H as [(target & Hget & [Hr|[_ Hlog]] & Hu & _)|[_ Hs]].
  - discriminate.
  - split; [|exact Hlog]. injection Hget as <-. unfold get_user. rewrite Hu.
    reflexivity.
  - now subst s'.
Defined.

(** [toggle_user_status] without faults, when its checks pass. *)
Lemma toggle_quiet env current_user id reason c s target :
  String.eqb (User.role current_user) ROLE_NADADOR = false ->
  get_user s id = Some target ->
  String.eqb (User.role current_user) ROLE_SUPERVISOR
    && negb (String.eqb (User.role target) ROLE_NADADOR) = false ->
  User.id target <> User.id current_user ->
  (User.is_active target = true ->
   String.eqb (string_of_list_ascii (strip (list_ascii_of_string reason))) "" = false) ->
  exists s',
    toggle_user_status env current_user id reason (mkWorld c s []) =
      (Ok toggle_done, mkWorld s' s' [])
    /\ user_rows s' =
         update_first (fun u => User.id u =? id)
           (fun u => User.set_is_active u (negb (User.is_active target)))
           (user_rows s)
    /\ occurrence_rows s' = occurrence_rows s
    /\ notification_rows s' = notification_rows s
    /\ reset_token_rows s' = reset_token_rows s.
Proof.
  intros Hrole Hget Hsup Hself Hreason.
  unfold toggle_user_status. rewrite Hrole.
  unfold bind at 1. rewrite query_quiet by reflexivity. cbn [session].
  rewrite Hget, Hsup. apply Z.eqb_neq in Hself. rewrite Hself.
  assert (Hr : negb (negb (User.is_active target))
               && String.eqb
                    (if negb (negb (User.is_active target))
                     then string_of_list_ascii (strip (list_ascii_of_string reason))
                     else "") "" = false).
  { destruct (User.is_active target); simpl; [now apply Hreason | reflexivity]. }
  rewrite Hr.
  unfold try_except, modify, bind at 1 2. unfold with_session.
  cbn [session committed faults]. unfold bind at 1.
  rewrite commit_quiet by reflexivity. cbn [session].
  unfold bind at 1. rewrite query_quiet by reflexivity.
  unfold guarded, try_except, bind.
  rewrite log_activity_quiet_unnotified.
  eexists. split; [reflexivity|]. repeat split.
Qed.

(** X8. Without storage faults, suspending an active user, with a reason
    that [strip()] does not empty, and then reactivating that user gives
    back the users table exactly as it was; in between the user is stored
    as inactive and [load_user] rejects the user's session, which it
    accepts again afterwards; the reactivation needs no reason. *)
Theorem suspend_then_reactivate_restores :
  forall (env env2 : Env) (current_user : User.t) (id : Z)
         (reason reason2 user_id : string) (c s : Store) (target : User.t),
    String.eqb (User.role current_user) ROLE_NADADOR = false ->
    get_user s id = Some target ->
    String.eqb (User.role current_user) ROLE_SUPERVISOR
      && negb (String.eqb (User.role target) ROLE_NADADOR) = false ->
    User.id target <> User.id current_user ->
    User.is_active target = true ->
    String.eqb (string_of_list_ascii (strip (list_ascii_of_string reason))) "" = false ->
    plain_text user_id = true ->
    py_int user_id = Some id ->
    exists s1 s2,
      toggle_user_status env current_user id reason (mkWorld c s []) =
        (Ok toggle_done, mkWorld s1 s1 [])
      /\ load_user s1 user_id = Ok None
      /\ toggle_user_status env2 current_user id reason2 (mkWorld s1 s1 []) =
           (Ok toggle_done, mkWorld s2 s2 [])
      /\ user_rows s2 = user_rows s
      /\ load_user s2 user_id = Ok (Some target).
Proof.
  intros env env2 current_user id reason reason2 user_id c s target
         Hrole Hget Hsup Hself Hact Hreason _ Hparse.
  assert (Hid : (User.id target =? id) = true).
  { unfold get_user in Hget. apply find_some in Hget. apply Hget. }
  destruct (toggle_quiet env current_user id reason c s target Hrole Hget Hsup
              Hself (fun _ => Hreason)) as (s1 & E1 & Hu1 & _).
  rewrite Hact in Hu1. simpl in Hu1.
  assert (Hget1 : get_user s1 id = Some (User.set_is_active target false)).
  { unfold get_user. rewrite Hu1.
    apply (find_update_first_same _ (fun u => User.id u =? id)
             (fun u => User.set_is_active u false) (user_rows s) target);
      [exact Hget | exact Hid]. }
  destruct (toggle_quiet env2 current_user id reason2 s1 s1
              (User.set_is_active target false) Hrole Hget1 Hsup Hself)
    as (s2 & E2 & Hu2 & _); [discriminate|].
  simpl in Hu2.
  assert (Hback : user_rows s2 = user_rows s).
  { rewrite Hu2, Hu1.
    apply (update_first_twice _ (fun u => User.id u =? id)
             (fun u => User.set_is_active u false)
             (fun u => User.set_is_active u true) (user_rows s) target);
      [exact Hget | exact Hid |].
    pose proof (set_is_active_back target) as Hb. rewrite Hact in Hb. exact Hb. }
  exists s1, s2. split; [exact E1|]. split.
  - unfold load_user, query_get_user. now rewrite Hparse, Hget1.
  - split; [exact E2|]. split; [exact Hback|].
    unfold load_user, query_get_user, get_user. rewrite Hparse, Hback.
    unfold get_user in Hget. now rewrite Hget, Hact.
Qed.

Lemma suspend_then_reactivate_restores_witness :
  exists s1 s2,
    toggle_user_status at_100 rui 1 " falta " (mkWorld staffed_store staffed_store []) =
      (Ok toggle_done, mkWorld s1 s1 [])
    /\ load_user s1 "1" = Ok None
    /\ toggle_user_status at_100 rui 1 "" (mkWorld s1 s1 []) =
         (Ok toggle_done, mkWorld s2 s2 [])
    /\ user_rows s2 = user_rows staffed_store
    /\ load_user s2 "1" = Ok (Some ana).
Proof.
  apply (suspend_then_reactivate_restores at_100 at_100 rui 1 " falta " "" "1"
           staffed_store staffed_store ana); try reflexivity.
  simpl. lia.
Defined.

(** ** Passwords *)

Lemma set_then_check (u : User.t) (password : string) :
  password <> "" ->
  User.check_password (User.set_password u password) password = true
  /\ forall other, other <> password ->
       User.check_password (User.set_password u password) other = false.
Proof.
  intros Hne. apply String.eqb_neq in Hne.
  unfold User.check_password, User.set_password. rewrite Hne. simpl.
  rewrite String.eqb_refl. split; [reflexivity|].
  intros other Ho. destruct (String.eqb other ""); [reflexivity|].
  apply String.eqb_neq. congruence.
Qed.

Lemma set_password_keeps (u : User.t) (password : string) :
  User.id (User.set_password u password) = User.id u
  /\ User.email (User.set_password u password) = User.email u
  /\ User.role (User.set_password u password) = User.role u
  /\ User.is_active (User.set_password u password) = User.is_active u.
Proof.
  unfold User.set_password. destruct (String.eqb password ""); repeat split.
Qed.

(** The row found by one key is still the row found by another key after
    it has been updated through the first. *)
Lemma find_update_first_other (A : Type) (p q : A -> bool) (f : A -> A)
    (l : list A) (x : A) :
  find p l = Some x -> find q l = Some x -> q (f x) = true ->
  find q (update_first p f l) = Some (f x).
Proof.
  induction l as [|a l IH]; simpl; [discriminate|].
  destruct (p a) eqn:Ep.
  - intros [= ->] _ Hq. simpl. now rewrite Hq.
  - destruct (q a) eqn:Eq.
    + intros Hp [= ->]. apply find_some in Hp as [_ Hp]. congruence.
    + intros Hp Hqx Hq. simpl. rewrite Eq. auto.
Qed.

Lemma validated_password_given (password : string) :
  validated_password password = true -> password <> "".
Proof. intros H ->. vm_compute in H. discriminate. Qed.



(** X10. When the password has been committed and the audit entry that
    follows cannot be stored, [change_password] reports a failure although
    the new password is in force: the stored user checks against the new
    password and the rollback undoes nothing. *)
Theorem change_password_failure_after_commit :
  forall (env : Env) (current_user : User.t)
         (current_password new_password : string) (s : Store)
         (audit_faults later : list bool),
    get_user s (User.id current_user) = Some current_user ->
    User.check_password current_user current_password = true ->
    new_password <> "" ->
    (audit_faults = true :: later \/ audit_faults = false :: true :: later) ->
    exists s',
      change_password env current_user current_password new_password
        (mkWorld s s (false :: audit_faults)) =
        (Ok change_password_failed, mkWorld s' s' later)
      /\ get_user s' (User.id current_user) =
           Some (User.set_password current_user new_password)
      /\ User.check_password
           (User.set_password current_user new_password) new_password = true
      /\ activity_log_rows s' = activity_log_rows s.
Proof.
  intros env current_user current_password new_password s audit_faults later
         Hget Hright Hne Hfaults.
  assert (Hid : (User.id current_user =? User.id current_user) = true)
    by apply Z.eqb_refl.
  destruct (set_then_check current_user new_password Hne) as [Hok _].
  assert (Hfound :
    find (fun u => User.id u =? User.id current_user)
      (update_first (fun u => User.id u =? User.id current_user)
         (fun u => User.set_password u new_password) (user_rows s)) =
    Some (User.set_password current_user new_password)).
  { apply (find_update_first_same _
             (fun u => User.id u =? User.id current_user)
             (fun u => User.set_password u new_password) (user_rows s)
             current_user);
        [exact Hget
        | rewrite (proj1 (set_password_keeps current_user new_password)); exact Hid]. }
  unfold change_password. rewrite Hright.
  destruct Hfaults as [-> | ->]; run_quiet;
    (eexists; split; [reflexivity|]; split; [exact Hfound|];
     split; [exact Hok | reflexivity]).
Qed.

Lemma change_password_failure_after_commit_witness :
  exists s',
    change_password at_100 ana "antiga" "nova-senha"
      (mkWorld staffed_store staffed_store [false; true]) =
      (Ok change_password_failed, mkWorld s' s' [])
    /\ get_user s' 1 = Some (User.set_password ana "nova-senha").
Proof.
  destruct (change_password_failure_after_commit at_100 ana "antiga" "nova-senha"
              staffed_store [true] [] eq_refl eq_refl)
    as (s' & E & Hg & _); [discriminate | now left |].
  exists s'. split; [exact E | exact Hg].
Defined.

(** ** Creating and editing users *)

Lemma next_id_above (A : Type) (key : A -> Z) (rows : list A) (x : A) :
  In x rows -> key x < next_id key rows.
Proof.
  unfold next_id. induction rows as [|a rows IH]; cbn [fold_right In]; [tauto|].
  intros [->|H]; [lia|]. specialize (IH H). lia.
Qed.

Lemma NoDup_snoc (A : Type) (l : list A) (x : A) :
  NoDup l -> ~ In x l -> NoDup (l ++ [x]).
Proof.
  induction 1 as [|a l Ha Hl IH]; simpl; intros Hx.
  - constructor; [tauto | constructor].
  - constructor.
    + rewrite in_app_iff. simpl. intros [H|[H|[]]]; [tauto|]. apply Hx. now left.
    + apply IH. tauto.
Qed.

Lemma new_user_insert_cases env current_user form s fs :
  exists fs',
    (exists dirty,
        new_user_insert env current_user form (mkWorld s s fs) =
          (Raised, mkWorld s dirty fs'))
    \/ (exists r,
        r <> new_user_created
        /\ new_user_insert env current_user form (mkWorld s s fs) =
             (Ok r, mkWorld s s fs'))
    \/ (exists s',
        new_user_insert env current_user form (mkWorld s s fs) =
          (Ok new_user_created, mkWorld s' s' fs')
        /\ user_rows s' =
             user_rows s ++
             [User.mk (next_id User.id (user_rows s)) (reg_name form)
                (reg_email form) (tax_number_of form)
                (generate_password_hash (reg_password form)) (reg_role form) true]
        /\ (User.role current_user = ROLE_SUPERVISOR ->
            reg_role form = ROLE_NADADOR)
        /\ In (reg_role form) [ROLE_NADADOR; ROLE_SUPERVISOR; ROLE_PRESIDENTE]
        /\ reg_password form <> ""
        /\ occurrence_rows s' = occurrence_rows s
        /\ reset_token_rows s' = reset_token_rows s
        /\ notification_rows s' = notification_rows s).
Proof.
  unfold new_user_insert.
  destruct (String.eqb (User.role current_user) ROLE_SUPERVISOR
            && negb (String.eqb (reg_role form) ROLE_NADADOR)) eqn:Hsup.
  { exists fs. right. left. eexists. split; [|reflexivity]. discriminate. }
  destruct (mem_string (reg_role form)
              [ROLE_NADADOR; ROLE_SUPERVISOR; ROLE_PRESIDENTE]) eqn:Hrole; cbn [negb].
  2: { exists fs. right. left. eexists. split; [|reflexivity]. discriminate. }
  unfold_run. step_fault.
  2: { eexists. left. eexists. reflexivity. }
  destruct (String.eqb_spec (reg_password form) "") as [Hpw|Hpw].
  { eexists. left. eexists. reflexivity. }
  step_fault.
  2: { eexists. left. eexists. reflexivity. }
  step_log.
  eexists. right. right. eexists. split; [reflexivity|].
  destruct Hrec as (Hu & Ho & Ht). simpl in Hu, Ho, Ht.
  split; [exact Hu|]. split; [|split; [|split; [exact Hpw|]]].
  - intros Hr. rewrite Hr in Hsup. simpl in Hsup.
    now apply negb_false_iff, String.eqb_eq in Hsup.
  - unfold mem_string in Hrole. apply existsb_exists in Hrole as (x & Hx & E).
    apply String.eqb_eq in E. now subst.
  - split; [exact Ho|]. split; [exact Ht | now apply Hnot].
Qed.

(** X11. Whatever storage access fails, [new_user] on a fresh session
    returns without raising. Either it reports the creation, and then one
    row was appended to the users, active, with the form's name, email,
    NIF and role and a fresh id; the creator is not a swimmer, a
    supervisor created a swimmer, the role is one of the three, the
    password is not empty, and no stored user had that email or that
    NIF; or it reports anything else and the store is as before. Emails
    that were unique stay unique. *)
Theorem new_user_all_or_nothing :
  forall (env : Env) (current_user : User.t) (form : RegisterForm)
         (s : Store) (fs : list bool),
  exists r s' fs',
    new_user env current_user form (mkWorld s s fs) = (Ok r, mkWorld s' s' fs')
    /\ ((r = new_user_created
         /\ user_rows s' =
              user_rows s ++
              [User.mk (next_id User.id (user_rows s)) (reg_name form)
                 (reg_email form) (tax_number_of form)
                 (generate_password_hash (reg_password form)) (reg_role form)
                 true]
         /\ User.role current_user <> ROLE_NADADOR
         /\ (User.role current_user = ROLE_SUPERVISOR ->
             reg_role form = ROLE_NADADOR)
         /\ In (reg_role form) [ROLE_NADADOR; ROLE_SUPERVISOR; ROLE_PRESIDENTE]
         /\ reg_password form <> ""
         /\ (forall u, In u (user_rows s) -> User.email u <> reg_email form)
         /\ (reg_tax_number form <> "" ->
             forall u, In u (user_rows s) ->
               User.tax_number u <> Some (reg_tax_number form))
         /\ occurrence_rows s' = occurrence_rows s
         /\ reset_token_rows s' = reset_token_rows s
         /\ notification_rows s' = notification_rows s)
        \/ (r <> new_user_created /\ s' = s))
    /\ (NoDup (map User.email (user_rows s)) ->
        NoDup (map User.email (user_rows s'))).
Proof.
  intros env current_user form s fs.
  assert (Hsame : forall (r : NewUserResult) gs,
            r <> new_user_created ->
            exists r0 s' fs',
              (Ok r, mkWorld s s gs) = (Ok r0, mkWorld s' s' fs')
              /\ ((r0 = new_user_created
                   /\ user_rows s' =
                        user_rows s ++
                        [User.mk (next_id User.id (user_rows s)) (reg_name form)
                           (reg_email form) (tax_number_of form)
                           (generate_password_hash (reg_password form))
                           (reg_role form) true]
                   /\ User.role current_user <> ROLE_NADADOR
                   /\ (User.role current_user = ROLE_SUPERVISOR ->
                       reg_role form = ROLE_NADADOR)
                   /\ In (reg_role form)
                         [ROLE_NADADOR; ROLE_SUPERVISOR; ROLE_PRESIDENTE]
                   /\ reg_password form <> ""
                   /\ (forall u, In u (user_rows s) ->
                         User.email u <> reg_email form)
                   /\ (reg_tax_number form <> "" ->
                       forall u, In u (user_rows s) ->
                         User.tax_number u <> Some (reg_tax_number form))
                   /\ occurrence_rows s' = occurrence_rows s
                   /\ reset_token_rows s' = reset_token_rows s
                   /\ notification_rows s' = notification_rows s)
                  \/ (r0 <> new_user_created /\ s' = s))
              /\ (NoDup (map User.email (user_rows s)) ->
                  NoDup (map User.email (user_rows s')))).
  { intros r gs Hr. exists r, s, gs. split; [reflexivity|].
    split; [right; now split | tauto]. }
  unfold new_user.
  destruct (String.eqb_spec (User.role current_user) ROLE_NADADOR) as [Hn|Hn].
  { apply Hsame. discriminate. }
  unfold_run. step_fault.
  2: { apply Hsame. discriminate. }
  destruct (find (fun u => String.eqb (User.email u) (reg_email form)) (user_rows s))
    eqn:Hemail.
  { apply Hsame. discriminate. }
  assert (Hfresh : forall u, In u (user_rows s) -> User.email u <> reg_email form).
  { intros u Hu. rewrite find_none_iff in Hemail. apply String.eqb_neq.
    exact (Hemail u Hu). }
  assert (Hinsert : forall gs,
            (reg_tax_number form <> "" ->
             forall u, In u (user_rows s) ->
               User.tax_number u <> Some (reg_tax_number form)) ->
            exists r0 s' fs',
              (let (o, w') := new_user_insert env current_user form (mkWorld s s gs) in
               match o with
               | Ok a => (Ok a, w')
               | Raised =>
                   (Ok new_user_failed,
                    mkWorld (committed w') (committed w') (faults w'))
               end) = (Ok r0, mkWorld s' s' fs')
              /\ ((r0 = new_user_created
                   /\ user_rows s' =
                        user_rows s ++
                        [User.mk (next_id User.id (user_rows s)) (reg_name form)
                           (reg_email form) (tax_number_of form)
                           (generate_password_hash (reg_password form))
                           (reg_role form) true]
                   /\ User.role current_user <> ROLE_NADADOR
                   /\ (User.role current_user = ROLE_SUPERVISOR ->
                       reg_role form = ROLE_NADADOR)
                   /\ In (reg_role form)
                         [ROLE_NADADOR; ROLE_SUPERVISOR; ROLE_PRESIDENTE]
                   /\ reg_password form <> ""
                   /\ (forall u, In u (user_rows s) ->
                         User.email u <> reg_email form)
                   /\ (reg_tax_number form <> "" ->
                       forall u, In u (user_rows s) ->
                         User.tax_number u <> Some (reg_tax_number form))
                   /\ occurrence_rows s' = occurrence_rows s
                   /\ reset_token_rows s' = reset_token_rows s
                   /\ notification_rows s' = notification_rows s)
                  \/ (r0 <> new_user_created /\ s' = s))
              /\ (NoDup (map User.email (user_rows s)) ->
                  NoDup (map User.email (user_rows s')))).
  { intros gs Htax.
    destruct (new_user_insert_cases env current_user form s gs)
      as (fs' & [(dirty & E)|[(r & Hr & E)|(s' & E & Hu & Hsup & Hrole & Hpw & Ho & Ht & Hnot)]]);
      rewrite E; cbn [committed faults].
    - apply Hsame. discriminate.
    - apply Hsame. exact Hr.
    - exists new_user_created, s', fs'. split; [reflexivity|]. split.
      + left. split; [reflexivity|]. repeat (split; [assumption|]). assumption.
      + intros Hnd. rewrite Hu, map_app. simpl.
        apply NoDup_snoc; [exact Hnd|].
        rewrite in_map_iff. intros (u & Eu & Hu'). exact (Hfresh u Hu' Eu). }
  destruct (String.eqb_spec (reg_tax_number form) "") as [Ht|Ht]; cbn [negb].
  - apply Hinsert. intros Hne. now elim Hne.
  - step_fault.
    2: { apply Hsame. discriminate. }
    destruct (find (has_tax_number (reg_tax_number form)) (user_rows s)) eqn:Htax.
    { apply Hsame. discriminate. }
    apply Hinsert. intros _ u Hu Eu.
    rewrite find_none_iff in Htax. specialize (Htax u Hu).
    unfold has_tax_number in Htax. rewrite Eu in Htax.
    now rewrite String.eqb_refl in Htax.
Qed.

(** ** Logging in *)

(** X12. [login] looks at the email and the password and at nothing else:
    it redirects to the dashboard exactly for the first stored user with
    that email when the password checks, shows the form again when no
    user has the email or the password does not check, and raises only
    when the lookup fails. Whatever happens, users, occurrences, reset
    tokens and notifications are as before, and the store is entirely as
    before unless the login went through. *)
Theorem login_checks_credentials_only :
  forall (env : Env) (email password user_agent : string) (s : Store)
         (fs : list bool),
  exists r s' fs',
    login env email password user_agent (mkWorld s s fs) = (r, mkWorld s' s' fs')
    /\ same_records s s'
    /\ notification_rows s' = notification_rows s
    /\ ((exists user,
            r = Ok (login_redirect_dashboard user)
            /\ find (fun u => String.eqb (User.email u) email) (user_rows s) =
                 Some user
            /\ User.check_password user password = true)
        \/ (r = Ok login_render_form
            /\ s' = s
            /\ forall user,
                 find (fun u => String.eqb (User.email u) email) (user_rows s) =
                   Some user ->
                 User.check_password user password = false)
        \/ (r = Raised /\ s' = s)).
Proof.
  intros env email password user_agent s fs.
  unfold login. unfold_run. step_fault.
  2: { eexists _, _, _. split; [reflexivity|].
       split; [repeat split|]. split; [reflexivity|]. right. right. now split. }
  destruct (find (fun u => String.eqb (User.email u) email) (user_rows s))
    as [user|] eqn:Hfind.
  2: { eexists _, _, _. split; [reflexivity|].
       split; [repeat split|]. split; [reflexivity|]. right. left.
       split; [reflexivity|]. split; [reflexivity|]. discriminate. }
  destruct (User.check_password user password) eqn:Hpw.
  2: { eexists _, _, _. split; [reflexivity|].
       split; [repeat split|]. split; [reflexivity|]. right. left.
       split; [reflexivity|]. split; [reflexivity|]. now intros ? [= <-]. }
  step_log.
  eexists _, _, _. split; [reflexivity|]. split; [exact Hrec|].
  split; [now apply Hnot|]. left. exists user. now repeat split.
Qed.

(** X13. [login] does not look at [is_active]: without storage faults a
    suspended user who gives the right password is redirected to the
    dashboard and the audit trail gains a login entry of that user, and
    [load_user] refuses that user's session on the request that follows. *)
Theorem login_ignores_suspension :
  forall (env : Env) (email password user_agent user_id : string)
         (s : Store) (user : User.t),
    find (fun u => String.eqb (User.email u) email) (user_rows s) = Some user ->
    get_user s (User.id user) = Some user ->
    User.check_password user password = true ->
    User.is_active user = false ->
    py_int user_id = Some (User.id user) ->
    exists s',
      login env email password user_agent (mkWorld s s []) =
        (Ok (login_redirect_dashboard user), mkWorld s' s' [])
      /\ activity_log_rows s' =
           activity_log_rows s ++
           [ActivityLog.mk (next_id ActivityLog.id (activity_log_rows s))
              (User.id user) "login" "Iniciou sessão"
              (str_or None (remote_addr env)) (now env)
              (Some [("user_agent", VStr user_agent)])]
      /\ load_user s' user_id = Ok None.
Proof.
  intros env email password user_agent user_id s user Hfind Hget Hpw Hoff Hid.
  unfold login. unfold bind at 1. rewrite query_quiet by reflexivity.
  cbn [session]. rewrite Hfind, Hpw.
  unfold guarded, try_except, bind. rewrite log_activity_quiet_unnotified.
  eexists. split; [reflexivity|]. split; [reflexivity|].
  unfold load_user, query_get_user. rewrite Hid.
  unfold get_user in *. unfold activity_logged. simpl. rewrite Hget, Hoff.
  reflexivity.
Qed.

Lemma login_ignores_suspension_witness :
  exists s',
    login at_100 "ana@example.org" "antiga" "Firefox"
      (mkWorld (mkStore [User.set_is_active ana false] [] [] [] [])
               (mkStore [User.set_is_active ana false] [] [] [] []) []) =
      (Ok (login_redirect_dashboard (User.set_is_active ana false)),
       mkWorld s' s' [])
    /\ load_user s' "1" = Ok None.
Proof.
  destruct (login_ignores_suspension at_100 "ana@example.org" "antiga" "Firefox"
              "1" (mkStore [User.set_is_active ana false] [] [] [] [])
              (User.set_is_active ana false)
              eq_refl eq_refl eq_refl eq_refl eq_refl) as (s' & E & _ & H).
  exists s'. split; [exact E | exact H].
Defined.

(** ** A created user can sign in *)

Lemma find_snoc_fresh (A : Type) (p : A -> bool) (l : list A) (x : A) :
  (forall y, In y l -> p y = false) -> p x = true ->
  find p (l ++ [x]) = Some x.
Proof.
  intros Hl Hx. induction l as [|a l IH]; simpl.
  - now rewrite Hx.
  - rewrite (Hl a (or_introl eq_refl)). apply IH. intros y Hy. apply Hl. now right.
Qed.

(** X14. The checks of [new_user] are also sufficient: without storage
    faults, an actor who is not a swimmer, creating a swimmer or being
    president, with a valid role, a password of six characters or more
    and an email and NIF that no stored user has, creates the user.
    [login] looks up the typed email in lower case ([lower] stands for
    [str.lower], of which nothing is assumed) while [new_user] stores the
    email of the form as it is: the new user signs in with the password
    of the form by typing an email whose lower case is the stored one,
    and is shown the login form again when the lower case of what is
    typed is not the stored email and is the email of no other user, as
    for a stored email that holds a capital letter. [load_user] accepts
    the session that carries the new id. *)
Theorem created_user_can_sign_in :
  forall (lower : string -> string) (env : Env) (current_user : User.t)
         (form : RegisterForm) (s : Store),
    User.role current_user <> ROLE_NADADOR ->
    (User.role current_user = ROLE_SUPERVISOR -> reg_role form = ROLE_NADADOR) ->
    In (reg_role form) [ROLE_NADADOR; ROLE_SUPERVISOR; ROLE_PRESIDENTE] ->
    validated_password (reg_password form) = true ->
    (forall u, In u (user_rows s) -> User.email u <> reg_email form) ->
    (reg_tax_number form <> "" ->
     forall u, In u (user_rows s) ->
       User.tax_number u <> Some (reg_tax_number form)) ->
    exists s',
      new_user env current_user form (mkWorld s s []) =
        (Ok new_user_created, mkWorld s' s' [])
      /\ (forall env2 user_agent typed,
            lower typed = reg_email form ->
            fst (login env2 (lower typed) (reg_password form) user_agent
                   (mkWorld s' s' [])) =
              Ok (login_redirect_dashboard
                    (User.mk (next_id User.id (user_rows s)) (reg_name form)
                       (reg_email form) (tax_number_of form)
                       (generate_password_hash (reg_password form))
                       (reg_role form) true)))
      /\ (forall env2 user_agent typed,
            lower typed <> reg_email form ->
            (forall u, In u (user_rows s) -> User.email u <> lower typed) ->
            login env2 (lower typed) (reg_password form) user_agent
              (mkWorld s' s' []) = (Ok login_render_form, mkWorld s' s' []))
      /\ (forall user_id,
            plain_text user_id = true ->
            py_int user_id = Some (next_id User.id (user_rows s)) ->
            load_user s' user_id =
              Ok (Some (User.mk (next_id User.id (user_rows s)) (reg_name form)
                          (reg_email form) (tax_number_of form)
                          (generate_password_hash (reg_password form))
                          (reg_role form) true))).
Proof.
  intros lower env current_user form s Hn Hsup Hrole Hvalid Hmail Htax.
  pose proof (validated_password_given _ Hvalid) as Hpw.
  assert (Efind : find (fun u => String.eqb (User.email u) (reg_email form))
                    (user_rows s) = None).
  { apply find_none_iff. intros u Hu. apply String.eqb_neq. now apply Hmail. }
  assert (Einsert : exists s',
            new_user_insert env current_user form (mkWorld s s []) =
              (Ok new_user_created, mkWorld s' s' [])
            /\ user_rows s' =
                 user_rows s ++
                 [User.mk (next_id User.id (user_rows s)) (reg_name form)
                    (reg_email form) (tax_number_of form)
                    (generate_password_hash (reg_password form))
                    (reg_role form) true]).
  { unfold new_user_insert.
    replace (String.eqb (User.role current_user) ROLE_SUPERVISOR
             && negb (String.eqb (reg_role form) ROLE_NADADOR)) with false.
    2: { symmetry. destruct (String.eqb_spec (User.role current_user) ROLE_SUPERVISOR)
           as [E|E]; [|reflexivity].
         rewrite (Hsup E). reflexivity. }
    replace (mem_string (reg_role form)
               [ROLE_NADADOR; ROLE_SUPERVISOR; ROLE_PRESIDENTE]) with true.
    2: { symmetry. unfold mem_string. apply existsb_exists.
         exists (reg_role form). split; [exact Hrole | apply String.eqb_refl]. }
    apply String.eqb_neq in Hpw. rewrite Hpw. cbn [negb].
    unfold bind at 1 2. cbn [session].
    rewrite session_add_quiet by reflexivity.
    unfold bind at 1. unfold with_session. cbn [committed session faults].
    rewrite commit_quiet by reflexivity. cbn [session].
    unfold bind at 1. unfold guarded, try_except.
    rewrite log_activity_quiet_unnotified. unfold bind, ret.
    eexists. split; [reflexivity|]. reflexivity. }
  destruct Einsert as (s' & Erun & Erows).
  exists s'. split; [|split; [|split]].
  - unfold new_user.
    replace (String.eqb (User.role current_user) ROLE_NADADOR) with false
      by (symmetry; now apply String.eqb_neq).
    unfold try_except. unfold bind at 1. rewrite query_quiet by reflexivity.
    cbn [session]. rewrite Efind.
    destruct (String.eqb_spec (reg_tax_number form) "") as [Et|Et]; cbn [negb].
    + now rewrite Erun.
    + unfold bind at 1. rewrite query_quiet by reflexivity. cbn [session].
      replace (find (has_tax_number (reg_tax_number form)) (user_rows s))
        with (@None User.t).
      * now rewrite Erun.
      * symmetry. apply find_none_iff. intros u Hu. unfold has_tax_number.
        specialize (Htax Et u Hu). destruct (User.tax_number u) as [t|]; [|reflexivity].
        apply String.eqb_neq. congruence.
  - intros env2 user_agent typed Htyped. rewrite Htyped.
    unfold login. unfold bind at 1.
    rewrite query_quiet by reflexivity. cbn [session]. rewrite Erows.
    rewrite find_snoc_fresh.
    + replace (User.check_password _ (reg_password form)) with true.
      * unfold guarded, try_except, bind.
        rewrite log_activity_quiet_unnotified. reflexivity.
      * symmetry. unfold User.check_password. simpl.
        apply String.eqb_neq in Hpw. rewrite Hpw.
        unfold check_password_hash, generate_password_hash.
        apply String.eqb_refl.
    + intros u Hu. apply String.eqb_neq. now apply Hmail.
    + simpl. apply String.eqb_refl.
  - intros env2 user_agent typed Hother Hnobody.
    unfold login. unfold bind at 1.
    rewrite query_quiet by reflexivity. cbn [session]. rewrite Erows.
    replace (find (fun u => String.eqb (User.email u) (lower typed))
               (user_rows s ++
                [User.mk (next_id User.id (user_rows s)) (reg_name form)
                   (reg_email form) (tax_number_of form)
                   (generate_password_hash (reg_password form))
                   (reg_role form) true]))
      with (@None User.t); [reflexivity|].
    symmetry. apply find_none_iff. intros u Hu. apply String.eqb_neq.
    apply in_app_iff in Hu as [Hu|[<-|[]]]; [now apply Hnobody|].
    simpl. congruence.
  - intros user_id _ Hid. unfold load_user, query_get_user. rewrite Hid.
    unfold get_user.
    rewrite Erows. rewrite find_snoc_fresh; [reflexivity| |simpl; apply Z.eqb_refl].
    intros u Hu. apply Z.eqb_neq.
    pose proof (next_id_above _ User.id (user_rows s) u Hu). lia.
Qed.

(** X14 for a president who creates a swimmer with a capital letter in
    the email: typing that email does not sign the new user in. *)
Lemma created_user_can_sign_in_witness :
  exists s',
    new_user at_100 eva
      (mkRegisterForm "Lia" "Lia@example.org" "" "segredo" ROLE_NADADOR)
      (mkWorld staffed_store staffed_store []) =
      (Ok new_user_created, mkWorld s' s' [])
    /\ login at_100 (ascii_lower "Lia@example.org") "segredo" "Firefox"
         (mkWorld s' s' []) = (Ok login_render_form, mkWorld s' s' [])
    /\ load_user s' "4" =
         Ok (Some (User.mk 4 "Lia" "Lia@example.org" None
                     (generate_password_hash "segredo") ROLE_NADADOR true)).
Proof.
  destruct (created_user_can_sign_in ascii_lower at_100 eva
              (mkRegisterForm "Lia" "Lia@example.org" "" "segredo" ROLE_NADADOR)
              staffed_store) as (s' & E & _ & Hno & H).
  - discriminate.
  - discriminate.
  - simpl. tauto.
  - reflexivity.
  - simpl. intros u [<-|[<-|[<-|[]]]]; discriminate.
  - intros Ht. now elim Ht.
  - exists s'. split; [exact E|]. split.
    + apply (Hno at_100 "Firefox" "Lia@example.org"); [discriminate|].
      simpl. intros u [<-|[<-|[<-|[]]]]; discriminate.
    + apply (H "4"); reflexivity.
Defined.

(** ** Editing a user *)

Lemma edited_user_keeps (current_user user : User.t) (form : RegisterForm) :
  User.id (edited_user current_user user form) = User.id user
  /\ User.is_active (edited_user current_user user form) = User.is_active user
  /\ User.email (edited_user current_user user form) = reg_email form
  /\ (User.id user = User.id current_user ->
      User.role user = ROLE_PRESIDENTE ->
      User.role (edited_user current_user user form) = ROLE_PRESIDENTE)
  /\ (reg_password form = "" ->
      User.password_hash (edited_user current_user user form) =
        User.password_hash user).
Proof.
  unfold edited_user.
  destruct (String.eqb_spec (reg_password form) "") as [Hp|Hp]; cbn [negb].
  - repeat split; try reflexivity. intros Hid Hr. simpl.
    rewrite Hid, Z.eqb_refl, Hr. reflexivity.
  - match goal with
    | |- context [User.set_password ?u ?p] =>
        destruct (set_password_keeps u p) as (Hi & He & Hr & Ha)
    end.
    rewrite Hi, He, Hr, Ha. simpl.
    repeat split; try reflexivity.
    + intros Hid Hrole. rewrite Hid, Z.eqb_refl, Hrole. reflexivity.
    + intros E. now elim Hp.
Qed.

Lemma edit_user_update_cases env current_user user id form s fs :
  exists fs',
    (exists dirty,
        edit_user_update env current_user user id form (mkWorld s s fs) =
          (Raised, mkWorld s dirty fs'))
    \/ (exists r,
        r <> edit_user_saved
        /\ edit_user_update env current_user user id form (mkWorld s s fs) =
             (Ok r, mkWorld s s fs'))
    \/ (exists s',
        edit_user_update env current_user user id form (mkWorld s s fs) =
          (Ok edit_user_saved, mkWorld s' s' fs')
        /\ user_rows s' =
             update_first (fun u => User.id u =? id)
               (fun _ => edited_user current_user user form) (user_rows s)
        /\ In (reg_role form) [ROLE_NADADOR; ROLE_SUPERVISOR; ROLE_PRESIDENTE]
        /\ occurrence_rows s' = occurrence_rows s
        /\ reset_token_rows s' = reset_token_rows s
        /\ notification_rows s' = notification_rows s).
Proof.
  unfold edit_user_update.
  destruct (mem_string (reg_role form)
              [ROLE_NADADOR; ROLE_SUPERVISOR; ROLE_PRESIDENTE]) eqn:Hrole; cbn [negb].
  2: { exists fs. right. left. eexists. split; [|reflexivity]. discriminate. }
  unfold_run. step_fault.
  2: { eexists. left. eexists. reflexivity. }
  step_log.
  eexists. right. right. eexists. split; [reflexivity|].
  destruct Hrec as (Hu & Ho & Ht). simpl in Hu, Ho, Ht.
  split; [exact Hu|]. split.
  - unfold mem_string in Hrole. apply existsb_exists in Hrole as (x & Hx & E).
    apply String.eqb_eq in E. now subst.
  - split; [exact Ho|]. split; [exact Ht | now apply Hnot].
Qed.

(** X15. Whatever storage access fails, [edit_user] on a fresh session
    either reports that the user was saved, and then the actor is a
    president, the row the lookup returned was replaced by the edited one
    (same id, same [is_active], the form's email; the role of the form,
    except that a president editing the own account stays president; the
    password kept when the form's password is empty), the role of the
    form is one of the three, no other stored user has the form's email
    or NIF, and occurrences, reset tokens and notifications are as before;
    or it reports anything else (or raises at the lookup) and the store is
    as before. *)
Theorem edit_user_all_or_nothing :
  forall (env : Env) (current_user : User.t) (id : Z) (form : RegisterForm)
         (s : Store) (fs : list bool),
  exists r s' fs',
    edit_user env current_user id form (mkWorld s s fs) = (r, mkWorld s' s' fs')
    /\ ((r = Ok edit_user_saved
         /\ User.role current_user = ROLE_PRESIDENTE
         /\ (exists user edited,
               get_user s id = Some user
               /\ user_rows s' =
                    update_first (fun u => User.id u =? id) (fun _ => edited)
                      (user_rows s)
               /\ get_user s' id = Some edited
               /\ User.id edited = id
               /\ User.is_active edited = User.is_active user
               /\ User.email edited = reg_email form
               /\ (id = User.id current_user ->
                   User.role user = ROLE_PRESIDENTE ->
                   User.role edited = ROLE_PRESIDENTE)
               /\ (reg_password form = "" ->
                   User.password_hash edited = User.password_hash user))
         /\ In (reg_role form) [ROLE_NADADOR; ROLE_SUPERVISOR; ROLE_PRESIDENTE]
         /\ (forall u, In u (user_rows s) -> User.id u <> id ->
               User.email u <> reg_email form)
         /\ (reg_tax_number form <> "" ->
             forall u, In u (user_rows s) -> User.id u <> id ->
               User.tax_number u <> Some (reg_tax_number form))
         /\ occurrence_rows s' = occurrence_rows s
         /\ reset_token_rows s' = reset_token_rows s
         /\ notification_rows s' = notification_rows s)
        \/ (r <> Ok edit_user_saved /\ s' = s)).
Proof.
  intros env current_user id form s fs.
  unfold edit_user.
  destruct (String.eqb_spec (User.role current_user) ROLE_PRESIDENTE) as [Hp|Hp];
    cbn [negb].
  2: { unfold ret. stop_here. }
  unfold_run. step_fault.
  2: { stop_here. }
  destruct (get_user s id) as [user|] eqn:Hget.
  2: { stop_here. }
  step_fault.
  2: { stop_here. }
  destruct (find (fun u => String.eqb (User.email u) (reg_email form)
                           && negb (User.id u =? id)) (user_rows s)) eqn:Hemail.
  { stop_here. }
  assert (Hfresh : forall u, In u (user_rows s) -> User.id u <> id ->
                     User.email u <> reg_email form).
  { intros u Hu Hid E. rewrite find_none_iff in Hemail. specialize (Hemail u Hu).
    cbv beta in Hemail. rewrite E, String.eqb_refl in Hemail.
    apply Z.eqb_neq in Hid. rewrite Hid in Hemail. discriminate. }
  assert (Hupdate : forall gs,
            (reg_tax_number form <> "" ->
             forall u, In u (user_rows s) -> User.id u <> id ->
               User.tax_number u <> Some (reg_tax_number form)) ->
            exists r s' fs',
              (let (o, w') :=
                 edit_user_update env current_user user id form (mkWorld s s gs) in
               match o with
               | Ok a => (Ok a, w')
               | Raised =>
                   (Ok edit_user_failed,
                    mkWorld (committed w') (committed w') (faults w'))
               end) = (r, mkWorld s' s' fs')
              /\ ((r = Ok edit_user_saved
                   /\ User.role current_user = ROLE_PRESIDENTE
                   /\ (exists user0 edited,
                         Some user = Some user0
                         /\ user_rows s' =
                              update_first (fun u => User.id u =? id)
                                (fun _ => edited) (user_rows s)
                         /\ get_user s' id = Some edited
                         /\ User.id edited = id
                         /\ User.is_active edited = User.is_active user0
                         /\ User.email edited = reg_email form
                         /\ (id = User.id current_user ->
                             User.role user0 = ROLE_PRESIDENTE ->
                             User.role edited = ROLE_PRESIDENTE)
                         /\ (reg_password form = "" ->
                             User.password_hash edited = User.password_hash user0))
                   /\ In (reg_role form)
                         [ROLE_NADADOR; ROLE_SUPERVISOR; ROLE_PRESIDENTE]
                   /\ (forall u, In u (user_rows s) -> User.id u <> id ->
                         User.email u <> reg_email form)
                   /\ (reg_tax_number form <> "" ->
                       forall u, In u (user_rows s) -> User.id u <> id ->
                         User.tax_number u <> Some (reg_tax_number form))
                   /\ occurrence_rows s' = occurrence_rows s
                   /\ reset_token_rows s' = reset_token_rows s
                   /\ notification_rows s' = notification_rows s)
                  \/ (r <> Ok edit_user_saved /\ s' = s))).
  { intros gs Htax.
    destruct (edit_user_update_cases env current_user user id form s gs)
      as (fs' & [(dirty & E)|[(r & Hr & E)|(s' & E & Hu & Hrole & Ho & Ht & Hnot)]]);
      rewrite E; cbn [committed faults].
    - stop_here.
    - eexists _, _, _. split; [reflexivity|]. right. split; [congruence|reflexivity].
    - exists (Ok edit_user_saved), s', fs'. split; [reflexivity|]. left.
      split; [reflexivity|]. split; [exact Hp|].
      destruct (edited_user_keeps current_user user form)
        as (Ki & Ka & Ke & Kr & Kp).
      assert (Hid : User.id user = id).
      { unfold get_user in Hget. apply find_some in Hget as [_ H].
        now apply Z.eqb_eq in H. }
      split.
      + exists user, (edited_user current_user user form).
        split; [reflexivity|]. split; [exact Hu|]. split.
        * unfold get_user in *. rewrite Hu.
          apply (find_update_first_same _ (fun u => User.id u =? id)
                   (fun _ => edited_user current_user user form)
                   (user_rows s) user Hget).
          rewrite Ki, Hid. apply Z.eqb_refl.
        * split; [now rewrite Ki|]. split; [exact Ka|]. split; [exact Ke|].
          split; [|exact Kp]. intros E1. apply Kr. now rewrite Hid.
      + repeat (split; [assumption|]). assumption. }
  destruct (String.eqb_spec (reg_tax_number form) "") as [Ht|Ht]; cbn [negb].
  - apply Hupdate. intros Hne. now elim Hne.
  - step_fault.
    2: { stop_here. }
    destruct (find (fun u => has_tax_number (reg_tax_number form) u
                             && negb (User.id u =? id)) (user_rows s)) eqn:Htax.
    { stop_here. }
    apply Hupdate. intros _ u Hu Hid Eu.
    rewrite find_none_iff in Htax. specialize (Htax u Hu). cbv beta in Htax.
    unfold has_tax_number in Htax. rewrite Eu, String.eqb_refl in Htax.
    apply Z.eqb_neq in Hid. rewrite Hid in Htax. discriminate.
Qed.

(** ** Listings: order, export, search, and opening what is listed *)

Section InsertionOrder.
Variable A : Type.
Variable key : A -> Z.
Variable ins : A -> list A -> list A.
Hypothesis ins_nil : forall a, ins a [] = [a].
Hypothesis ins_cons : forall a x rest,
  ins a (x :: rest) = if key x <? key a then a :: x :: rest else x :: ins a rest.

Lemma ins_permutation (a : A) (l : list A) : Permutation (ins a l) (a :: l).
Proof.
  induction l as [|x rest IH].
  - now rewrite ins_nil.
  - rewrite ins_cons. destruct (key x <? key a); [reflexivity|].
    rewrite IH. apply perm_swap.
Qed.

Lemma ins_sorted (a : A) (l : list A) :
  StronglySorted (fun x y => key y <= key x) l ->
  StronglySorted (fun x y => key y <= key x) (ins a l).
Proof.
  induction l as [|x rest IH]; intros Hs.
  - rewrite ins_nil. constructor; constructor.
  - rewrite ins_cons. inversion Hs as [|x' rest' Hrest Hx]; subst.
    destruct (Z.ltb_spec (key x) (key a)) as [Hlt|Hge].
    + constructor; [exact Hs|]. constructor; [lia|].
      rewrite Forall_forall in *. intros y Hy. specialize (Hx y Hy). simpl in Hx. lia.
    + constructor; [now apply IH|].
      rewrite Forall_forall in *. intros y Hy.
      apply (Permutation_in _ (ins_permutation a rest)) in Hy.
      destruct Hy as [<-|Hy]; [lia | now apply Hx].
Qed.

Lemma fold_ins_permutation (l : list A) : Permutation (fold_right ins [] l) l.
Proof.
  induction l as [|a l IH]; simpl; [constructor|].
  rewrite ins_permutation. now constructor.
Qed.

Lemma fold_ins_sorted (l : list A) :
  StronglySorted (fun x y => key y <= key x) (fold_right ins [] l).
Proof.
  induction l as [|a l IH]; simpl; [constructor | now apply ins_sorted].
Qed.
End InsertionOrder.

Lemma find_by_unique_key (A : Type) (key : A -> Z) (l : list A) (x : A) :
  NoDup (map key l) -> In x l -> find (fun y => key y =? key x) l = Some x.
Proof.
  induction l as [|a l IH]; simpl; [intros _ []|].
  intros Hnd Hin. inversion Hnd as [|k l' Hnotin Hnd']; subst.
  destruct Hin as [->|Hin].
  - now rewrite Z.eqb_refl.
  - destruct (Z.eqb_spec (key a) (key x)) as [E|E]; [|now apply IH].
    exfalso. apply Hnotin. rewrite E. now apply in_map.
Qed.

Lemma filter_nothing (A : Type) (p : A -> bool) (l : list A) :
  (forall x, In x l -> p x = false) -> filter p l = [].
Proof.
  induction l as [|a l IH]; simpl; intros H; [reflexivity|].
  rewrite (H a (or_introl eq_refl)). apply IH. intros x Hx. apply H. now right.
Qed.

(** The record filter of the export is the one of the listing. *)
Lemma export_scope_agrees (s : Store) (current_user : User.t) (user_id : option Z) :
  match ocorrencias_scope s current_user user_id,
        export_scope s current_user user_id with
  | scope_denied, scope_denied => True
  | scope_overflow, scope_overflow => True
  | scope_of q _, scope_of q' users => q = q' /\ users = None
  | _, _ => False
  end.
Proof.
  unfold ocorrencias_scope, export_scope, query_get_user.
  destruct (String.eqb (User.role current_user) ROLE_NADADOR); [now split|].
  destruct (String.eqb (User.role current_user) ROLE_SUPERVISOR).
  - destruct (given_id user_id) as [uid|]; [|now split].
    destruct (get_user s uid) as [target|];
      [|destruct (sqlite_integer uid); exact I].
    destruct (String.eqb (User.role target) ROLE_NADADOR); simpl; [now split | exact I].
  - destruct (given_id user_id) as [uid|];
      destruct (User.id current_user =? HIDDEN_USER_ID); now split.
Qed.

(** X16. [export_csv] answers a request as [ocorrencias] does, the search
    text apart, which it does not read: it denies access, rejects dates
    and raises on a target that SQLite cannot bind in the same cases, and
    the rows it exports are the rows of the listing together with those
    the search of the listing left out; without a search text they are
    the listing itself. The export offers no users for selection. *)
Theorem export_covers_listing :
  forall (s : Store) (current_user : User.t) (args : ListingArgs),
    (ocorrencias s current_user args = listing_access_denied <->
     export_csv s current_user args = listing_access_denied)
    /\ (ocorrencias s current_user args = listing_invalid_date <->
        export_csv s current_user args = listing_invalid_date)
    /\ (forall occs users,
          ocorrencias s current_user args = listing_render occs users ->
          exists exported,
            export_csv s current_user args = listing_render exported None
            /\ (forall o, In o occs <->
                          In o exported /\ search_filter s args o = true)
            /\ (arg_search args = None -> exported = occs))
    /\ (ocorrencias s current_user args = listing_overflow <->
        export_csv s current_user args = listing_overflow).
Proof.
  intros s current_user args.
  pose proof (export_scope_agrees s current_user (arg_user_id args)) as Hagree.
  unfold ocorrencias, export_csv.
  destruct (ocorrencias_scope s current_user (arg_user_id args)) as [| |q users0];
    destruct (export_scope s current_user (arg_user_id args)) as [| |q' users1];
    try contradiction.
  - split; [tauto|]. split; [split; discriminate|].
    split; [discriminate | split; discriminate].
  - split; [split; discriminate|]. split; [split; discriminate|].
    split; [discriminate | tauto].
  - destruct Hagree as [<- ->].
    destruct (date_filter args) as [dates|].
    + destruct (statement_binds current_user (arg_user_id args)).
      * split; [split; discriminate|]. split; [split; discriminate|].
        split; [|split; discriminate].
        intros occs users [= <- <-]. eexists. split; [reflexivity|]. split.
        -- intros o. rewrite !order_by_date_desc_In, !filter_In, !andb_true_iff.
           tauto.
        -- intros Hnone. f_equal. apply filter_ext. intros o.
           unfold search_filter. rewrite Hnone. now rewrite andb_true_r.
      * split; [split; discriminate|]. split; [split; discriminate|].
        split; [discriminate | tauto].
    + split; [split; discriminate|]. split; [tauto|].
      split; [discriminate | split; discriminate].
Qed.

(** X17. What [ocorrencias] lists and what [export_csv] exports is ordered
    newest first and is a rearrangement of the stored occurrences that
    pass one test on the row: no row is invented, repeated or dropped by
    the ordering. *)
Theorem listings_newest_first :
  forall (s : Store) (current_user : User.t) (args : ListingArgs)
         (occs : list Occurrence.t) (users : option (list User.t)),
    ocorrencias s current_user args = listing_render occs users
    \/ export_csv s current_user args = listing_render occs users ->
    StronglySorted (fun a b => Occurrence.date b <= Occurrence.date a) occs
    /\ exists shown, Permutation occs (filter shown (occurrence_rows s)).
Proof.
  intros s current_user args occs users [H|H].
  - unfold ocorrencias in H.
    destruct (ocorrencias_scope s current_user (arg_user_id args));
      [discriminate | discriminate|].
    destruct (date_filter args); [|discriminate].
    destruct (statement_binds current_user (arg_user_id args)); [|discriminate].
    injection H as <- _. split.
    + apply (fold_ins_sorted _ Occurrence.date insert_by_date);
        [reflexivity | reflexivity].
    + eexists. apply (fold_ins_permutation _ Occurrence.date insert_by_date);
        [reflexivity | reflexivity].
  - unfold export_csv in H.
    destruct (export_scope s current_user (arg_user_id args));
      [discriminate | discriminate|].
    destruct (date_filter args); [|discriminate].
    destruct (statement_binds current_user (arg_user_id args)); [|discriminate].
    injection H as <- _. split.
    + apply (fold_ins_sorted _ Occurrence.date insert_by_date);
        [reflexivity | reflexivity].
    + eexists. apply (fold_ins_permutation _ Occurrence.date insert_by_date);
        [reflexivity | reflexivity].
Qed.

Lemma listings_newest_first_witness :
  StronglySorted (fun a b => Occurrence.date b <= Occurrence.date a)
    [occ_of_rui; occ_of_ze; occ_of_ana]
  /\ exists shown,
       Permutation [occ_of_rui; occ_of_ze; occ_of_ana]
         (filter shown (occurrence_rows river_store)).
Proof.
  apply (listings_newest_first river_store eva no_args
           [occ_of_rui; occ_of_ze; occ_of_ana]
           (Some [ana; rui])).
  left. vm_compute. reflexivity.
Defined.

(** A listing raises only on a target that SQLite cannot bind. *)
Lemma listing_overflow_target (s : Store) (current_user : User.t)
    (args : ListingArgs) :
  ocorrencias s current_user args = listing_overflow ->
  exists uid, given_id (arg_user_id args) = Some uid
              /\ sqlite_integer uid = false.
Proof.
  unfold ocorrencias, ocorrencias_scope, query_get_user, statement_binds.
  destruct (String.eqb (User.role current_user) ROLE_NADADOR).
  { destruct (date_filter args); discriminate. }
  destruct (given_id (arg_user_id args)) as [uid|].
  2: { destruct (String.eqb (User.role current_user) ROLE_SUPERVISOR);
         [|destruct (User.id current_user =? HIDDEN_USER_ID)];
         destruct (date_filter args); discriminate. }
  intros H. exists uid. split; [reflexivity|].
  destruct (sqlite_integer uid); [|reflexivity]. exfalso.
  destruct (String.eqb (User.role current_user) ROLE_SUPERVISOR).
  - destruct (get_user s uid) as [t|]; [|discriminate].
    destruct (negb (String.eqb (User.role t) ROLE_NADADOR)); [discriminate|].
    destruct (date_filter args); discriminate.
  - destruct (User.id current_user =? HIDDEN_USER_ID);
      destruct (date_filter args); discriminate.
Qed.

(** X18. A search text that matches the name and the NIF of no stored
    user empties the listing, provided no occurrence has the id -1, which
    is what the filter put in that case looks for: the request is
    refused, or its dates are rejected, or it renders no occurrence, or,
    and only for a target that SQLite cannot bind, it raises. *)
Theorem search_without_match_lists_nothing :
  forall (s : Store) (current_user : User.t) (args : ListingArgs)
         (ilike : string -> bool),
    arg_search args = Some ilike ->
    (forall u, In u (user_rows s) ->
       ilike (User.name u) = false
       /\ forall nif, User.tax_number u = Some nif -> ilike nif = false) ->
    (forall o, In o (occurrence_rows s) -> Occurrence.id o <> -1) ->
    ocorrencias s current_user args = listing_access_denied
    \/ ocorrencias s current_user args = listing_invalid_date
    \/ (exists users, ocorrencias s current_user args = listing_render [] users)
    \/ (ocorrencias s current_user args = listing_overflow
        /\ exists uid, given_id (arg_user_id args) = Some uid
                       /\ sqlite_integer uid = false).
Proof.
  intros s current_user args ilike Hsearch Hnone Hids.
  pose proof (listing_overflow_target s current_user args) as Hover.
  unfold ocorrencias in *.
  destruct (ocorrencias_scope s current_user (arg_user_id args)) as [| |q users];
    [now left | right; right; right; split; [reflexivity | now apply Hover]|].
  destruct (date_filter args) as [dates|]; [|right; now left].
  destruct (statement_binds current_user (arg_user_id args));
    [|right; right; right; split; [reflexivity | now apply Hover]].
  right. right. left. exists users. f_equal.
  rewrite filter_nothing; [reflexivity|].
  intros o Ho. unfold search_filter. rewrite Hsearch.
  rewrite filter_nothing.
  - pose proof (Hids o Ho) as Hid. apply Z.eqb_neq in Hid. rewrite Hid.
    now rewrite andb_false_r.
  - intros u Hu. destruct (Hnone u Hu) as [Hname Hnif]. rewrite Hname. simpl.
    destruct (User.tax_number u) as [nif|]; [now apply Hnif | reflexivity].
Qed.

Lemma search_without_match_lists_nothing_witness :
  exists users,
    ocorrencias river_store eva
      (mkListingArgs date_absent date_absent None None None
         (Some (String.eqb "Inês"))) = listing_render [] users.
Proof.
  destruct (search_without_match_lists_nothing river_store eva
              (mkListingArgs date_absent date_absent None None None
                 (Some (String.eqb "Inês")))
              (String.eqb "Inês")) as [H|[H|[H|[H _]]]].
  - reflexivity.
  - simpl. intros u [<-|[<-|[<-|[<-|[]]]]]; split;
      try reflexivity; discriminate.
  - simpl. intros o [<-|[<-|[<-|[]]]]; discriminate.
  - vm_compute in H. discriminate.
  - vm_compute in H. discriminate.
  - exact H.
  - vm_compute in H. discriminate.
Defined.

(** X19. With occurrence ids unique, every occurrence [ocorrencias] lists
    to a user opens for that user in [view_occurrence]; for a swimmer the
    converse holds as well: what opens is in the swimmer's listing. *)
Theorem listed_occurrence_opens :
  forall (s : Store) (current_user : User.t),
    NoDup (map Occurrence.id (occurrence_rows s)) ->
    (forall args occs users occ,
       ocorrencias s current_user args = listing_render occs users ->
       In occ occs ->
       view_occurrence s current_user (Occurrence.id occ) = view_occ_render occ)
    /\ (User.role current_user = ROLE_NADADOR ->
        forall id occ,
          view_occurrence s current_user id = view_occ_render occ ->
          Occurrence.id occ = id
          /\ exists occs,
               ocorrencias s current_user no_args = listing_render occs None
               /\ In occ occs).
Proof.
  intros s current_user Hnd. split.
  - intros args occs users occ Hlist Hin.
    apply ocorrencias_listed in Hlist as (q & dates & Hs & _ & Hl).
    apply Hl in Hin as (Hrows & Hq & _).
    unfold view_occurrence, get_occurrence.
    rewrite (find_by_unique_key _ Occurrence.id (occurrence_rows s) occ Hnd Hrows).
    destruct (String.eqb_spec (User.role current_user) ROLE_NADADOR)
      as [Hrole|Hrole]; [|reflexivity].
    destruct (nadador_scope s current_user (arg_user_id args) Hrole) as [Ho _].
    rewrite Ho in Hs. injection Hs as <- _. cbv beta in Hq. now rewrite Hq.
  - intros Hrole id occ Hview.
    unfold view_occurrence, get_occurrence in Hview.
    destruct (find (fun o => Occurrence.id o =? id) (occurrence_rows s))
      as [found|] eqn:Hfind; [|discriminate].
    rewrite Hrole in Hview. simpl in Hview.
    destruct (Occurrence.user_id found =? User.id current_user) eqn:Hown;
      [|discriminate].
    injection Hview as ->. apply find_some in Hfind as [Hin Hid].
    split; [now apply Z.eqb_eq|].
    unfold ocorrencias, ocorrencias_scope, statement_binds. rewrite Hrole. simpl.
    eexists. split; [reflexivity|].
    apply order_by_date_desc_In, filter_In. split; [exact Hin|].
    now rewrite Hown.
Qed.

Lemma listed_occurrence_opens_witness :
  view_occurrence river_store ana 1 = view_occ_render occ_of_ana.
Proof.
  assert (Hnd : NoDup (map Occurrence.id (occurrence_rows river_store))).
  { simpl. repeat constructor; simpl; intuition discriminate. }
  destruct (listed_occurrence_opens river_store ana Hnd) as [H _].
  apply (H no_args [occ_of_ana] None occ_of_ana); [reflexivity | now left].
Defined.

(** X20. [view_occurrence] restricts swimmers only. For a supervisor, an
    occurrence whose owner is stored, is not a swimmer and is not the
    supervisor opens by its id, although naming that owner in
    [ocorrencias] is answered with access denied and the listing without
    a target does not hold the occurrence (user ids unique). *)
Theorem supervisor_views_beyond_listing :
  forall (s : Store) (current_user owner : User.t) (occ : Occurrence.t),
    User.role current_user = ROLE_SUPERVISOR ->
    NoDup (map User.id (user_rows s)) ->
    get_occurrence s (Occurrence.id occ) = Some occ ->
    get_user s (Occurrence.user_id occ) = Some owner ->
    User.role owner <> ROLE_NADADOR ->
    Occurrence.user_id occ <> User.id current_user ->
    Occurrence.user_id occ <> 0 ->
    view_occurrence s current_user (Occurrence.id occ) = view_occ_render occ
    /\ (forall args,
          arg_user_id args = Some (Occurrence.user_id occ) ->
          ocorrencias s current_user args = listing_access_denied)
    /\ (forall args occs users,
          given_id (arg_user_id args) = None ->
          ocorrencias s current_user args = listing_render occs users ->
          ~ In occ occs).
Proof.
  intros s current_user owner occ Hrole Hnd Hocc Howner Hnot Hother Hzero.
  split; [|split].
  - unfold view_occurrence. rewrite Hocc, Hrole. reflexivity.
  - intros args Harg. unfold ocorrencias, ocorrencias_scope, query_get_user.
    rewrite Hrole, Harg. simpl.
    apply Z.eqb_neq in Hzero. rewrite Hzero, Howner.
    apply String.eqb_neq in Hnot. now rewrite Hnot.
  - intros args occs users Hgiven Hlist Hin.
    unfold ocorrencias, ocorrencias_scope in Hlist.
    rewrite (statement_binds_default current_user _ Hgiven) in Hlist.
    rewrite Hrole, Hgiven in Hlist. simpl in Hlist.
    destruct (date_filter args) as [dates|]; [|discriminate].
    injection Hlist as <- _.
    apply order_by_date_desc_In, filter_In in Hin as [_ Hpass].
    rewrite !andb_true_iff in Hpass. destruct Hpass as [[[[Hscope _] _] _] _].
    apply mem_Z_In, in_app_iff in Hscope as [Hswim|[Hself|[]]].
    + apply in_map_iff in Hswim as (u & Hid & Hu).
      apply filter_In in Hu as [Hu Hlisted].
      unfold is_listed_nadador in Hlisted.
      apply andb_true_iff in Hlisted as [Hr _]. apply String.eqb_eq in Hr.
      pose proof (find_by_unique_key _ User.id (user_rows s) u Hnd Hu) as Hfind.
      unfold get_user in Howner. rewrite Hid, Howner in Hfind.
      injection Hfind as ->. contradiction.
    + now apply Hother.
Qed.

Lemma supervisor_views_beyond_listing_witness :
  view_occurrence
    (mkStore [ana; rui; eva] [Occurrence.mk 1 10 "Reconquinho" "Aviso" None 3]
       [] [] []) rui 1 =
    view_occ_render (Occurrence.mk 1 10 "Reconquinho" "Aviso" None 3)
  /\ ocorrencias
       (mkStore [ana; rui; eva] [Occurrence.mk 1 10 "Reconquinho" "Aviso" None 3]
          [] [] []) rui (args_for 3) = listing_access_denied.
Proof.
  destruct (supervisor_views_beyond_listing
              (mkStore [ana; rui; eva]
                 [Occurrence.mk 1 10 "Reconquinho" "Aviso" None 3] [] [] [])
              rui eva (Occurrence.mk 1 10 "Reconquinho" "Aviso" None 3))
    as (Hview & Hdenied & _).
  - reflexivity.
  - simpl. repeat constructor; simpl; intuition discriminate.
  - reflexivity.
  - reflexivity.
  - discriminate.
  - discriminate.
  - discriminate.
  - split; [exact Hview | apply Hdenied; reflexivity].
Defined.

(** X21. With user ids unique, every user that [users] lists to an actor
    opens for that actor in [view_user]. [view_user] does not look at
    HIDDEN_USER_ID: the hidden user, when stored, opens for a president,
    and for a supervisor when it is a swimmer. *)
Theorem listed_user_opens :
  forall (s : Store) (current_user : User.t),
    NoDup (map User.id (user_rows s)) ->
    (forall listed u,
       users s current_user = users_render listed ->
       In u listed ->
       view_user s current_user (User.id u) = view_user_render u)
    /\ (forall hidden,
          get_user s HIDDEN_USER_ID = Some hidden ->
          User.role current_user <> ROLE_NADADOR ->
          (User.role current_user = ROLE_SUPERVISOR ->
           User.role hidden = ROLE_NADADOR) ->
          view_user s current_user HIDDEN_USER_ID = view_user_render hidden).
Proof.
  intros s current_user Hnd. split.
  - intros listed u Hlist Hin. unfold users in Hlist. unfold view_user, get_user.
    destruct (String.eqb (User.role current_user) ROLE_NADADOR); [discriminate|].
    simpl.
    destruct (String.eqb (User.role current_user) ROLE_SUPERVISOR).
    + injection Hlist as <-. apply filter_In in Hin as [Hin Hl].
      rewrite (find_by_unique_key _ User.id (user_rows s) u Hnd Hin).
      unfold is_listed_nadador in Hl. apply andb_true_iff in Hl as [Hr _].
      now rewrite Hr.
    + assert (Hrows : In u (user_rows s)).
      { destruct (User.id current_user =? HIDDEN_USER_ID);
          injection Hlist as <-; now apply filter_In in Hin as [Hin _]. }
      now rewrite (find_by_unique_key _ User.id (user_rows s) u Hnd Hrows).
  - intros hidden Hget Hn Hsup. unfold view_user. rewrite Hget.
    apply String.eqb_neq in Hn. rewrite Hn. simpl.
    destruct (String.eqb_spec (User.role current_user) ROLE_SUPERVISOR) as [E|E];
      [|reflexivity].
    rewrite (Hsup E). reflexivity.
Qed.

Lemma listed_user_opens_witness :
  view_user river_store rui 1 = view_user_render ana
  /\ view_user river_store rui HIDDEN_USER_ID = view_user_render ze.
Proof.
  assert (Hnd : NoDup (map User.id (user_rows river_store))).
  { simpl. repeat constructor; simpl; intuition discriminate. }
  destruct (listed_user_opens river_store rui Hnd) as [Hlisted Hhidden]. split.
  - apply (Hlisted [ana] ana); [reflexivity | now left].
  - apply (Hhidden ze); [reflexivity | discriminate | reflexivity].
Defined.

(** ** The activity page *)

Lemma firstn_In (A : Type) (n : nat) (l : list A) (x : A) :
  In x (firstn n l) -> In x l.
Proof.
  revert l. induction n as [|n IH]; intros [|a l]; simpl; try tauto.
  intros [H|H]; [now left | right; now apply IH].
Qed.

(** X22. [activities] shows at most 50 entries, newest first, all of them
    stored entries of the target user. The target is the acting user
    unless a president names another one; a target of 0 counts as none;
    anybody else naming another user is refused. Users are offered for
    selection to a president only. *)
Theorem activities_of_target_only :
  forall (s : Store) (current_user : User.t) (user_id : option Z),
    (activities s current_user user_id = activities_access_denied
     <-> (exists z, user_id = Some z /\ z <> 0 /\ z <> User.id current_user)
         /\ User.role current_user <> ROLE_PRESIDENTE)
    /\ (forall acts users target,
          activities s current_user user_id =
            activities_render acts users target ->
          (List.length acts <= 50)%nat
          /\ (forall a, In a acts ->
                In a (activity_log_rows s) /\ ActivityLog.user_id a = target)
          /\ StronglySorted
               (fun a b => ActivityLog.created_at b <= ActivityLog.created_at a)
               acts
          /\ (target = User.id current_user
              \/ (User.role current_user = ROLE_PRESIDENTE
                  /\ user_id = Some target /\ target <> 0))
          /\ (users <> None <-> User.role current_user = ROLE_PRESIDENTE)).
Proof.
  intros s current_user user_id. unfold activities. split.
  - unfold given_id. destruct user_id as [z|].
    + destruct (Z.eqb_spec z 0) as [Hz|Hz].
      * rewrite Z.eqb_refl. simpl. split; [discriminate|].
        intros [(z' & [= <-] & Hne & _) _]. contradiction.
      * destruct (Z.eqb_spec z (User.id current_user)) as [Hs|Hs]; simpl.
        -- split; [discriminate|]. intros [(z' & [= <-] & _ & Hne) _]. contradiction.
        -- destruct (String.eqb_spec (User.role current_user) ROLE_PRESIDENTE)
             as [Hp|Hp]; simpl.
           ++ split; [discriminate|]. intros [_ H]. contradiction.
           ++ split; [|reflexivity]. intros _. split; [|exact Hp]. now exists z.
    + rewrite Z.eqb_refl. simpl. split; [discriminate|].
      intros [(z & Hz & _) _]. discriminate.
  - intros acts users target Hrun.
    set (t := match given_id user_id with
              | Some z => z
              | None => User.id current_user
              end) in *.
    destruct (negb (t =? User.id current_user)
              && negb (String.eqb (User.role current_user) ROLE_PRESIDENTE))
      eqn:Hdeny; [discriminate|].
    remember (firstn 50
                (order_by_created_desc
                   (filter (fun a => ActivityLog.user_id a =? t)
                           (activity_log_rows s)))) as shown eqn:Eshown.
    assert (Eacts : acts = shown) by congruence.
    assert (Eusers : users = activities_all_users s current_user) by congruence.
    assert (Etarget : target = t) by congruence.
    clear Hrun. subst acts users target shown.
    split; [|split; [|split; [|split]]].
    + rewrite length_firstn. apply Nat.le_min_l.
    + intros a Ha. apply firstn_In in Ha.
      apply (Permutation_in _
               (fold_ins_permutation _ ActivityLog.created_at insert_by_created
                  (fun _ => eq_refl) (fun _ _ _ => eq_refl) _)) in Ha.
      apply filter_In in Ha as [Ha Ht]. split; [exact Ha | now apply Z.eqb_eq].
    + pose proof (fold_ins_sorted _ ActivityLog.created_at insert_by_created
                    (fun _ => eq_refl) (fun _ _ _ => eq_refl)
                    (filter (fun a => ActivityLog.user_id a =? t)
                            (activity_log_rows s))) as Hs.
      fold (order_by_created_desc
              (filter (fun a => ActivityLog.user_id a =? t) (activity_log_rows s)))
        in Hs.
      revert Hs. generalize (order_by_created_desc
                (filter (fun a => ActivityLog.user_id a =? t) (activity_log_rows s))).
      intros l. generalize 50%nat. intros n. revert l.
      induction n as [|n IH]; intros l Hs; simpl; [constructor|].
      destruct l as [|x l]; [constructor|].
      inversion Hs as [|x' l' Hl Hx]; subst. constructor; [now apply IH|].
      rewrite Forall_forall in *. intros y Hy. apply Hx. now apply firstn_In in Hy.
    + apply andb_false_iff in Hdeny as [Hself|Hpres].
      * left. apply negb_false_iff in Hself. now apply Z.eqb_eq.
      * apply negb_false_iff, String.eqb_eq in Hpres.
        subst t. unfold given_id. destruct user_id as [z|]; [|now left].
        destruct (Z.eqb_spec z 0); [now left|]. right. now repeat split.
    + unfold activities_all_users.
      destruct (String.eqb_spec (User.role current_user) ROLE_PRESIDENTE) as [Hp|Hp].
      * destruct (User.id current_user =? HIDDEN_USER_ID); split; auto; discriminate.
      * split; [intros H; now elim H | intros H; contradiction].
Qed.

Lemma activities_of_target_only_witness :
  In (ActivityLog.mk 1 1 "login" "Iniciou sessão" None 50 None)
     (activity_log_rows
        (mkStore [ana; rui] [] []
           [ActivityLog.mk 1 1 "login" "Iniciou sessão" None 50 None;
            ActivityLog.mk 2 2 "login" "Iniciou sessão" None 60 None] []))
  /\ ActivityLog.user_id
       (ActivityLog.mk 1 1 "login" "Iniciou sessão" None 50 None) = 1.
Proof.
  destruct (activities_of_target_only
              (mkStore [ana; rui] [] []
                 [ActivityLog.mk 1 1 "login" "Iniciou sessão" None 50 None;
                  ActivityLog.mk 2 2 "login" "Iniciou sessão" None 60 None] [])
              ana None) as [_ H].
  destruct (H [ActivityLog.mk 1 1 "login" "Iniciou sessão" None 50 None] None 1
              eq_refl) as (_ & Hall & _).
  apply Hall. now left.
Defined.

(** ** The months of the dashboard *)

Lemma wrap_month_turns_closed (turns : nat) :
  forall y mo,
    mo <= 12 -> 1 - mo <= 12 * Z.of_nat turns ->
    wrap_month_turns turns y mo = (y + (mo - 1) / 12, (mo - 1) mod 12 + 1).
Proof.
  assert (Hsmall : forall y mo, 1 <= mo <= 12 ->
            (y, mo) = (y + (mo - 1) / 12, (mo - 1) mod 12 + 1)).
  { intros y mo H. rewrite Z.div_small, Z.mod_small by lia. f_equal; lia. }
  induction turns as [|turns IH]; intros y mo Hle Hfuel.
  - simpl. apply Hsmall. lia.
  - cbn [wrap_month_turns]. destruct (Z.leb_spec mo 0) as [Hneg|Hpos].
    + rewrite IH by lia.
      replace (mo + 12 - 1) with (mo - 1 + 1 * 12) by lia.
      rewrite Z.div_add, Z.mod_add by lia. f_equal; lia.
    + apply Hsmall. lia.
Qed.

(** The loop as a division, and its end. *)
Lemma wrap_month_closed :
  forall (y mo : Z),
    mo <= 12 ->
    wrap_month y mo = (y + (mo - 1) / 12, (mo - 1) mod 12 + 1)
    /\ 1 <= snd (wrap_month y mo) <= 12
    /\ 12 * fst (wrap_month y mo) + snd (wrap_month y mo) = 12 * y + mo
    /\ forall extra,
         wrap_month_turns (Z.to_nat (1 - mo) + extra) y mo = wrap_month y mo.
Proof.
  intros y mo Hle.
  assert (E : wrap_month y mo = (y + (mo - 1) / 12, (mo - 1) mod 12 + 1)).
  { unfold wrap_month. apply wrap_month_turns_closed; lia. }
  rewrite E. cbn [fst snd]. split; [reflexivity|].
  pose proof (Z.mod_pos_bound (mo - 1) 12 ltac:(lia)) as Hmod.
  pose proof (Z.div_mod (mo - 1) 12 ltac:(lia)) as Hdiv.
  split; [lia|]. split; [lia|].
  intros extra. apply wrap_month_turns_closed; lia.
Qed.

(** X23. The loop of [dashboard_stats] that brings a month number back
    into the year computes a floor division: for a month number of at most
    12 it ends on the year moved by the quotient of [mo - 1] by 12 and on
    the month [(mo - 1) mod 12 + 1], which lies between 1 and 12; the loop
    has then ended by its own test, further turns change nothing. *)
Theorem wrap_month_is_floor_division :
  forall (y mo : Z),
    mo <= 12 ->
    wrap_month y mo = (y + (mo - 1) / 12, (mo - 1) mod 12 + 1)
    /\ 1 <= snd (wrap_month y mo) <= 12
    /\ 12 * fst (wrap_month y mo) + snd (wrap_month y mo) = 12 * y + mo
    /\ forall extra,
         wrap_month_turns (Z.to_nat (1 - mo) + extra) y mo = wrap_month y mo.
Proof.
  intros y mo Hle. exact (wrap_month_closed y mo Hle).
Qed.

Lemma wrap_month_is_floor_division_witness :
  wrap_month 2025 (-9) = (2024, 3) /\ wrap_month 2025 0 = (2024, 12).
Proof.
  split.
  - exact (proj1 (wrap_month_is_floor_division 2025 (-9) ltac:(lia))).
  - exact (proj1 (wrap_month_is_floor_division 2025 0 ltac:(lia))).
Defined.

(** X24. For a month of the calendar, the months of the dashboard are the
    twelve months that end with the current one, oldest first: entry [k]
    is month number [12 * year + month - 11 + k] counted in months, with
    its month between 1 and 12; the last entry is the current month. *)
Theorem dashboard_months_are_last_twelve :
  forall (year month : Z),
    1 <= month <= 12 ->
    List.length (dashboard_months year month) = 12%nat
    /\ nth 11 (dashboard_months year month) (0, 0) = (year, month)
    /\ forall k y mo,
         (k < 12)%nat ->
         nth k (dashboard_months year month) (0, 0) = (y, mo) ->
         1 <= mo <= 12 /\ 12 * y + mo = 12 * year + month - 11 + Z.of_nat k.
Proof.
  intros year month Hm.
  assert (Hentry : forall i y mo,
            0 <= i -> wrap_month year (month - i) = (y, mo) ->
            1 <= mo <= 12 /\ 12 * y + mo = 12 * year + month - i).
  { intros i y mo Hi E.
    destruct (wrap_month_closed year (month - i) ltac:(lia))
      as (_ & Hb & Hs & _).
    rewrite E in Hb, Hs. cbn [fst snd] in Hb, Hs. lia. }
  split; [reflexivity|]. split.
  - unfold dashboard_months, months_back. cbn [map nth].
    replace (month - 0) with month by lia.
    destruct (wrap_month_closed year month ltac:(lia)) as (E & _).
    rewrite E, Z.div_small, Z.mod_small by lia. f_equal; lia.
  - intros k y mo Hk E. unfold dashboard_months, months_back in E.
    do 12 (destruct k as [|k];
           [cbn [map nth] in E; apply Hentry in E; [|lia];
            split; [apply E | destruct E as [_ E]; rewrite E;
                              cbn [Z.of_nat Pos.of_succ_nat Pos.succ]; lia]|]).
    lia.
Qed.

Lemma dashboard_months_are_last_twelve_witness :
  nth 11 (dashboard_months 2025 2) (0, 0) = (2025, 2)
  /\ nth 0 (dashboard_months 2025 2) (0, 0) = (2024, 3).
Proof.
  destruct (dashboard_months_are_last_twelve 2025 2 ltac:(lia)) as (_ & Hlast & _).
  split; [exact Hlast | reflexivity].
Defined.

(** ** Redeeming a reset token *)

Lemma find_update_first_apart (A : Type) (p q : A -> bool) (f : A -> A)
    (l : list A) :
  (forall x, p x = true -> q x = false /\ q (f x) = false) ->
  find q (update_first p f l) = find q l.
Proof.
  intros H. induction l as [|a l IH]; simpl; [reflexivity|].
  destruct (p a) eqn:Ep; simpl.
  - destruct (H a Ep) as [-> ->]. reflexivity.
  - now rewrite IH.
Qed.

(** X25. Without storage faults, redeeming a token that verifies with a
    password of six characters or more redirects to the login, stores the
    new password hash for the token's user and for nobody else, and
    leaves the token refused at every later instant. [login] looks up the
    typed email in lower case ([lower] stands for [str.lower], of which
    nothing is assumed): the user then signs in with the new password by
    typing an email whose lower case is the stored one. *)
Theorem reset_then_sign_in :
  forall (lower : string -> string) (env : Env) (secret password : string)
         (s : Store) (u : User.t),
    verify_reset_token env s secret = Some u ->
    validated_password password = true ->
    exists s1,
      reset_password env false secret (Some password) (mkWorld s s []) =
        (Ok reset_redirect_login, mkWorld s1 s1 [])
      /\ get_user s1 (User.id u) = Some (User.set_password u password)
      /\ (forall uid, uid <> User.id u -> get_user s1 uid = get_user s uid)
      /\ (forall env', verify_reset_token env' s1 secret = None)
      /\ (forall env2 user_agent typed,
            lower typed = User.email u ->
            find (fun x => String.eqb (User.email x) (User.email u)) (user_rows s) =
              Some u ->
            fst (login env2 (lower typed) password user_agent
                   (mkWorld s1 s1 [])) =
              Ok (login_redirect_dashboard (User.set_password u password))).
Proof.
  intros lower env secret password s u H Hpassword.
  pose proof (validated_password_given _ Hpassword) as Hne.
  destruct (verify_some_first _ _ _ _ H) as (r & Hr & Hvalid & Hu).
  assert (Hid : User.id u = PasswordResetToken.user_id r).
  { unfold get_user in Hu. apply find_some in Hu as [_ E]. now apply Z.eqb_eq in E. }
  rewrite <- Hid in Hu.
  destruct (set_then_check u password Hne) as [Hok _].
  destruct (set_password_keeps u password) as (Ki & Ke & _).
  unfold reset_password, reset_password_submit, mark_token_used, log_activity,
    add_activity.
  run_quiet. rewrite H.
  replace (first_reset_token _ secret) with (Some r) by (symmetry; exact Hr).
  simpl.
  eexists. split; [reflexivity|]. split; [|split; [|split]].
  - unfold get_user in *. simpl.
    apply (find_update_first_same _ (fun x => User.id x =? User.id u)
             (fun x => User.set_password x password) (user_rows s) u Hu).
    rewrite Ki. apply Z.eqb_refl.
  - intros uid Huid. unfold get_user. simpl.
    apply find_update_first_apart. intros x Hx. apply Z.eqb_eq in Hx.
    rewrite (proj1 (set_password_keeps x password)), Hx.
    split; apply Z.eqb_neq; congruence.
  - intros env'. apply token_used_verify.
    exists (PasswordResetToken.mark_used (now env) r). split; [|reflexivity].
    unfold first_reset_token in *. simpl.
    apply find_update_first_same; [exact Hr|]. simpl. apply find_some in Hr. apply Hr.
  - intros env2 user_agent typed Htyped Hmail. rewrite Htyped.
    unfold login. unfold bind at 1.
    rewrite query_quiet by reflexivity. cbn [session]. simpl.
    rewrite (find_update_first_other _
               (fun x => User.id x =? User.id u)
               (fun x => String.eqb (User.email x) (User.email u))
               (fun x => User.set_password x password)
               (user_rows s) u Hu Hmail)
      by (rewrite Ke; apply String.eqb_refl).
    rewrite Hok. unfold guarded, try_except, bind.
    rewrite log_activity_quiet_unnotified. reflexivity.
Qed.

Lemma reset_then_sign_in_witness :
  exists s1,
    reset_password at_100 false "s3gredo" (Some "nova-senha")
      (mkWorld one_token_store one_token_store []) =
      (Ok reset_redirect_login, mkWorld s1 s1 [])
    /\ fst (login at_100 (ascii_lower "ANA@example.org") "nova-senha" "Firefox"
              (mkWorld s1 s1 [])) =
         Ok (login_redirect_dashboard (User.set_password ana "nova-senha")).
Proof.
  destruct (reset_then_sign_in ascii_lower at_100 "s3gredo" "nova-senha"
              one_token_store ana)
    as (s1 & E & _ & _ & _ & Hlogin); [reflexivity | reflexivity|].
  exists s1. split; [exact E|]. apply Hlogin; reflexivity.
Defined.



(** ** The notification page and the activity API *)

Lemma filter_length_permutation (A : Type) (p : A -> bool) (l l' : list A) :
  Permutation l l' -> List.length (filter p l) = List.length (filter p l').
Proof.
  induction 1 as [|x l l' _ IH|x y l|l l' l'' _ IH1 _ IH2]; simpl.
  - reflexivity.
  - destruct (p x); simpl; congruence.
  - destruct (p x), (p y); reflexivity.
  - congruence.
Qed.

Lemma filter_both (A : Type) (p q : A -> bool) (l : list A) :
  filter q (filter p l) = filter (fun x => p x && q x) l.
Proof.
  induction l as [|a l IH]; simpl; [reflexivity|].
  destruct (p a); simpl; [destruct (q a)|]; now rewrite IH.
Qed.

(** X27. The notification page shows exactly the stored notifications of
    the requesting user, newest first; the unread counter of the page
    header is the number of unread rows of that page; and, notification
    ids being unique, every row of the page can be marked read by that
    user when the storage does not fail. *)
Theorem notification_page_matches_counter :
  forall (s : Store) (current_user : User.t),
    (forall n, In n (notifications s current_user) <->
               In n (notification_rows s)
               /\ Notification.user_id n = User.id current_user)
    /\ StronglySorted
         (fun a b => Notification.created_at b <= Notification.created_at a)
         (notifications s current_user)
    /\ unread_count s (User.id current_user) =
         List.length (filter (fun n => negb (Notification.read n))
                             (notifications s current_user))
    /\ (NoDup (map Notification.id (notification_rows s)) ->
        forall env n,
          In n (notifications s current_user) ->
          fst (mark_notification_read env current_user (Notification.id n)
                 (mkWorld s s [])) = Ok mark_success).
Proof.
  intros s current_user.
  pose proof (fold_ins_permutation _ Notification.created_at insert_by_notified
                (fun _ => eq_refl) (fun _ _ _ => eq_refl)
                (filter (fun n => Notification.user_id n =? User.id current_user)
                        (notification_rows s))) as Hperm.
  fold (order_by_notified_desc
          (filter (fun n => Notification.user_id n =? User.id current_user)
                  (notification_rows s))) in Hperm.
  fold (notifications s current_user) in Hperm.
  assert (Hin : forall n, In n (notifications s current_user) <->
                          In n (notification_rows s)
                          /\ Notification.user_id n = User.id current_user).
  { intros n. split.
    - intros H. apply (Permutation_in _ Hperm), filter_In in H as [H E].
      split; [exact H | now apply Z.eqb_eq].
    - intros [H E]. apply (Permutation_in _ (Permutation_sym Hperm)), filter_In.
      split; [exact H | now apply Z.eqb_eq]. }
  split; [exact Hin|]. split; [|split].
  - apply (fold_ins_sorted _ Notification.created_at insert_by_notified);
      reflexivity.
  - unfold unread_count.
    rewrite (filter_length_permutation _ _ _ _ Hperm), filter_both. reflexivity.
  - intros Hnd env n Hn. apply Hin in Hn as [Hrow Hown].
    rewrite (mark_read_quiet env current_user (Notification.id n) s s n);
      [reflexivity | | exact Hown].
    unfold get_notification.
    apply (find_by_unique_key _ Notification.id (notification_rows s) n Hnd Hrow).
Qed.

(** X28. The activity page is the head of what the activity API returns:
    for a named user other than 0, the page is refused exactly when the
    API answers 403, and otherwise shows the first 50 of the entries the
    API serialises. For the user 0 the two differ: the page shows the
    acting user's own entries, the API refuses anybody but a president. *)
Theorem activity_page_is_head_of_api :
  forall (s : Store) (current_user : User.t) (user_id : Z),
    (user_id <> 0 ->
     (activities s current_user (Some user_id) = activities_access_denied <->
      get_user_activities s current_user user_id = user_activities_forbidden)
     /\ forall entries,
          get_user_activities s current_user user_id =
            user_activities_json entries ->
          activities s current_user (Some user_id) =
            activities_render (firstn 50 entries)
              (activities_all_users s current_user) user_id)
    /\ (User.role current_user <> ROLE_PRESIDENTE ->
        User.id current_user <> 0 ->
        get_user_activities s current_user 0 = user_activities_forbidden
        /\ exists own,
             get_user_activities s current_user (User.id current_user) =
               user_activities_json own
             /\ activities s current_user (Some 0) =
                  activities_render (firstn 50 own) None (User.id current_user)).
Proof.
  intros s current_user user_id. split.
  - intros Hz. unfold activities, get_user_activities, given_id.
    apply Z.eqb_neq in Hz. rewrite Hz.
    rewrite (andb_comm (negb (String.eqb _ _))).
    destruct (negb (user_id =? User.id current_user)
              && negb (String.eqb (User.role current_user) ROLE_PRESIDENTE)).
    + split; [tauto | discriminate].
    + split; [split; discriminate|]. now intros entries [= <-].
  - intros Hp Hid. unfold activities, get_user_activities, given_id.
    apply String.eqb_neq in Hp. rewrite Hp.
    rewrite Z.eqb_refl. cbn [negb andb].
    rewrite (Z.eqb_sym 0). apply Z.eqb_neq in Hid. rewrite Hid.
    rewrite Z.eqb_refl. cbn [negb andb]. split; [reflexivity|].
    eexists. split; [reflexivity|].
    unfold activities_all_users. now rewrite Hp.
Qed.

Lemma activity_page_is_head_of_api_witness :
  get_user_activities staffed_store ana 0 = user_activities_forbidden
  /\ activities staffed_store ana (Some 2) = activities_access_denied.
Proof.
  destruct (activity_page_is_head_of_api staffed_store ana 2) as [Hnamed _].
  destruct (activity_page_is_head_of_api staffed_store ana 0) as [_ Hzero].
  split.
  - apply Hzero; discriminate.
  - apply Hnamed; [discriminate | reflexivity].
Defined.

Lemma notification_page_matches_counter_witness :
  unread_count inbox_store 2 = 1%nat
  /\ fst (mark_notification_read at_100 rui 1 (mkWorld inbox_store inbox_store [])) =
       Ok mark_success.
Proof.
  destruct (notification_page_matches_counter inbox_store rui)
    as (_ & _ & Hcount & Hmark).
  split; [exact Hcount|].
  apply (Hmark ltac:(simpl; repeat constructor; simpl; tauto) at_100 unread_for_rui).
  now left.
Defined.
